(** * Zone 1 executor: policy, kill switch, anomaly detector, request
      handlers, audit chain and canary registry

    A shallow embedding of the Python sources under [src/security/zone1]
    and the properties the specification states about them.  Python
    dictionaries keyed by strings are [gmap string _] where only lookups
    matter and association lists where iteration order is observable;
    exceptions are explicit sums; clocks, random tokens, the secret store
    and the provider integrations are inputs of the functions that read
    them. *)

From Stdlib Require Import Ascii String DecimalString QArith Sorted.
From Stdlib Require OrdersEx.
From stdpp Require Import gmap strings list.

Set Warnings "-register-all".

Local Open Scope string_scope.
Local Open Scope list_scope.

(** ** Python helpers *)

Module Py.

(** JSON documents as [json.loads] returns them. *)
Inductive json : Type :=
| JNull
| JBool (b : bool)
| JNum (z : Z)
| JStr (s : string)
| JArr (items : list json)
| JObj (fields : list (string * json)).

(** A raised exception: its class and [str(e)]. *)
Record exn : Type := Exn { exn_class : string; exn_str : string }.

(** Outcome of a call that may raise. *)
Inductive result (A : Type) : Type :=
| Ok (a : A)
| Raise (e : exn).
Arguments Ok {A} a.
Arguments Raise {A} e.

(** [type(x).__name__] of a JSON document. *)
Definition type_name (j : json) : string :=
  match j with
  | JNull => "NoneType"
  | JBool _ => "bool"
  | JNum _ => "int"
  | JStr _ => "str"
  | JArr _ => "list"
  | JObj _ => "dict"
  end.

(** [list(x.keys())]: only a dictionary has the attribute. *)
Definition keys (x : json) : result (list string) :=
  match x with
  | JObj fields => Ok (List.map fst fields)
  | other =>
      Raise (Exn "AttributeError"
               ("'" ++ type_name other ++ "' object has no attribute 'keys'"))
  end.

(** [d.get(k)] on a dictionary kept in insertion order. *)
Fixpoint assoc {A : Type} (k : string) (d : list (string * A)) : option A :=
  match d with
  | [] => None
  | (k', v) :: rest => if String.eqb k k' then Some v else assoc k rest
  end.

(** [d[k] = v]: an existing key keeps its position. *)
Fixpoint assoc_set {A : Type} (k : string) (v : A) (d : list (string * A))
  : list (string * A) :=
  match d with
  | [] => [(k, v)]
  | (k', v') :: rest =>
      if String.eqb k k' then (k, v) :: rest else (k', v') :: assoc_set k v rest
  end.

(** [s.split(sep)] for a one-character separator. *)
Fixpoint split (sep : ascii) (s : string) : list string :=
  match s with
  | EmptyString => [EmptyString]
  | String c rest =>
      if Ascii.eqb c sep then EmptyString :: split sep rest
      else match split sep rest with
           | [] => [String c EmptyString]
           | w :: ws => String c w :: ws
           end
  end.

Definition digit_of (c : ascii) : option nat :=
  let n := nat_of_ascii c in
  if (48 <=? n)%nat && (n <=? 57)%nat then Some (n - 48)%nat else None.

Fixpoint int_digits (acc : nat) (s : string) : option nat :=
  match s with
  | EmptyString => Some acc
  | String c rest =>
      match digit_of c with
      | Some d => int_digits (10 * acc + d) rest
      | None => None
      end
  end.

(** [int(s)] on a string of decimal digits; anything else is the
    [ValueError] case. *)
Definition int (s : string) : option nat :=
  match s with
  | EmptyString => None
  | _ => int_digits 0 s
  end.

(** [needle in haystack] on strings. *)
Fixpoint prefixb (p s : string) : bool :=
  match p, s with
  | EmptyString, _ => true
  | String a p', String b s' => Ascii.eqb a b && prefixb p' s'
  | String _ _, EmptyString => false
  end.

Fixpoint contains (needle hay : string) : bool :=
  prefixb needle hay ||
  match hay with
  | EmptyString => false
  | String _ rest => contains needle rest
  end.

(** [s[:n]]. *)
Fixpoint take (n : nat) (s : string) : string :=
  match n, s with
  | O, _ => EmptyString
  | S n', String c rest => String c (take n' rest)
  | S _, EmptyString => EmptyString
  end.

Definition lower_ascii (c : ascii) : ascii :=
  let n := nat_of_ascii c in
  if (65 <=? n)%nat && (n <=? 90)%nat then ascii_of_nat (n + 32) else c.

(** [s.lower()] on ASCII text. *)
Fixpoint lower (s : string) : string :=
  match s with
  | EmptyString => EmptyString
  | String c rest => String (lower_ascii c) (lower rest)
  end.

(** Decimal rendering of a natural number, as [str(n)] and [{n}]. *)
Definition str_of_nat (n : nat) : string :=
  NilEmpty.string_of_uint (Nat.to_uint n).

(** [s.replace(a, b)] for one-character [a] and [b]. *)
Fixpoint replace_char (a b : ascii) (s : string) : string :=
  match s with
  | EmptyString => EmptyString
  | String c rest => String (if Ascii.eqb c a then b else c) (replace_char a b rest)
  end.

(** [xs[-n:]] for an integer [n]: the last [n] items when [n] is
    positive, everything when [n] is zero, and the items from index [-n]
    on when [n] is negative. *)
Definition last_slice {A : Type} (n : Z) (xs : list A) : list A :=
  match n with
  | Z0 => xs
  | Zpos p => skipn (length xs - Pos.to_nat p) xs
  | Zneg p => skipn (Pos.to_nat p) xs
  end.

End Py.

(** ** policy.py *)

Module Policy.
Import Py.

Inductive ApprovalLevel : Type := NONE | NOTIFY | APPROVE.

Definition ApprovalLevel_value (l : ApprovalLevel) : string :=
  match l with
  | NONE => "none"
  | NOTIFY => "notify"
  | APPROVE => "approve"
  end.

Definition ApprovalLevel_eqb (a b : ApprovalLevel) : bool :=
  match a, b with
  | NONE, NONE | NOTIFY, NOTIFY | APPROVE, APPROVE => true
  | _, _ => false
  end.

Record ActionPolicy : Type := mkActionPolicy {
  requires_approval : ApprovalLevel;
  rate_limit : string;
  description : string
}.

Definition ALLOWED_ACTIONS : list (string * ActionPolicy) :=
  [ ("send_email", mkActionPolicy APPROVE "10/hour" "Send email via Gmail API");
    ("send_telegram", mkActionPolicy APPROVE "50/hour" "Send Telegram message");
    ("send_slack", mkActionPolicy APPROVE "50/hour" "Send Slack message");
    ("make_call", mkActionPolicy APPROVE "5/hour" "Make phone call via Twilio");
    ("send_sms", mkActionPolicy APPROVE "20/hour" "Send SMS via Twilio");
    ("read_email", mkActionPolicy NONE "100/hour" "Read emails (no approval needed)");
    ("read_telegram", mkActionPolicy NONE "100/hour" "Read Telegram messages");
    ("read_slack", mkActionPolicy NONE "100/hour" "Read Slack messages") ].

(** The dictionary [check_action] returns. *)
Inductive PolicyResult : Type :=
| Denied (error : string) (message : string)
| Allowed (requires_approval : bool) (approval_level : string)
          (description : string).

Definition allowed (r : PolicyResult) : bool :=
  match r with
  | Allowed _ _ _ => true
  | Denied _ _ => false
  end.

(** [PolicyEngine]: its only attribute is [rate_counts]. *)
Record PolicyEngine : Type := mkPolicyEngine {
  rate_counts : gmap string nat
}.

Definition new : PolicyEngine := mkPolicyEngine ∅.

Definition counter (pe : PolicyEngine) (action : string) : nat :=
  default 0%nat (rate_counts pe !! action).

(** [count, _ = limit.split("/"); max_count = int(count)].  [None] is the
    [ValueError] of a limit that is not [<digits>/<window>]. *)
Definition parse_limit (limit : string) : option nat :=
  match split "/" limit with
  | [count; _] => int count
  | _ => None
  end.

Definition _check_rate_limit (action limit : string) (pe : PolicyEngine)
  : option (bool * PolicyEngine) :=
  match parse_limit limit with
  | None => None
  | Some max_count =>
      let current := counter pe action in
      if (max_count <=? current)%nat then Some (false, pe)
      else Some (true, mkPolicyEngine (<[action := (current + 1)%nat]> (rate_counts pe)))
  end.

(** [check_action(action, params)]; [params] is not inspected. *)
Definition check_action (action : string) (params : json) (pe : PolicyEngine)
  : option (PolicyResult * PolicyEngine) :=
  match assoc action ALLOWED_ACTIONS with
  | None =>
      Some (Denied "action_not_allowed"
              ("Action '" ++ action ++ "' is not in the allowed actions list"),
            pe)
  | Some policy =>
      match _check_rate_limit action (rate_limit policy) pe with
      | None => None
      | Some (false, pe') =>
          Some (Denied "rate_limited"
                  ("Rate limit exceeded for '" ++ action ++ "': "
                     ++ rate_limit policy),
                pe')
      | Some (true, pe') =>
          Some (Allowed (negb (ApprovalLevel_eqb (requires_approval policy) NONE))
                  (ApprovalLevel_value (requires_approval policy))
                  (description policy),
                pe')
      end
  end.

Definition reset_rate_limits (pe : PolicyEngine) : PolicyEngine :=
  mkPolicyEngine ∅.

(** The rate cap of a descriptor-table action. *)
Definition cap (action : string) : option nat :=
  match assoc action ALLOWED_ACTIONS with
  | Some policy => parse_limit (rate_limit policy)
  | None => None
  end.

(** A run of [check_action] calls, one per listed action, collecting the
    results in call order. *)
Fixpoint run (calls : list (string * json)) (pe : PolicyEngine)
  : option (list PolicyResult * PolicyEngine) :=
  match calls with
  | [] => Some ([], pe)
  | (action, params) :: rest =>
      match check_action action params pe with
      | None => None
      | Some (r, pe') =>
          match run rest pe' with
          | None => None
          | Some (rs, pe'') => Some (r :: rs, pe'')
          end
      end
  end.


End Policy.

(** ** kill_switch.py *)

Module KillSwitch.
Import Py.

Inductive KillReason : Type :=
| MANUAL
| ANOMALY_DETECTED
| RATE_LIMIT_EXCEEDED
| SECURITY_BREACH
| TELEGRAM_COMMAND
| FILE_TRIGGER.

Definition KillReason_value (r : KillReason) : string :=
  match r with
  | MANUAL => "manual"
  | ANOMALY_DETECTED => "anomaly_detected"
  | RATE_LIMIT_EXCEEDED => "rate_limit_exceeded"
  | SECURITY_BREACH => "security_breach"
  | TELEGRAM_COMMAND => "telegram_command"
  | FILE_TRIGGER => "file_trigger"
  end.

(** [timestamp] holds the [isoformat()] of the UTC clock reading. *)
Record KillEvent : Type := mkKillEvent {
  timestamp : string;
  reason : KillReason;
  details : string;
  triggered_by : string
}.

(** The attributes of a [KillSwitch] that change after construction,
    with the contents of [KILL_FILE] ([None]: the file does not exist).
    The callbacks it was given are in [Wiring]. *)
Record KillSwitch : Type := mkKillSwitch {
  _active : bool;
  _killed : bool;
  _kill_event : option KillEvent;
  KILL_FILE : option string
}.

Definition new (kill_file : option string) : KillSwitch :=
  mkKillSwitch true false None kill_file.

Definition is_killed (ks : KillSwitch) : bool := _killed ks.

(** The thread a call runs on, as far as [stop] can tell them apart: one
    of the watcher threads kept in [_watchers], or any other thread. *)
Inductive Caller : Type :=
| Watcher
| Elsewhere.

(** [stop()]: [_active] is cleared, then every watcher is joined.  A
    thread that joins itself gets [RuntimeError]. *)
Definition stop (who : Caller) (ks : KillSwitch) : result unit * KillSwitch :=
  (match who with
   | Watcher => Raise (Exn "RuntimeError" "cannot join current thread")
   | Elsewhere => Ok tt
   end,
   mkKillSwitch false (_killed ks) (_kill_event ks) (KILL_FILE ks)).

(** The four lines [_write_kill_marker] writes. *)
Definition marker (e : KillEvent) : string :=
  "KILLED: " ++ KillReason_value (reason e) ++ String "010" (
  "TIME: " ++ timestamp e ++ String "010" (
  "BY: " ++ triggered_by e ++ String "010" (
  "DETAILS: " ++ details e ++ String "010" ""))).

Definition _write_kill_marker (ks : KillSwitch) : KillSwitch :=
  mkKillSwitch (_active ks) (_killed ks) (_kill_event ks)
    (Some (match _kill_event ks with
           | Some e => marker e
           | None => ""
           end)).

(** A file opened for writing, by its path, and what is written to it. *)
Record FileWrite : Type := mkFileWrite {
  fw_path : string;
  fw_content : string
}.

(** The path [KILL_FILE] names. *)
Definition KILL_FILE_PATH : string := "/tmp/moltbot-kill".

(** [_write_kill_marker] with the file it writes. *)
Definition _write_kill_marker_io (ks : KillSwitch) : KillSwitch * list FileWrite :=
  let content := match _kill_event ks with
                 | Some e => marker e
                 | None => ""
                 end in
  (mkKillSwitch (_active ks) (_killed ks) (_kill_event ks) (Some content),
   [mkFileWrite KILL_FILE_PATH content]).

Definition reset (authorized_by : string) (ks : KillSwitch) : bool * KillSwitch :=
  if _killed ks then (true, mkKillSwitch (_active ks) false None None)
  else (false, ks).

(** The switch is one object inside the state [W] of whoever owns it; the
    callbacks passed to the constructor and to
    [register_shutdown_callback] act on that owner.  A callback's
    exception is swallowed by the caller, so a callback is a total
    function on [W]. *)
Record Wiring (W : Type) : Type := mkWiring {
  ks_get : W -> KillSwitch;
  ks_set : KillSwitch -> W -> W;
  on_kill : option (KillEvent -> W -> W);
  _shutdown_callbacks : list (W -> W)
}.
Arguments ks_get {W} _ _.
Arguments ks_set {W} _ _ _.
Arguments on_kill {W} _.
Arguments _shutdown_callbacks {W} _.

Section Trigger.
Context {W : Type} (wr : Wiring W).

Definition _execute_shutdown (w : W) : W :=
  let w1 :=
    match _kill_event (ks_get wr w), on_kill wr with
    | Some e, Some f => f e w
    | _, _ => w
    end in
  let w2 := fold_left (fun acc callback => callback acc)
              (_shutdown_callbacks wr) w1 in
  ks_set wr (_write_kill_marker (ks_get wr w2)) w2.

(** [trigger(reason, details, triggered_by)]; [now] is the UTC clock
    reading taken for the event.  The result is [self._kill_event] as
    read on return. *)
Definition trigger (r : KillReason) (details triggered_by now : string) (w : W)
  : option KillEvent * W :=
  let ks := ks_get wr w in
  match _killed ks, _kill_event ks with
  | true, Some e => (Some e, w)
  | _, _ =>
      let e := mkKillEvent now r details triggered_by in
      let w1 := ks_set wr (mkKillSwitch (_active ks) true (Some e) (KILL_FILE ks)) w in
      let w2 := _execute_shutdown w1 in
      (_kill_event (ks_get wr w2), w2)
  end.
(** [_execute_shutdown] and [trigger] with the files they write, in the
    order of the writes.  The callbacks write none: [_on_kill] logs and
    installs the handler table, [stop] ends the watchers and closes the
    socket. *)
Definition _execute_shutdown_io (w : W) : W * list FileWrite :=
  let w1 :=
    match _kill_event (ks_get wr w), on_kill wr with
    | Some e, Some f => f e w
    | _, _ => w
    end in
  let w2 := fold_left (fun acc callback => callback acc)
              (_shutdown_callbacks wr) w1 in
  let '(ks, written) := _write_kill_marker_io (ks_get wr w2) in
  (ks_set wr ks w2, written).

Definition trigger_io (r : KillReason) (details triggered_by now : string) (w : W)
  : option KillEvent * W * list FileWrite :=
  let ks := ks_get wr w in
  match _killed ks, _kill_event ks with
  | true, Some e => (Some e, w, [])
  | _, _ =>
      let e := mkKillEvent now r details triggered_by in
      let w1 := ks_set wr (mkKillSwitch (_active ks) true (Some e) (KILL_FILE ks)) w in
      let '(w2, written) := _execute_shutdown_io w1 in
      (_kill_event (ks_get wr w2), w2, written)
  end.
End Trigger.

(** A switch on its own: no [on_kill], no shutdown callback. *)
Definition bare : Wiring KillSwitch :=
  mkWiring KillSwitch (fun ks => ks) (fun ks _ => ks) None [].

Definition KILL_WORDS : list string := ["KILLSWITCH"; "EMERGENCY_STOP"; "HALT_ALL"].

Section Screening.
Context {W : Type} (wr : Wiring W).

(** [str.upper()], which follows the case mapping of Unicode and is
    taken as given.  A text is held as its UTF-8 bytes, on which replacing
    a space and looking for an ASCII word give what they give on the
    characters. *)
Variable str_upper : string -> string.

(** [check_message_for_kill(message, sender)]; [now] is the clock reading
    [trigger] takes. *)
Definition check_message_for_kill (message sender now : string) (w : W) : bool * W :=
  let upper_msg := replace_char " " "_" (str_upper message) in
  match List.find (fun word => contains word upper_msg) KILL_WORDS with
  | Some word =>
      (true,
       snd (trigger wr TELEGRAM_COMMAND
              ("Kill word detected in message: " ++ word) sender now w))
  | None => (false, w)
  end.

(** [reset(authorized_by)] on the switch inside its owner. *)
Definition reset_in (authorized_by : string) (w : W) : bool * W :=
  let '(done, ks) := reset authorized_by (ks_get wr w) in
  (done, if done then ks_set wr ks w else w).
End Screening.

End KillSwitch.

Module AnomalyDetector.
Import Py KillSwitch.

(** [_action_counts]: per action, the [time.time()] readings kept in the
    window, oldest first.  Readings are rationals. *)
Record AnomalyDetector : Type := mkAnomalyDetector {
  _action_counts : gmap string (list Q)
}.

Definition new : AnomalyDetector := mkAnomalyDetector ∅.

Definition thresholds : list (string * nat) :=
  [ ("send_email", 20%nat); ("send_sms", 30%nat); ("make_call", 10%nat);
    ("send_telegram", 50%nat); ("send_slack", 50%nat) ].

Definition threshold (action : string) : nat :=
  default 100%nat (assoc action thresholds).

(** [t > window_start]. *)
Definition in_window (window_start : Q) (t : Q) : bool :=
  negb (Qle_bool t window_start).

Definition window (ad : AnomalyDetector) (action : string) : list Q :=
  default [] (_action_counts ad !! action).

(** The list stored for [action] once the reading [now] is recorded. *)
Definition slide (now : Q) (old : list Q) : list Q :=
  List.filter (in_window (now - 60)%Q) old ++ [now].

Definition exceeded_details (action : string) (count thr : nat) : string :=
  "Action '" ++ action ++ "' exceeded rate limit: " ++ str_of_nat count
    ++ "/" ++ str_of_nat thr ++ " per minute".

Section Record.
Context {W : Type} (wr : Wiring W)
        (ad_get : W -> AnomalyDetector) (ad_set : AnomalyDetector -> W -> W).

(** [record_action(action)]; [now] is [time.time()] and [utc_now] the
    clock reading [trigger] takes when it fires. *)
Definition record_action (action : string) (now : Q) (utc_now : string) (w : W)
  : bool * W :=
  let kept := slide now (window (ad_get w) action) in
  let w1 := ad_set (mkAnomalyDetector (<[action := kept]> (_action_counts (ad_get w)))) w in
  let count := length kept in
  let thr := threshold action in
  if (thr <? count)%nat then
    (false,
     snd (trigger wr RATE_LIMIT_EXCEEDED (exceeded_details action count thr)
            "anomaly_detector" utc_now w1))
  else (true, w1).

(** [record_action] with the files it writes. *)
Definition record_action_io (action : string) (now : Q) (utc_now : string) (w : W)
  : bool * W * list FileWrite :=
  let kept := slide now (window (ad_get w) action) in
  let w1 := ad_set (mkAnomalyDetector (<[action := kept]> (_action_counts (ad_get w)))) w in
  let count := length kept in
  let thr := threshold action in
  if (thr <? count)%nat then
    let '(_, w2, written) :=
      trigger_io wr RATE_LIMIT_EXCEEDED (exceeded_details action count thr)
        "anomaly_detector" utc_now w1 in
    (false, w2, written)
  else (true, w1, []).
End Record.

(** Readings that come at least sixty seconds after everything in the
    window [w] and after one another. *)
Fixpoint spaced (w : list Q) (times : list Q) : Prop :=
  match times with
  | [] => True
  | now :: rest => (forall t, In t w -> (t <= now - 60)%Q) /\ spaced [now] rest
  end.

End AnomalyDetector.

(** ** credentials.py *)

Module Credentials.
Import Py.

(** [_cache]: decrypted documents by secret file name. *)
Record CredentialInjector : Type := mkCredentialInjector {
  _cache : gmap string (list (string * string))
}.

Definition action_to_secrets : list (string * list string) :=
  [ ("send_email", ["gmail_token"]);
    ("read_email", ["gmail_token"]);
    ("send_telegram", ["telegram_bot_token"]);
    ("read_telegram", ["telegram_bot_token"]);
    ("send_slack", ["slack_token"]);
    ("read_slack", ["slack_token"]);
    ("make_call", ["twilio_account_sid"; "twilio_auth_token"]);
    ("send_sms", ["twilio_account_sid"; "twilio_auth_token"]) ].

Section Load.
(** What decrypting a secret file gives: the document, or the
    exception of a missing file or a failed [sops] run. *)
Variable sops : string -> result (list (string * string)).

Definition _load_secrets (file : string) (ci : CredentialInjector)
  : result (list (string * string)) * CredentialInjector :=
  match _cache ci !! file with
  | Some secrets => (Ok secrets, ci)
  | None =>
      match sops file with
      | Ok secrets => (Ok secrets, mkCredentialInjector (<[file := secrets]> (_cache ci)))
      | Raise e => (Raise e, ci)
      end
  end.

Definition inject_for_action (action : string) (ci : CredentialInjector)
  : result (list (string * string)) * CredentialInjector :=
  match default [] (assoc action action_to_secrets) with
  | [] => (Ok [], ci)
  | required_keys =>
      match _load_secrets "api-keys.yaml" ci with
      | (Ok secrets, ci') =>
          (Ok (List.map (fun key => (key, default "" (assoc key secrets))) required_keys),
           ci')
      | (Raise e, ci') => (Raise e, ci')
      end
  end.
End Load.

Definition clear_cache (ci : CredentialInjector) : CredentialInjector :=
  mkCredentialInjector ∅.

Definition get_all_secrets (sops : string -> result (list (string * string)))
    (file : string) (ci : CredentialInjector)
  : result (list (string * string)) * CredentialInjector :=
  _load_secrets sops file ci.

Definition get_secret (sops : string -> result (list (string * string)))
    (file key : string) (ci : CredentialInjector)
  : result (option string) * CredentialInjector :=
  match _load_secrets sops file ci with
  | (Ok secrets, ci') => (Ok (assoc key secrets), ci')
  | (Raise e, ci') => (Raise e, ci')
  end.

End Credentials.

(** ** executor.py *)

Module Executor.
Import Py.

(** A request as the wire protocol types it: each field a handler reads
    is absent ([None]) or present with its value. *)
Record Message : Type := mkMessage {
  m_type : option string;
  m_action : option string;
  m_params : option json;
  m_request_id : option string;
  m_approval_id : option string;
  m_approved : option bool;
  m_reason : option string;
  m_details : option string;
  m_triggered_by : option string;
  m_source : option string;
  m_content : option json
}.

Definition empty_message : Message :=
  mkMessage None None None None None None None None None None None.

(** A response dictionary, keys in insertion order. *)
Definition Response : Type := list (string * json).

Definition field (k : string) (r : Response) : option json := assoc k r.

Inductive Handler : Type :=
| h_ping
| h_capability_request
| h_capability_execute
| h_content_sanitized
| h_approval_response
| h_list_actions
| h_kill
| h_status.

Record PendingApproval : Type := mkPendingApproval {
  pa_action : string;
  pa_params : json;
  pa_request_id : string;
  pa_created_at : string
}.

(** The attributes of a [ZoneExecutor].  [handlers] is [None] while the
    object has no attribute of that name; [listening] tells whether the
    server socket is open. *)
Record ZoneExecutor : Type := mkZoneExecutor {
  running : bool;
  listening : bool;
  policy : Policy.PolicyEngine;
  credentials : Credentials.CredentialInjector;
  kill_switch : KillSwitch.KillSwitch;
  anomaly_detector : AnomalyDetector.AnomalyDetector;
  pending_approvals : gmap string PendingApproval;
  handlers : option (list (string * Handler))
}.

Definition set_policy (p : Policy.PolicyEngine) (st : ZoneExecutor) :=
  mkZoneExecutor (running st) (listening st) p (credentials st) (kill_switch st)
    (anomaly_detector st) (pending_approvals st) (handlers st).

Definition set_credentials (c : Credentials.CredentialInjector) (st : ZoneExecutor) :=
  mkZoneExecutor (running st) (listening st) (policy st) c (kill_switch st)
    (anomaly_detector st) (pending_approvals st) (handlers st).

Definition set_kill_switch (k : KillSwitch.KillSwitch) (st : ZoneExecutor) :=
  mkZoneExecutor (running st) (listening st) (policy st) (credentials st) k
    (anomaly_detector st) (pending_approvals st) (handlers st).

Definition set_anomaly_detector (a : AnomalyDetector.AnomalyDetector) (st : ZoneExecutor) :=
  mkZoneExecutor (running st) (listening st) (policy st) (credentials st)
    (kill_switch st) a (pending_approvals st) (handlers st).

Definition set_pending_approvals (p : gmap string PendingApproval) (st : ZoneExecutor) :=
  mkZoneExecutor (running st) (listening st) (policy st) (credentials st)
    (kill_switch st) (anomaly_detector st) p (handlers st).

(** [__init__]: no [handlers] attribute is assigned. *)
Definition new (kill_file : option string) : ZoneExecutor :=
  mkZoneExecutor false false Policy.new (Credentials.mkCredentialInjector ∅)
    (KillSwitch.new kill_file) AnomalyDetector.new ∅ None.

Definition handler_table : list (string * Handler) :=
  [ ("ping", h_ping);
    ("capability_request", h_capability_request);
    ("capability_execute", h_capability_execute);
    ("content_sanitized", h_content_sanitized);
    ("approval_response", h_approval_response);
    ("list_actions", h_list_actions);
    ("kill", h_kill);
    ("status", h_status) ].

(** [_on_kill]: after the log line, assigns [self.handlers]. *)
Definition _on_kill (event : KillSwitch.KillEvent) (st : ZoneExecutor) : ZoneExecutor :=
  mkZoneExecutor (running st) (listening st) (policy st) (credentials st)
    (kill_switch st) (anomaly_detector st) (pending_approvals st)
    (Some handler_table).

(** [stop()] on thread [who]: [running] is cleared and the kill switch
    stopped; when that raises, the server socket is not closed. *)
Definition stop (who : KillSwitch.Caller) (st : ZoneExecutor)
  : result unit * ZoneExecutor :=
  let '(joined, ks) := KillSwitch.stop who (kill_switch st) in
  match joined with
  | Raise e =>
      (Raise e,
       mkZoneExecutor false (listening st) (policy st) (credentials st) ks
         (anomaly_detector st) (pending_approvals st) (handlers st))
  | Ok _ =>
      (Ok tt,
       mkZoneExecutor false false (policy st) (credentials st) ks
         (anomaly_detector st) (pending_approvals st) (handlers st))
  end.

(** [start] up to the accept loop. *)
Definition start (st : ZoneExecutor) : ZoneExecutor :=
  mkZoneExecutor true true (policy st) (credentials st) (kill_switch st)
    (anomaly_detector st) (pending_approvals st) (handlers st).

(** [KillSwitch(on_kill=lambda e: self._on_kill(e))] and
    [register_shutdown_callback(self.stop)], as they run when [trigger]
    is called on thread [who]; what [stop] raises is swallowed by
    [_execute_shutdown]. *)
Definition wiring_on (who : KillSwitch.Caller) : KillSwitch.Wiring ZoneExecutor :=
  KillSwitch.mkWiring ZoneExecutor kill_switch set_kill_switch (Some _on_kill)
    [fun st => snd (stop who st)].

(** The wiring for the request handlers, which run on the thread of the
    accept loop and not on a watcher's. *)
Definition wiring : KillSwitch.Wiring ZoneExecutor := wiring_on KillSwitch.Elsewhere.

(** [self.anomaly_detector.record_action(action)] on the executor. *)
Definition record_action (action : string) (now : Q) (utc_now : string)
    (st : ZoneExecutor) : bool * ZoneExecutor :=
  AnomalyDetector.record_action wiring anomaly_detector set_anomaly_detector
    action now utc_now st.

Definition record_action_io (action : string) (now : Q) (utc_now : string)
    (st : ZoneExecutor) : bool * ZoneExecutor * list KillSwitch.FileWrite :=
  AnomalyDetector.record_action_io wiring anomaly_detector set_anomaly_detector
    action now utc_now st.

(** What the outside world answers during one request. *)
Record Env : Type := mkEnv {
  sops : string -> result (list (string * string));
  integration : string -> json -> list (string * string) -> result json
}.

(** The clock readings one request takes: [time.time()], the
    [isoformat()] of [datetime.now(timezone.utc)], and
    [datetime.now().strftime('%Y%m%d%H%M%S')]. *)
Record Clock : Type := mkClock {
  time_time : Q;
  utc_iso : string;
  local_stamp : string
}.

Definition provider_actions : list string :=
  [ "read_email"; "send_email"; "read_telegram"; "send_telegram";
    "read_slack"; "send_slack"; "make_call"; "send_sms" ].

Definition is_provider_action (action : string) : bool :=
  existsb (String.eqb action) provider_actions.

Section Handlers.
Variable env : Env.
Variable clk : Clock.

Definition handle_ping (m : Message) (st : ZoneExecutor) : result Response * ZoneExecutor :=
  (Ok [ ("type", JStr "pong");
        ("timestamp", JStr (utc_iso clk));
        ("server", JStr "zone1-executor");
        ("version", JStr "1.0.0") ],
   st).

Definition opt_json (o : option string) : json :=
  match o with
  | Some s => JStr s
  | None => JNull
  end.

Definition approval_id_for (action : string) : string :=
  "approval_" ++ local_stamp clk ++ "_" ++ action.

Definition handle_capability_request (m : Message) (st : ZoneExecutor)
  : result Response * ZoneExecutor :=
  let action := default "" (m_action m) in
  let params := default (JObj []) (m_params m) in
  let request_id := default "" (m_request_id m) in
  match Policy.check_action action params (policy st) with
  | None => (Raise (Exn "ValueError" "invalid literal for int()"), st)
  | Some (Policy.Denied error message, pe) =>
      (Ok [ ("type", JStr "capability_response");
            ("request_id", JStr request_id);
            ("status", JStr "denied");
            ("error", JStr error);
            ("message", JStr message) ],
       set_policy pe st)
  | Some (Policy.Allowed true _ _, pe) =>
      let approval_id := approval_id_for action in
      let entry := mkPendingApproval action params request_id (utc_iso clk) in
      (Ok [ ("type", JStr "capability_response");
            ("request_id", JStr request_id);
            ("status", JStr "pending_approval");
            ("approval_id", JStr approval_id);
            ("message", JStr ("Action '" ++ action ++ "' requires approval")) ],
       set_pending_approvals (<[approval_id := entry]> (pending_approvals st))
         (set_policy pe st))
  | Some (Policy.Allowed false _ _, pe) =>
      (Ok [ ("type", JStr "capability_response");
            ("request_id", JStr request_id);
            ("status", JStr "approved");
            ("message", JStr ("Action '" ++ action ++ "' is allowed without approval")) ],
       set_policy pe st)
  end.

(** [_execute_action]: the two guards, the log line, for which
    [list(params.keys())] is evaluated, then the provider call, or the
    built-in answer for any other action. *)
Definition _execute_action (action : string) (params : json)
    (creds : list (string * string)) (st : ZoneExecutor)
  : result json * ZoneExecutor :=
  if KillSwitch.is_killed (kill_switch st) then
    (Raise (Exn "RuntimeError" "System is in killed state - all actions blocked"), st)
  else
    let '(ok, st1) := record_action action (time_time clk) (utc_iso clk) st in
    if negb ok then
      (Raise (Exn "RuntimeError" "Action blocked by anomaly detector"), st1)
    else
      match keys params with
      | Raise e => (Raise e, st1)
      | Ok _ =>
          if is_provider_action action then
            (integration env action params creds, st1)
          else
            (Ok (JObj [ ("executed", JBool true);
                        ("action", JStr action);
                        ("timestamp", JStr (utc_iso clk)) ]),
             st1)
      end.

(** Truth value of [message.get("approval_id")]. *)
Definition truthy (approval_id : option string) : bool :=
  match approval_id with
  | Some s => negb (String.eqb s "")
  | None => false
  end.

Definition is_pending (approval_id : option string) (st : ZoneExecutor) : bool :=
  match approval_id with
  | Some s => bool_decide (is_Some (pending_approvals st !! s))
  | None => false
  end.

Definition invalid_approval : Response :=
  [ ("type", JStr "execute_response");
    ("status", JStr "error");
    ("message", JStr "Invalid or expired approval ID") ].

Definition execute_error (action message : string) : Response :=
  [ ("type", JStr "execute_response");
    ("status", JStr "error");
    ("action", JStr action);
    ("message", JStr message) ].

Definition execute_success (action : string) (r : json) : Response :=
  [ ("type", JStr "execute_response");
    ("status", JStr "success");
    ("action", JStr action);
    ("result", r) ].

Definition handle_capability_execute (m : Message) (st : ZoneExecutor)
  : result Response * ZoneExecutor :=
  let action := default "" (m_action m) in
  let params := default (JObj []) (m_params m) in
  let approval_id := m_approval_id m in
  if truthy approval_id && negb (is_pending approval_id st) then
    (Ok invalid_approval, st)
  else
    let '(cr, ci) := Credentials.inject_for_action (sops env) action (credentials st) in
    let st1 := set_credentials ci st in
    match cr with
    | Raise e => (Ok (execute_error action (exn_str e)), st1)
    | Ok creds =>
        match _execute_action action params creds st1 with
        | (Raise e, st2) => (Ok (execute_error action (exn_str e)), st2)
        | (Ok r, st2) =>
            if truthy approval_id then
              let id := default "" approval_id in
              match pending_approvals st2 !! id with
              | Some _ =>
                  (Ok (execute_success action r),
                   set_pending_approvals (delete id (pending_approvals st2)) st2)
              | None =>
                  (Ok (execute_error action ("'" ++ id ++ "'")), st2)
              end
            else (Ok (execute_success action r), st2)
        end
    end.

(** [_execute_action] and [handle_capability_execute] with the files
    their own code writes, in the order of the writes.  Loading the
    credentials runs [sops], which prints the decrypted document, and a
    provider call goes to its integration: both are the outside world's
    and write nothing here; the log lines go to the process logger on
    standard output. *)
Definition _execute_action_io (action : string) (params : json)
    (creds : list (string * string)) (st : ZoneExecutor)
  : result json * ZoneExecutor * list KillSwitch.FileWrite :=
  if KillSwitch.is_killed (kill_switch st) then
    (Raise (Exn "RuntimeError" "System is in killed state - all actions blocked"),
     st, [])
  else
    let '(ok, st1, written) :=
      record_action_io action (time_time clk) (utc_iso clk) st in
    if negb ok then
      (Raise (Exn "RuntimeError" "Action blocked by anomaly detector"), st1, written)
    else
      match keys params with
      | Raise e => (Raise e, st1, written)
      | Ok _ =>
          if is_provider_action action then
            (integration env action params creds, st1, written)
          else
            (Ok (JObj [ ("executed", JBool true);
                        ("action", JStr action);
                        ("timestamp", JStr (utc_iso clk)) ]),
             st1, written)
      end.

Definition handle_capability_execute_io (m : Message) (st : ZoneExecutor)
  : result Response * ZoneExecutor * list KillSwitch.FileWrite :=
  let action := default "" (m_action m) in
  let params := default (JObj []) (m_params m) in
  let approval_id := m_approval_id m in
  if truthy approval_id && negb (is_pending approval_id st) then
    (Ok invalid_approval, st, [])
  else
    let '(cr, ci) := Credentials.inject_for_action (sops env) action (credentials st) in
    let st1 := set_credentials ci st in
    match cr with
    | Raise e => (Ok (execute_error action (exn_str e)), st1, [])
    | Ok creds =>
        match _execute_action_io action params creds st1 with
        | (Raise e, st2, written) => (Ok (execute_error action (exn_str e)), st2, written)
        | (Ok r, st2, written) =>
            if truthy approval_id then
              let id := default "" approval_id in
              match pending_approvals st2 !! id with
              | Some _ =>
                  (Ok (execute_success action r),
                   set_pending_approvals (delete id (pending_approvals st2)) st2,
                   written)
              | None =>
                  (Ok (execute_error action ("'" ++ id ++ "'")), st2, written)
              end
            else (Ok (execute_success action r), st2, written)
        end
    end.

Definition handle_content_sanitized (m : Message) (st : ZoneExecutor)
  : result Response * ZoneExecutor :=
  (Ok [ ("type", JStr "content_received");
        ("source", JStr (default "" (m_source m)));
        ("status", JStr "acknowledged");
        ("timestamp", JStr (utc_iso clk)) ],
   st).

Definition handle_approval_response (m : Message) (st : ZoneExecutor)
  : result Response * ZoneExecutor :=
  let approval_id := default "" (m_approval_id m) in
  let approved := default false (m_approved m) in
  match pending_approvals st !! approval_id with
  | None =>
      (Ok [ ("type", JStr "approval_result");
            ("status", JStr "error");
            ("message", JStr "Unknown approval ID") ],
       st)
  | Some pending =>
      if approved then
        match handle_capability_execute
                (mkMessage None (Some (pa_action pending)) (Some (pa_params pending))
                   None (Some approval_id) None None None None None None) st with
        | (Ok r, st') =>
            (Ok [ ("type", JStr "approval_result");
                  ("status", JStr "executed");
                  ("result", JObj r) ],
             st')
        | (Raise e, st') => (Raise e, st')
        end
      else
        (Ok [ ("type", JStr "approval_result");
              ("status", JStr "rejected");
              ("message", JStr "Approval was denied") ],
         set_pending_approvals (delete approval_id (pending_approvals st)) st)
  end.

Definition handle_list_actions (m : Message) (st : ZoneExecutor)
  : result Response * ZoneExecutor :=
  (Ok [ ("type", JStr "actions_list");
        ("actions",
         JObj (List.map
                 (fun '(name, p) =>
                    (name,
                     JObj [ ("requires_approval",
                             JStr (Policy.ApprovalLevel_value (Policy.requires_approval p)));
                            ("rate_limit", JStr (Policy.rate_limit p));
                            ("description", JStr (Policy.description p)) ]))
                 Policy.ALLOWED_ACTIONS)) ],
   st).

(** [KillReason.MANUAL if reason == "manual" else KillReason.SECURITY_BREACH]. *)
Definition kill_reason_of (reason : string) : KillSwitch.KillReason :=
  if String.eqb reason "manual" then KillSwitch.MANUAL
  else KillSwitch.SECURITY_BREACH.

Definition handle_kill (m : Message) (st : ZoneExecutor)
  : result Response * ZoneExecutor :=
  let reason := default "manual" (m_reason m) in
  let details := default "Kill command received" (m_details m) in
  let triggered_by := default "remote" (m_triggered_by m) in
  match KillSwitch.trigger wiring (kill_reason_of reason) details triggered_by
          (utc_iso clk) st with
  | (Some event, st') =>
      (Ok [ ("type", JStr "kill_response");
            ("status", JStr "killed");
            ("timestamp", JStr (KillSwitch.timestamp event));
            ("reason", JStr (KillSwitch.KillReason_value (KillSwitch.reason event))) ],
       st')
  | (None, st') =>
      (Raise (Exn "AttributeError" "'NoneType' object has no attribute 'timestamp'"),
       st')
  end.

Definition get_status (ks : KillSwitch.KillSwitch) : json :=
  JObj [ ("active", JBool (KillSwitch._active ks));
         ("killed", JBool (KillSwitch._killed ks));
         ("kill_event",
          match KillSwitch._kill_event ks with
          | Some e =>
              JObj [ ("timestamp", JStr (KillSwitch.timestamp e));
                     ("reason", JStr (KillSwitch.KillReason_value (KillSwitch.reason e)));
                     ("details", JStr (KillSwitch.details e));
                     ("triggered_by", JStr (KillSwitch.triggered_by e)) ]
          | None => JNull
          end) ].

Definition handle_status (m : Message) (st : ZoneExecutor)
  : result Response * ZoneExecutor :=
  (Ok [ ("type", JStr "status_response");
        ("running", JBool (running st));
        ("kill_switch", get_status (kill_switch st));
        ("pending_approvals", JNum (Z.of_nat (size (pending_approvals st))));
        ("timestamp", JStr (utc_iso clk)) ],
   st).

Definition _handle_unknown (m : Message) (st : ZoneExecutor)
  : result Response * ZoneExecutor :=
  (Ok [ ("type", JStr "error");
        ("message", JStr ("Unknown message type: " ++ default "" (m_type m))) ],
   st).

Definition call (h : Handler) : Message -> ZoneExecutor -> result Response * ZoneExecutor :=
  match h with
  | h_ping => handle_ping
  | h_capability_request => handle_capability_request
  | h_capability_execute => handle_capability_execute
  | h_content_sanitized => handle_content_sanitized
  | h_approval_response => handle_approval_response
  | h_list_actions => handle_list_actions
  | h_kill => handle_kill
  | h_status => handle_status
  end.

(** What [conn.recv] collected: nothing, bytes that are not JSON, or a
    JSON object. *)
Inductive Wire : Type :=
| NoData
| BadJson
| Doc (m : Message).

Definition error_reply (message : string) : Response :=
  [ ("type", JStr "error"); ("message", JStr message) ].

(** [_handle_connection]: the response sent on the connection, if any. *)
Definition _handle_connection (data : Wire) (st : ZoneExecutor)
  : option Response * ZoneExecutor :=
  match data with
  | NoData => (None, st)
  | BadJson => (Some (error_reply "Invalid JSON"), st)
  | Doc message =>
      let msg_type := default "" (m_type message) in
      match handlers st with
      | None =>
          (Some (error_reply "'ZoneExecutor' object has no attribute 'handlers'"), st)
      | Some table =>
          let handler :=
            match assoc msg_type table with
            | Some h => call h
            | None => _handle_unknown
            end in
          match handler message st with
          | (Ok response, st') => (Some response, st')
          | (Raise e, st') => (Some (error_reply (exn_str e)), st')
          end
      end
  end.
End Handlers.

Definition message_of (r : Response) : string :=
  match field "message" r with
  | Some (JStr s) => s
  | _ => ""
  end.

Definition mentions_killed (r : Response) : bool :=
  contains "killed" (lower (message_of r)).

(** What an action gives once both guards of [_execute_action] are
    passed: parameters that are not a dictionary fail with the
    [AttributeError] of [keys]; a provider action gives what its
    integration gives; any other action is answered by the executor
    itself. *)
Definition outcome (env : Env) (clk : Clock) (action : string) (params : json)
    (creds : list (string * string)) : result json :=
  match params with
  | JObj _ =>
      if is_provider_action action then integration env action params creds
      else Ok (JObj [ ("executed", JBool true);
                      ("action", JStr action);
                      ("timestamp", JStr (utc_iso clk)) ])
  | JNull => Raise (Exn "AttributeError" "'NoneType' object has no attribute 'keys'")
  | JBool _ => Raise (Exn "AttributeError" "'bool' object has no attribute 'keys'")
  | JNum _ => Raise (Exn "AttributeError" "'int' object has no attribute 'keys'")
  | JStr _ => Raise (Exn "AttributeError" "'str' object has no attribute 'keys'")
  | JArr _ => Raise (Exn "AttributeError" "'list' object has no attribute 'keys'")
  end.


(** [record_action] called once per clock reading, in order. *)
Fixpoint record_all (action : string) (ticks : list (Q * string)) (st : ZoneExecutor)
  : list bool * ZoneExecutor :=
  match ticks with
  | [] => ([], st)
  | (now, utc_now) :: rest =>
      let '(ok, st1) := record_action action now utc_now st in
      let '(oks, st2) := record_all action rest st1 in
      (ok :: oks, st2)
  end.

(** [self.kill_switch.reset(authorized_by)] on the executor. *)
Definition reset_kill_switch (authorized_by : string) (st : ZoneExecutor)
  : bool * ZoneExecutor :=
  KillSwitch.reset_in wiring authorized_by st.

(** The accept loop of [start]: while [running], one connection after
    the other is handled; each comes with what the outside world answers
    and the clock shows while it is served. *)
Fixpoint accept_loop (conns : list (Env * Clock * Wire)) (st : ZoneExecutor)
  : list (option Response) * ZoneExecutor :=
  match conns with
  | [] => ([], st)
  | (env, clk, data) :: rest =>
      if running st then
        let '(reply, st1) := _handle_connection env clk data st in
        let '(replies, st2) := accept_loop rest st1 in
        (reply :: replies, st2)
      else ([], st)
  end.

(** The message [handle_approval_response] passes on to the execute
    handler. *)
Definition approved_execute (approval_id : string) (pending : PendingApproval)
  : Message :=
  mkMessage None (Some (pa_action pending)) (Some (pa_params pending))
    None (Some approval_id) None None None None None None.

End Executor.

(** ** audit.py *)

Module Audit.
Import Py.

Inductive AuditEventType : Type :=
| ACTION_REQUESTED
| ACTION_APPROVED
| ACTION_REJECTED
| ACTION_EXECUTED
| ACTION_FAILED
| POLICY_DENIED
| KILL_SWITCH_TRIGGERED
| ANOMALY_DETECTED
| CONTENT_SANITIZED
| INJECTION_DETECTED
| AUTH_ATTEMPT
| CONFIG_CHANGED
| SYSTEM_START
| SYSTEM_STOP.

Definition AuditEventType_value (t : AuditEventType) : string :=
  match t with
  | ACTION_REQUESTED => "action_requested"
  | ACTION_APPROVED => "action_approved"
  | ACTION_REJECTED => "action_rejected"
  | ACTION_EXECUTED => "action_executed"
  | ACTION_FAILED => "action_failed"
  | POLICY_DENIED => "policy_denied"
  | KILL_SWITCH_TRIGGERED => "kill_switch_triggered"
  | ANOMALY_DETECTED => "anomaly_detected"
  | CONTENT_SANITIZED => "content_sanitized"
  | INJECTION_DETECTED => "injection_detected"
  | AUTH_ATTEMPT => "auth_attempt"
  | CONFIG_CHANGED => "config_changed"
  | SYSTEM_START => "system_start"
  | SYSTEM_STOP => "system_stop"
  end.

Record AuditEvent : Type := mkAuditEvent {
  timestamp : string;
  event_type : string;
  action : option string;
  actor : string;
  source_zone : string;
  details : json;
  request_id : option string;
  previous_hash : string;
  event_hash : string
}.

Definition with_details (d : json) (e : AuditEvent) : AuditEvent :=
  mkAuditEvent (timestamp e) (event_type e) (action e) (actor e) (source_zone e)
    d (request_id e) (previous_hash e) (event_hash e).

(** One line of a log file as [json.loads(line.strip())] sees it: an
    event document carrying the nine fields with the types [AuditEvent]
    declares, or text that is not JSON, with the decoder's message. *)
Inductive Line : Type :=
| EventLine (e : AuditEvent)
| BadLine (raw : string) (decode_error : string).

(** The [audit-*.jsonl] files of [log_dir] by file name, in the order
    [sorted(log_dir.glob(...))] lists them, each with its lines. *)
Definition LogFiles : Type := list (string * list Line).

(** [audit-chain.json]: absent, unreadable or without [last_hash]
    ([Some None]), or holding a hash. *)
Definition ChainFile : Type := option (option string).

Record AuditLogger : Type := mkAuditLogger {
  files : LogFiles;
  chain_file : ChainFile;
  _previous_hash : string
}.

Definition _load_chain_state (cf : ChainFile) : string :=
  match cf with
  | Some (Some h) => h
  | _ => "GENESIS"
  end.

(** [AuditLogger(log_dir)] over the directory's present contents. *)
Definition new (fs : LogFiles) (cf : ChainFile) : AuditLogger :=
  mkAuditLogger fs cf (_load_chain_state cf).

Definition _get_log_file (date_str : string) : string :=
  "audit-" ++ date_str ++ ".jsonl".

(** [CHAIN_FILE], and what names the files an [AuditLogger] writes in its
    directory: the log of a day and the chain state. *)
Definition CHAIN_FILE : string := "audit-chain.json".

Definition audit_file_name (name : string) : Prop :=
  name = CHAIN_FILE \/ exists date_str, name = _get_log_file date_str.

Definition opt_json (o : option string) : json :=
  match o with
  | Some s => JStr s
  | None => JNull
  end.

(** Python's truth value of a JSON document: [None], [False], [0], the
    empty string, the empty list and the empty dictionary are false. *)
Definition falsy (j : json) : bool :=
  match j with
  | JNull | JBool false | JNum Z0 | JStr EmptyString | JArr [] | JObj [] => true
  | _ => false
  end.

(** [details or {}]. *)
Definition details_or_empty (d : option json) : json :=
  match d with
  | None => JObj []
  | Some v => if falsy v then JObj [] else v
  end.

(** The dictionary the hash is taken over: the seven fields that are not
    hashes. *)
Definition event_data (e : AuditEvent) : json :=
  JObj [ ("timestamp", JStr (timestamp e));
         ("event_type", JStr (event_type e));
         ("action", opt_json (action e));
         ("actor", JStr (actor e));
         ("source_zone", JStr (source_zone e));
         ("details", details e);
         ("request_id", opt_json (request_id e)) ].

(** [open(log_file, "a")] and one [write]: the line goes to the end of
    the named file, which is created in name order when missing. *)
Fixpoint append_line (name : string) (l : Line) (fs : LogFiles) : LogFiles :=
  match fs with
  | [] => [(name, [l])]
  | (n, ls) :: rest =>
      match String.compare name n with
      | Eq => (n, ls ++ [l]) :: rest
      | Lt => (name, [l]) :: (n, ls) :: rest
      | Gt => (n, ls) :: append_line name l rest
      end
  end.

(** The arguments of one [log] call and the clock readings it takes: the
    event timestamp and the [%Y-%m-%d] date that names the file. *)
Record LogCall : Type := mkLogCall {
  c_event_type : AuditEventType;
  c_action : option string;
  c_actor : string;
  c_source_zone : string;
  c_details : option json;
  c_request_id : option string;
  c_timestamp : string;
  c_date : string
}.

Definition file_le (a b : string) : bool :=
  match String.compare a b with
  | Gt => false
  | _ => true
  end.

(** The dated file names of a run never go back. *)
Fixpoint dates_ascend (names : list string) : bool :=
  match names with
  | [] => true
  | a :: rest =>
      match rest with
      | [] => true
      | b :: _ => file_le a b && dates_ascend rest
      end
  end.

Definition lines_of (fs : LogFiles) : list Line := concat (List.map snd fs).

(** The hash a chain has reached after the events [es], from [prev]. *)
Definition tip (prev : string) (es : list AuditEvent) : string :=
  fold_left (fun _ e => event_hash e) es prev.

Definition names (fs : LogFiles) : list string := List.map fst fs.

Definition name_lt (a b : string) : Prop := String.compare a b = Lt.

(** File names strictly ascend, as a directory listing in name order has
    them. *)
Definition ordered (fs : LogFiles) : Prop := StronglySorted name_lt (names fs).

(** No file of the directory is named after [name]. *)
Definition below (name : string) (fs : LogFiles) : Prop :=
  Forall (fun n => file_le n name = true) (names fs).

Section Hashing.
(** [hashlib.sha256(s.encode()).hexdigest()] and
    [json.dumps(obj, sort_keys=True)]. *)
Variable sha256_hex : string -> string.
Variable dumps_sorted : json -> string.

Definition _compute_hash (data : json) (prev : string) : string :=
  sha256_hex (dumps_sorted data ++ prev).

Definition log (c : LogCall) (lg : AuditLogger) : AuditEvent * AuditLogger :=
  let prev := _previous_hash lg in
  let unhashed :=
    mkAuditEvent (c_timestamp c) (AuditEventType_value (c_event_type c))
      (c_action c) (c_actor c) (c_source_zone c)
      (details_or_empty (c_details c)) (c_request_id c) prev "" in
  let h := _compute_hash (event_data unhashed) prev in
  let event :=
    mkAuditEvent (c_timestamp c) (AuditEventType_value (c_event_type c))
      (c_action c) (c_actor c) (c_source_zone c)
      (details_or_empty (c_details c)) (c_request_id c) prev h in
  (event,
   mkAuditLogger (append_line (_get_log_file (c_date c)) (EventLine event) (files lg))
     (Some (Some h)) h).

(** The three messages [verify_chain] appends to [errors]. *)
Definition invalid_json_error (fname : string) (line_num : nat) (msg : string)
  : string :=
  (fname ++ ":" ++ str_of_nat line_num ++ ": Invalid JSON - " ++ msg)%string.

Definition chain_broken_error (fname : string) (line_num : nat)
    (expected got : string) : string :=
  (fname ++ ":" ++ str_of_nat line_num ++ ": Chain broken - expected "
     ++ take 8 expected ++ "..., got " ++ take 8 got ++ "...")%string.

Definition hash_mismatch_error (fname : string) (line_num : nat) : string :=
  (fname ++ ":" ++ str_of_nat line_num
     ++ ": Hash mismatch - event may have been tampered")%string.

(** The body of the loop over the lines of one file. *)
Definition verify_line (fname : string) (line_num : nat) (l : Line)
    (acc : string * list string) : string * list string :=
  let '(prev, errors) := acc in
  match l with
  | BadLine _ msg => (prev, errors ++ [invalid_json_error fname line_num msg])
  | EventLine e =>
      let errors1 :=
        if String.eqb (previous_hash e) prev then errors
        else errors ++ [chain_broken_error fname line_num prev (previous_hash e)] in
      let computed_hash := _compute_hash (event_data e) (previous_hash e) in
      let errors2 :=
        if String.eqb computed_hash (event_hash e) then errors1
        else errors1 ++ [hash_mismatch_error fname line_num] in
      (event_hash e, errors2)
  end.

(** [for line_num, line in enumerate(fp, 1)]. *)
Fixpoint verify_lines (fname : string) (line_num : nat) (ls : list Line)
    (acc : string * list string) : string * list string :=
  match ls with
  | [] => acc
  | l :: rest => verify_lines fname (S line_num) rest (verify_line fname line_num l acc)
  end.

(** [for f in files]. *)
Fixpoint verify_files (fs : LogFiles) (acc : string * list string)
  : string * list string :=
  match fs with
  | [] => acc
  | (fname, ls) :: rest => verify_files rest (verify_lines fname 1 ls acc)
  end.

(** [verify_chain(log_file)]: with a file name only that file is read
    ([FileNotFoundError] when it does not exist), otherwise every log
    file in name order. *)
Definition verify_chain (log_file : option string) (lg : AuditLogger)
  : result (bool * list string) :=
  let selected :=
    match log_file with
    | None => Ok (files lg)
    | Some name =>
        match assoc name (files lg) with
        | Some ls => Ok [(name, ls)]
        | None => Raise (Exn "FileNotFoundError" name)
        end
    end in
  match selected with
  | Raise e => Raise e
  | Ok fs =>
      let '(_, errors) := verify_files fs ("GENESIS", []) in
      Ok (bool_decide (length errors = 0%nat), errors)
  end.

(** [events] is the list of events a run of [log] calls returns. *)
Fixpoint log_all (calls : list LogCall) (lg : AuditLogger)
  : list AuditEvent * AuditLogger :=
  match calls with
  | [] => ([], lg)
  | c :: rest =>
      let '(e, lg1) := log c lg in
      let '(es, lg2) := log_all rest lg1 in
      (e :: es, lg2)
  end.

(** Each event hashes its own seven fields with the hash before it. *)
Fixpoint chained (prev : string) (es : list AuditEvent) : Prop :=
  match es with
  | [] => True
  | e :: rest =>
      previous_hash e = prev /\
      event_hash e = _compute_hash (event_data e) prev /\
      chained (event_hash e) rest
  end.

(** What a logger holds after a run: its files list the events of a chain
    from [GENESIS] whose tip it remembers. *)
Definition sound (lg : AuditLogger) (es : list AuditEvent) (last : string) : Prop :=
  lines_of (files lg) = List.map EventLine es /\
  chained "GENESIS" es /\
  _previous_hash lg = tip "GENESIS" es /\
  ordered (files lg) /\
  below last (files lg).

(** The counting loops of [get_stats]: [by_type] and [total_events]. *)
Fixpoint stats_lines (ls : list Line) (acc : gmap string nat * nat)
  : gmap string nat * nat :=
  match ls with
  | [] => acc
  | EventLine e :: rest =>
      let '(stats, total) := acc in
      stats_lines rest
        (<[event_type e := (default 0%nat (stats !! event_type e) + 1)%nat]> stats,
         (total + 1)%nat)
  | BadLine _ _ :: rest => stats_lines rest acc
  end.

Fixpoint stats_files (fs : LogFiles) (acc : gmap string nat * nat)
  : gmap string nat * nat :=
  match fs with
  | [] => acc
  | (_, ls) :: rest => stats_files rest (stats_lines ls acc)
  end.

(** [get_stats()]: [total_events], [by_type] and [chain_valid]. *)
Definition get_stats (lg : AuditLogger) : result (nat * gmap string nat * bool) :=
  let '(stats, total) := stats_files (files lg) (∅, 0%nat) in
  match verify_chain None lg with
  | Ok (valid, _) => Ok (total, stats, valid)
  | Raise e => Raise e
  end.

End Hashing.

End Audit.

(** ** canary.py *)

Module Canary.
Import Py.

Inductive CanaryType : Type :=
| CREDENTIAL
| FILE
| API_KEY
| URL
| DNS
| PROMPT.

Record CanaryToken : Type := mkCanaryToken {
  token_id : string;
  token_type : CanaryType;
  value : string;
  description : string;
  created_at : string;
  triggered : bool;
  trigger_count : nat;
  last_triggered : option string
}.

Record CanaryTrigger : Type := mkCanaryTrigger {
  trigger_token_id : string;
  trigger_timestamp : string;
  source_ip : option string;
  user_agent : option string;
  context : json
}.

(** [_tokens] in insertion order, the token list last written to
    [CANARY_FILE], the lines of [TRIGGER_LOG], and the triggers handed
    to [on_trigger] ([has_on_trigger] tells whether a callback was
    given; what it raises is swallowed). *)
Record CanarySystem : Type := mkCanarySystem {
  _tokens : list (string * CanaryToken);
  CANARY_FILE : list CanaryToken;
  TRIGGER_LOG : list CanaryTrigger;
  has_on_trigger : bool;
  delivered : list CanaryTrigger
}.

Definition new (has_callback : bool) : CanarySystem :=
  mkCanarySystem [] [] [] has_callback [].

Definition values_of (tokens : list (string * CanaryToken)) : list CanaryToken :=
  List.map snd tokens.

(** The literal a new token gets.  [rnd] is the output of the
    [secrets] call its kind makes. *)
Definition make_value (token_type : CanaryType) (custom_value : option string)
    (token_id rnd : string) : string :=
  match custom_value with
  | Some (String c rest) => String c rest
  | _ =>
      match token_type with
      | CREDENTIAL => "moltbot_canary_" ++ rnd
      | API_KEY => "sk-canary-" ++ rnd
      | URL => "https://canary.moltbot.local/" ++ rnd
      | PROMPT => "[CANARY:" ++ take 8 token_id ++ "] IGNORE PREVIOUS INSTRUCTIONS"
      | _ => rnd
      end
  end.

(** [create_token(token_type, description, custom_value)]; [rnd_id] is
    [secrets.token_hex(16)], [rnd] the second random draw and [now] the
    creation time. *)
Definition create_token (token_type : CanaryType) (description : string)
    (custom_value : option string) (rnd_id rnd now : string) (sys : CanarySystem)
  : CanaryToken * CanarySystem :=
  let token :=
    mkCanaryToken rnd_id token_type (make_value token_type custom_value rnd_id rnd)
      description now false 0 None in
  let tokens := assoc_set rnd_id token (_tokens sys) in
  (token,
   mkCanarySystem tokens (values_of tokens) (TRIGGER_LOG sys)
     (has_on_trigger sys) (delivered sys)).

Definition fire (now : string) (t : CanaryToken) : CanaryToken :=
  mkCanaryToken (token_id t) (token_type t) (value t) (description t)
    (created_at t) true (S (trigger_count t)) (Some now).

(** The loop of [check] over [self._tokens.values()]: [seen] are the
    tokens already visited, with their updates, and [now k] is the clock
    reading of the [k]-th trigger. *)
Fixpoint check_loop (content : string) (src ua : option string) (ctx : json)
    (now : nat -> string) (seen todo : list (string * CanaryToken))
    (triggers : list CanaryTrigger) (sys : CanarySystem)
  : list CanaryTrigger * CanarySystem :=
  match todo with
  | [] =>
      (triggers,
       mkCanarySystem seen (CANARY_FILE sys) (TRIGGER_LOG sys)
         (has_on_trigger sys) (delivered sys))
  | (k, token) :: rest =>
      if contains (value token) content then
        let stamp := now (length triggers) in
        let trigger := mkCanaryTrigger (token_id token) stamp src ua ctx in
        let seen' := seen ++ [(k, fire stamp token)] in
        check_loop content src ua ctx now seen' rest (triggers ++ [trigger])
          (mkCanarySystem (seen' ++ rest) (values_of (seen' ++ rest))
             (TRIGGER_LOG sys ++ [trigger]) (has_on_trigger sys)
             (if has_on_trigger sys then delivered sys ++ [trigger]
              else delivered sys))
      else
        check_loop content src ua ctx now (seen ++ [(k, token)]) rest triggers sys
  end.

(** [check(content, source_ip, user_agent, context)]; a missing context
    is the empty dictionary. *)
Definition check (content : string) (src ua : option string) (ctx : option json)
    (now : nat -> string) (sys : CanarySystem)
  : list CanaryTrigger * CanarySystem :=
  check_loop content src ua (default (JObj []) ctx) now [] (_tokens sys) [] sys.

Definition get_token (id : string) (sys : CanarySystem) : option CanaryToken :=
  assoc id (_tokens sys).

(** [inject_prompt_canaries(prompt)]: the augmented prompt, the list of
    new token ids and the registry afterwards. *)
Definition inject_prompt_canaries (prompt : string) (rnd_id now : string)
    (sys : CanarySystem) : string * list string * CanarySystem :=
  let '(token, sys') :=
    create_token PROMPT ("Prompt canary for: " ++ take 50 prompt ++ "...")
      None rnd_id "" now sys in
  ((prompt ++ String "010" (String "010" ("<!-- " ++ value token ++ " -->")))%string,
   [token_id token], sys').

Definition list_tokens (sys : CanarySystem) : list CanaryToken :=
  values_of (_tokens sys).

Fixpoint assoc_del {A : Type} (k : string) (d : list (string * A)) : list (string * A) :=
  match d with
  | [] => []
  | (k', v) :: rest => if String.eqb k k' then rest else (k', v) :: assoc_del k rest
  end.

(** [delete_token(token_id)]. *)
Definition delete_token (id : string) (sys : CanarySystem) : bool * CanarySystem :=
  match assoc id (_tokens sys) with
  | Some _ =>
      let tokens := assoc_del id (_tokens sys) in
      (true,
       mkCanarySystem tokens (values_of tokens) (TRIGGER_LOG sys)
         (has_on_trigger sys) (delivered sys))
  | None => (false, sys)
  end.

(** [get_triggers(limit)] over the trigger log (no file: no lines). *)
Definition get_triggers (limit : Z) (sys : CanarySystem) : list CanaryTrigger :=
  last_slice limit (TRIGGER_LOG sys).

(** The [defaults] of [create_default_canaries]. *)
Definition defaults : list (CanaryType * string * option string) :=
  [ (CREDENTIAL, "Default canary credential", Some "admin_backup_2024");
    (API_KEY, "Fake OpenAI key canary", Some "sk-proj-canary-DO-NOT-USE");
    (CREDENTIAL, "Database password canary", Some "db_readonly_backup_pass");
    (PROMPT, "Injection detection canary", None) ].

(** The loop of [create_default_canaries]; [draw k] gives the two random
    draws and the clock reading of the [k]-th [create_token] call. *)
Fixpoint create_each (ds : list (CanaryType * string * option string))
    (draw : nat -> string * string * string) (k : nat) (sys : CanarySystem)
  : list CanaryToken * CanarySystem :=
  match ds with
  | [] => ([], sys)
  | (token_type, desc, custom_value) :: rest =>
      let '(rnd_id, rnd, now) := draw k in
      let '(token, sys1) := create_token token_type desc custom_value rnd_id rnd now sys in
      let '(created, sys2) := create_each rest draw (S k) sys1 in
      (token :: created, sys2)
  end.

Definition create_default_canaries (draw : nat -> string * string * string)
    (sys : CanarySystem) : list CanaryToken * CanarySystem :=
  create_each defaults draw 0 sys.

End Canary.

(** ** Sample worlds and runs *)

Module Scenario.
Import Py Executor.

(** A world in which every secret decrypts and every provider call
    succeeds, and one clock reading. *)
Definition secrets0 : list (string * string) :=
  [ ("gmail_token", "g-token");
    ("telegram_bot_token", "t-token");
    ("slack_token", "s-token");
    ("twilio_account_sid", "sid");
    ("twilio_auth_token", "auth") ].

Definition env0 : Env :=
  mkEnv (fun _ => Ok secrets0) (fun _ _ _ => Ok (JObj [("ok", JBool true)])).

Definition clk0 : Clock :=
  mkClock 1767225600 "2026-01-01T00:00:00+00:00" "20260101000000".

(** A request of the given type for an action, with an optional
    approval id. *)
Definition request (type action : string) (approval_id : option string) : Message :=
  mkMessage (Some type) (Some action) (Some (JObj [])) (Some "r1") approval_id
    None None None None None None.

(** The same message with other parameters. *)
Definition with_params (params : json) (m : Message) : Message :=
  mkMessage (m_type m) (m_action m) (Some params) (m_request_id m) (m_approval_id m)
    (m_approved m) (m_reason m) (m_details m) (m_triggered_by m) (m_source m)
    (m_content m).

Definition kill_message (reason : string) : Message :=
  mkMessage (Some "kill") None None None None None (Some reason) (Some "test")
    None None None.

(** The executor after [start] and a [kill] request handled by
    [handle_kill]. *)
Definition killed0 : ZoneExecutor :=
  snd (handle_kill clk0 (kill_message "manual") (start (new None))).


(** A world in which every provider call fails. *)
Definition env_down : Env :=
  mkEnv (fun _ => Ok secrets0)
    (fun _ _ _ => Raise (Exn "ConnectionError" "provider unreachable")).

(** Eleven clock readings one second apart. *)
Definition burst_ticks : list (Q * string) :=
  List.map (fun z => (inject_Z z, "2026-01-01T00:00:00+00:00"))
    [1; 2; 3; 4; 5; 6; 7; 8; 9; 10; 11]%Z.

(** The executor after ten [make_call] actions recorded within ten
    seconds, and a clock reading one second later. *)
Definition busy0 : ZoneExecutor :=
  snd (record_all "make_call" (firstn 10 burst_ticks) (start (new None))).

Definition clk11 : Clock := mkClock 11 "2026-01-01T00:00:11+00:00" "20260101000011".

(** The executor after ten [make_call] actions recorded at second 0. *)
Definition full0 : ZoneExecutor :=
  snd (record_all "make_call" (repeat (0%Q, "2026-01-01T00:00:00+00:00") 10)
         (start (new None))).

(** An answer to an approval request. *)
Definition decision (approval_id : string) (approved : bool) : Message :=
  mkMessage (Some "approval_response") None None None (Some approval_id)
    (Some approved) None None None None None.

(** The executor with one pending approval for [send_email]. *)
Definition waiting0 : ZoneExecutor :=
  snd (handle_capability_request clk0 (request "capability_request" "send_email" None)
         (start (new None))).

(** An executor started again after a kill and a reset: it runs, is not
    killed and has its handler table. *)
Definition ready0 : ZoneExecutor :=
  start (snd (reset_kill_switch "admin" killed0)).

(** A world in which the secrets can no longer be decrypted. *)
Definition env_locked : Env :=
  mkEnv (fun file => Raise (Exn "RuntimeError" ("Failed to decrypt " ++ file)))
    (fun _ _ _ => Ok (JObj [("ok", JBool true)])).

Definition connection (env : Env) (type action : string) : Env * Clock * Wire :=
  (env, clk0, Doc (request type action None)).

(** [ready0] after one [read_email] was executed, and after five
    [make_call] requests. *)
Definition warm0 : ZoneExecutor :=
  snd (accept_loop [connection env0 "capability_execute" "read_email"] ready0).

Definition spent0 : ZoneExecutor :=
  snd (accept_loop (repeat (connection env0 "capability_request" "make_call") 5) ready0).

Definition traffic0 : list (Env * Clock * Wire) :=
  [ connection env_locked "capability_request" "read_email";
    (env_locked, clk0, BadJson);
    connection env_locked "capability_execute" "send_email";
    connection env_locked "status" "";
    connection env_locked "capability_request" "make_call" ].

End Scenario.

Module CanaryScenario.
Import Py Canary.

(** Four draws with different ids, the registry of the default canaries
    with a callback, and a leak of two of their values. *)
Definition draw0 (k : nat) : string * string * string :=
  ("id" ++ str_of_nat k, "rnd" ++ str_of_nat k, "2026-01-01T00:00:00+00:00")%string.

Definition registry0 : CanarySystem :=
  snd (create_default_canaries draw0 (new true)).

Definition leak0 : string :=
  "user=admin pass=admin_backup_2024 fallback=db_readonly_backup_pass".

Definition stamps0 (k : nat) : string :=
  ("2026-01-02T00:00:0" ++ str_of_nat k ++ "+00:00")%string.

End CanaryScenario.

Module AuditScenario.
Import Py Audit.

(** A serializer and a digest to run the chain on: [render] writes a
    document out in full, field by field, and [plain_digest] is the
    identity, so that two contents collide only when they are equal. *)
Fixpoint render (j : json) : string :=
  match j with
  | JNull => "null"
  | JBool true => "true"
  | JBool false => "false"
  | JNum z => NilEmpty.string_of_int (Z.to_int z)
  | JStr s => String "034" (s ++ String "034" "")
  | JArr items =>
      "[" ++ (fix go (l : list json) : string :=
                match l with
                | [] => ""
                | x :: rest => render x ++ "," ++ go rest
                end) items ++ "]"
  | JObj fields =>
      "{" ++ (fix go (l : list (string * json)) : string :=
                match l with
                | [] => ""
                | (k, v) :: rest => k ++ ":" ++ render v ++ "," ++ go rest
                end) fields ++ "}"
  end%string.

Definition plain_digest (s : string) : string := s.

Definition call0 (date : string) (details : option json) : LogCall :=
  mkLogCall ACTION_EXECUTED (Some "read_email") "zone2" "zone1" details (Some "r1")
    (date ++ "T10:00:00+00:00") date.

Definition calls0 : list LogCall :=
  [ call0 "2026-01-01" None;
    call0 "2026-01-01" (Some (JObj [("to", JStr "a@example.com")]));
    call0 "2026-01-02" None ].

Definition log0 : AuditLogger :=
  snd (log_all plain_digest render calls0 (new [] None)).

Definition second_event : AuditEvent :=
  nth 1 (fst (log_all plain_digest render calls0 (new [] None)))
    (mkAuditEvent "" "" None "" "" JNull None "" "").

Definition first_line : Line :=
  nth 0 (lines_of (files log0)) (BadLine "" "").

Definition next_day : LogFiles := skipn 1 (files log0).

Definition forged : json := JObj [("to", JStr "evil@example.com")].

(** The run in two parts, as before and after a restart, and one more
    call on the last day. *)
Definition day_one : list LogCall := firstn 2 calls0.

Definition day_two : list LogCall := skipn 2 calls0.

Definition late_call : LogCall := call0 "2026-01-02" None.

Definition first_event : AuditEvent :=
  nth 0 (fst (log_all plain_digest render calls0 (new [] None)))
    (mkAuditEvent "" "" None "" "" JNull None "" "").

Definition third_event : AuditEvent :=
  nth 2 (fst (log_all plain_digest render calls0 (new [] None)))
    (mkAuditEvent "" "" None "" "" JNull None "" "").

End AuditScenario.

(** * Properties *)

(** ** The policy engine's counters *)

Module PolicyFacts.
Import Policy.

(** Every rate cap of the descriptor table parses. *)
Lemma table_caps_parse (action : string) (p : ActionPolicy) :
  Py.assoc action ALLOWED_ACTIONS = Some p ->
  exists n, parse_limit (rate_limit p) = Some n.
Proof.
  unfold ALLOWED_ACTIONS. cbn [Py.assoc].
  repeat (destruct (String.eqb action _);
          [ intros [= <-]; eexists; vm_compute; reflexivity | ]).
  discriminate.
Qed.

Lemma cap_inv (action : string) (n : nat) :
  cap action = Some n ->
  exists p, Py.assoc action ALLOWED_ACTIONS = Some p /\
            parse_limit (rate_limit p) = Some n.
Proof.
  unfold cap. destruct (Py.assoc action ALLOWED_ACTIONS) as [p|]; [|discriminate].
  intros H. exists p. split; [reflexivity | exact H].
Qed.

Lemma counter_insert_eq (pe : PolicyEngine) (a : string) (v : nat) :
  counter (mkPolicyEngine (<[a := v]> (rate_counts pe))) a = v.
Proof. unfold counter. cbn. by rewrite lookup_insert_eq. Qed.

Lemma counter_insert_ne (pe : PolicyEngine) (a b : string) (v : nat) :
  a <> b -> counter (mkPolicyEngine (<[a := v]> (rate_counts pe))) b = counter pe b.
Proof. intros Hne. unfold counter. cbn. by rewrite lookup_insert_ne. Qed.

Lemma counter_new (a : string) : counter new a = 0%nat.
Proof. unfold counter, new. cbn. by rewrite lookup_empty. Qed.

(** Below the cap the call is allowed and counts once. *)
Lemma check_action_below (action : string) (n : nat) (params : Py.json)
    (pe : PolicyEngine) :
  cap action = Some n ->
  (counter pe action < n)%nat ->
  exists r pe',
    check_action action params pe = Some (r, pe') /\
    allowed r = true /\
    counter pe' action = S (counter pe action) /\
    (forall b, b <> action -> counter pe' b = counter pe b).
Proof.
  intros Hcap Hlt. destruct (cap_inv _ _ Hcap) as (p & Hp & Hn).
  unfold check_action, _check_rate_limit. rewrite Hp, Hn.
  destruct (Nat.leb_spec n (counter pe action)) as [Hle|_]; [lia|].
  eexists _, _. split; [reflexivity|]. split; [reflexivity|]. split.
  - rewrite counter_insert_eq. lia.
  - intros b Hb. apply counter_insert_ne. congruence.
Qed.

(** At the cap the call is refused and the engine is left as it was. *)
Lemma check_action_capped (action : string) (n : nat) (params : Py.json)
    (pe : PolicyEngine) :
  cap action = Some n ->
  (n <= counter pe action)%nat ->
  exists message,
    check_action action params pe = Some (Denied "rate_limited" message, pe).
Proof.
  intros Hcap Hle. destruct (cap_inv _ _ Hcap) as (p & Hp & Hn).
  unfold check_action, _check_rate_limit. rewrite Hp, Hn.
  destruct (Nat.leb_spec n (counter pe action)) as [_|Hlt]; [|lia].
  eexists. reflexivity.
Qed.

(** A call never raises, and changes no counter but its own action's. *)
Lemma check_action_total (b : string) (params : Py.json) (pe : PolicyEngine) :
  exists r pe',
    check_action b params pe = Some (r, pe') /\
    (forall a, a <> b -> counter pe' a = counter pe a) /\
    (counter pe b <= counter pe' b)%nat.
Proof.
  unfold check_action.
  destruct (Py.assoc b ALLOWED_ACTIONS) as [p|] eqn:Hp.
  - destruct (table_caps_parse _ _ Hp) as [n Hn].
    unfold _check_rate_limit. rewrite Hn.
    destruct (n <=? counter pe b)%nat.
    + eexists _, _. split; [reflexivity|]. split; [reflexivity | lia].
    + eexists _, _. split; [reflexivity|]. split.
      * intros a Ha. apply counter_insert_ne. congruence.
      * rewrite counter_insert_eq. lia.
  - eexists _, _. split; [reflexivity|]. split; [reflexivity | lia].
Qed.






End PolicyFacts.

(** ** The anomaly detector's sliding window *)

Module AnomalyFacts.
Import KillSwitch AnomalyDetector.

Lemma in_window_iff (window_start t : Q) :
  in_window window_start t = true <-> (window_start < t)%Q.
Proof.
  unfold in_window. rewrite negb_true_iff. split.
  - intros H. apply Qnot_le_lt. intros Hle.
    apply Qle_bool_iff in Hle. congruence.
  - intros H. destruct (Qle_bool t window_start) eqn:E; [|reflexivity].
    apply Qle_bool_iff in E. exfalso. exact (Qlt_not_le _ _ H E).
Qed.

(** What [slide] keeps: the old readings newer than [now - 60], in
    their order, then [now]. *)
Lemma slide_spec (now : Q) (old : list Q) :
  exists kept,
    slide now old = kept ++ [now] /\
    (forall t, In t kept <-> In t old /\ (now - 60 < t)%Q).
Proof.
  exists (List.filter (in_window (now - 60)%Q) old). split; [reflexivity|].
  intros t. rewrite filter_In, in_window_iff. reflexivity.
Qed.

Lemma threshold_table :
  threshold "send_email" = 20%nat /\
  threshold "send_sms" = 30%nat /\
  threshold "make_call" = 10%nat /\
  threshold "send_telegram" = 50%nat /\
  threshold "send_slack" = 50%nat /\
  (forall action,
      ~ In action ["send_email"; "send_sms"; "make_call"; "send_telegram"; "send_slack"] ->
      threshold action = 100%nat).
Proof.
  repeat (split; [reflexivity|]).
  intros action Hnot. unfold threshold, thresholds. cbn [Py.assoc].
  repeat match goal with
         | |- context [String.eqb action ?s] =>
             destruct (String.eqb_spec action s) as [->|_];
             [ exfalso; apply Hnot; cbn; auto 10 | ]
         end.
  reflexivity.
Qed.

Section Executor_instance.
Import Executor.

Lemma window_after (action : string) (now : Q) (utc_now : string)
    (st : ZoneExecutor) :
  window (anomaly_detector (snd (Executor.record_action action now utc_now st))) action
  = slide now (window (anomaly_detector st) action).
Proof.
  unfold Executor.record_action, AnomalyDetector.record_action.
  destruct (_ <? _)%nat.
  - cbn [snd]. unfold trigger, _execute_shutdown. cbn.
    destruct (_killed (kill_switch st)), (_kill_event (kill_switch st));
      cbn; unfold window; cbn; by rewrite lookup_insert_eq.
  - cbn. unfold window at 1. cbn. by rewrite lookup_insert_eq.
Qed.

(** C7, as the code has it.  [record_action] on the executor's detector
    keeps of the old readings exactly those with [t > now - 60], in their
    order and as often as they occur, so that a reading exactly sixty
    seconds old goes with the older ones, and appends [now]; the number
    of readings then stored is compared with the action's threshold (20,
    30, 10, 50, 50 for the five named actions, 100 for any other).  Above
    the threshold the result is [False] and the kill switch is killed, by
    an event of reason [RATE_LIMIT_EXCEEDED] that tells the count and the
    threshold when it was not killed before; otherwise the result is
    [True] and the kill switch is untouched. *)
Theorem record_action_window_and_threshold (action : string) (now : Q)
    (utc_now : string) (st : ZoneExecutor) :
  let old := window (anomaly_detector st) action in
  let kept := List.filter (fun t => negb (Qle_bool t (now - 60))) old in
  let count := S (length kept) in
  let '(ok, st') := Executor.record_action action now utc_now st in
  (forall t, In t kept <-> In t old /\ (now - 60 < t)%Q) /\
  window (anomaly_detector st') action = kept ++ [now] /\
  (threshold "send_email" = 20%nat /\
   threshold "send_sms" = 30%nat /\
   threshold "make_call" = 10%nat /\
   threshold "send_telegram" = 50%nat /\
   threshold "send_slack" = 50%nat /\
   (forall a,
       ~ In a ["send_email"; "send_sms"; "make_call"; "send_telegram"; "send_slack"] ->
       threshold a = 100%nat)) /\
  ok = (count <=? threshold action)%nat /\
  ((threshold action < count)%nat ->
   is_killed (kill_switch st') = true /\
   (is_killed (kill_switch st) = false ->
    _kill_event (kill_switch st')
    = Some (mkKillEvent utc_now RATE_LIMIT_EXCEEDED
              ("Action '" ++ action ++ "' exceeded rate limit: "
                 ++ Py.str_of_nat count ++ "/" ++ Py.str_of_nat (threshold action)
                 ++ " per minute")
              "anomaly_detector"))) /\
  ((count <= threshold action)%nat -> kill_switch st' = kill_switch st).
Proof.
  intros old kept count.
  pose proof (window_after action now utc_now st) as Hwin.
  assert (Hlen : length (slide now old) = count).
  { unfold slide. rewrite length_app. cbn [length]. subst count kept.
    unfold in_window. lia. }
  destruct (Executor.record_action action now utc_now st) as [ok st'] eqn:Hrec.
  cbn [snd] in Hwin.
  split.
  { intros t. subst kept. rewrite filter_In.
    change (negb (Qle_bool t (now - 60))) with (in_window (now - 60) t).
    rewrite in_window_iff. reflexivity. }
  split; [exact Hwin|]. split; [exact threshold_table|].
  unfold Executor.record_action, AnomalyDetector.record_action in Hrec.
  fold old in Hrec. rewrite Hlen in Hrec.
  destruct (Nat.ltb_spec (threshold action) count) as [Hlt|Hge].
  - injection Hrec as <- <-.
    split; [symmetry; apply Nat.leb_gt; exact Hlt|].
    split; [|intros; lia]. intros _.
    unfold trigger, _execute_shutdown, is_killed. cbn.
    destruct (_killed (kill_switch st)) eqn:Hk,
             (_kill_event (kill_switch st)) eqn:He; cbn.
    + split; [exact Hk | discriminate].
    + split; [reflexivity | discriminate].
    + split; [reflexivity|]. intros _. reflexivity.
    + split; [reflexivity|]. intros _. reflexivity.
  - injection Hrec as <- <-.
    split; [symmetry; apply Nat.leb_le; exact Hge|].
    split; [intros; lia|]. intros _. reflexivity.
Qed.

(** C7 as stated fails at the edge of the window: a reading exactly
    sixty seconds old is not older than [now - 60], yet it is removed.
    Ten calls at second 0 and one at second 60: the eleventh finds an
    empty window and is let through, where ten readings kept would have
    put it above the threshold of [make_call]. *)
Lemma reading_sixty_seconds_old_is_purged :
  window (anomaly_detector Scenario.full0) "make_call" = repeat 0%Q 10 /\
  threshold "make_call" = 10%nat /\
  Qle_bool (60 - 60) 0 = true /\
  fst (Executor.record_action "make_call" 60 "2026-01-01T00:01:00+00:00" Scenario.full0) = true /\
  window (anomaly_detector
            (snd (Executor.record_action "make_call" 60 "2026-01-01T00:01:00+00:00"
                    Scenario.full0))) "make_call"
  = [60%Q].
Proof. repeat split. Qed.
End Executor_instance.

End AnomalyFacts.

(** ** The request handlers *)

Module ExecutorFacts.
Import Py Executor Scenario.

(** The steps of [_execute_action] behind its guards give [outcome]. *)
Lemma last_steps (env : Env) (clk : Clock) (action : string) (params : json)
    (creds : list (string * string)) (st1 : ZoneExecutor) :
  match keys params with
  | Raise e => (Raise e, st1)
  | Ok _ =>
      if is_provider_action action then (integration env action params creds, st1)
      else
        (Ok (JObj [ ("executed", JBool true);
                    ("action", JStr action);
                    ("timestamp", JStr (utc_iso clk)) ]),
         st1)
  end
  = (outcome env clk action params creds, st1).
Proof.
  unfold outcome, keys.
  destruct params; cbv beta iota; try reflexivity.
  destruct (is_provider_action action); reflexivity.
Qed.

(** *** Dispatch *)

(** C6.  A new executor has no handler table: until the kill switch has
    fired, every well-formed request, [ping] included, is answered with
    the text of the [AttributeError], not by its handler. *)
Theorem dispatch_before_first_kill (env : Env) (clk : Clock) (kill_file : option string)
    (m : Message) :
  handlers (start (new kill_file)) = None /\
  _handle_connection env clk (Doc m) (start (new kill_file))
  = (Some [ ("type", JStr "error");
            ("message", JStr "'ZoneExecutor' object has no attribute 'handlers'") ],
     start (new kill_file)).
Proof. split; reflexivity. Qed.

(** Once the on-kill callback has run, [ping] is dispatched to its
    handler and an unknown type to [_handle_unknown]. *)
Lemma dispatch_after_kill :
  _handle_connection env0 clk0 (Doc (request "ping" "" None)) killed0
  = (Some [ ("type", JStr "pong");
            ("timestamp", JStr (utc_iso clk0));
            ("server", JStr "zone1-executor");
            ("version", JStr "1.0.0") ],
     killed0) /\
  fst (_handle_connection env0 clk0 (Doc (request "bogus" "" None)) killed0)
  = Some [ ("type", JStr "error");
           ("message", JStr "Unknown message type: bogus") ].
Proof. split; reflexivity. Qed.

(** *** The kill request *)

Lemma kill_reason_of_spec (reason : string) :
  (reason = "manual" -> kill_reason_of reason = KillSwitch.MANUAL) /\
  (reason <> "manual" -> kill_reason_of reason = KillSwitch.SECURITY_BREACH).
Proof.
  unfold kill_reason_of. destruct (String.eqb_spec reason "manual"); split; congruence.
Qed.

(** C9, as the code has it.  On an executor whose kill switch has not
    fired, [handle_kill] records a kill event whose reason is [MANUAL]
    when the message's reason is ["manual"] or missing, and
    [SECURITY_BREACH] for every other reason string; the response reports
    that reason and status ["killed"]. *)
Theorem handle_kill_reason (clk : Clock) (m : Message) (st : ZoneExecutor) :
  KillSwitch.is_killed (kill_switch st) = false ->
  let reason := default "manual" (m_reason m) in
  exists event st',
    handle_kill clk m st
    = (Ok [ ("type", JStr "kill_response");
            ("status", JStr "killed");
            ("timestamp", JStr (utc_iso clk));
            ("reason", JStr (KillSwitch.KillReason_value (KillSwitch.reason event))) ],
       st') /\
    KillSwitch._kill_event (kill_switch st') = Some event /\
    KillSwitch.is_killed (kill_switch st') = true /\
    (reason = "manual" -> KillSwitch.reason event = KillSwitch.MANUAL) /\
    (reason <> "manual" -> KillSwitch.reason event = KillSwitch.SECURITY_BREACH).
Proof.
  intros Hk reason. unfold KillSwitch.is_killed in Hk.
  unfold handle_kill, KillSwitch.trigger, KillSwitch._execute_shutdown.
  cbn. rewrite Hk. cbn.
  exists (KillSwitch.mkKillEvent (utc_iso clk) (kill_reason_of reason)
            (default "Kill command received" (m_details m))
            (default "remote" (m_triggered_by m))).
  eexists. split; [reflexivity|]. cbn.
  split; [reflexivity|]. split; [reflexivity|].
  apply kill_reason_of_spec.
Qed.

Lemma handle_kill_reason_witness :
  KillSwitch.is_killed (kill_switch (start (new None))) = false /\
  exists event st',
    handle_kill clk0 (kill_message "test") (start (new None))
    = (Ok [ ("type", JStr "kill_response");
            ("status", JStr "killed");
            ("timestamp", JStr (utc_iso clk0));
            ("reason", JStr (KillSwitch.KillReason_value (KillSwitch.reason event))) ],
       st') /\
    KillSwitch._kill_event (kill_switch st') = Some event /\
    KillSwitch.is_killed (kill_switch st') = true /\
    ("test" = "manual" -> KillSwitch.reason event = KillSwitch.MANUAL) /\
    ("test" <> "manual" -> KillSwitch.reason event = KillSwitch.SECURITY_BREACH).
Proof.
  split; [reflexivity|].
  exact (handle_kill_reason clk0 (kill_message "test") (start (new None)) eq_refl).
Defined.

(** C9 as stated fails: the unrecognized reason ["test"] is recorded as
    [SECURITY_BREACH]. *)
Lemma unrecognized_reason_is_security_breach :
  fst (handle_kill clk0 (kill_message "test") (start (new None)))
  = Ok [ ("type", JStr "kill_response");
         ("status", JStr "killed");
         ("timestamp", JStr "2026-01-01T00:00:00+00:00");
         ("reason", JStr "security_breach") ] /\
  option_map KillSwitch.reason
    (KillSwitch._kill_event
       (kill_switch (snd (handle_kill clk0 (kill_message "test") (start (new None))))))
  = Some KillSwitch.SECURITY_BREACH /\
  KillSwitch.SECURITY_BREACH <> KillSwitch.MANUAL.
Proof. split; [reflexivity|]. split; [reflexivity | discriminate]. Qed.

(** *** Execute while killed *)

Lemma killed_message_mentions_killed (action : string) :
  mentions_killed
    (execute_error action "System is in killed state - all actions blocked") = true.
Proof. reflexivity. Qed.




(** *** Execute and the approval id *)




(** *** Approval ids *)






End ExecutorFacts.

(** ** The executor and the audit log *)

Module HostFacts.
Import Py KillSwitch Executor Scenario.

(** The traced functions are the functions. *)
Lemma trigger_io_trigger (r : KillReason) (d b t : string) (st : ZoneExecutor) :
  fst (trigger_io wiring r d b t st) = trigger wiring r d b t st.
Proof.
  unfold trigger_io, trigger, _execute_shutdown_io, _execute_shutdown,
    _write_kill_marker_io, _write_kill_marker.
  destruct (_killed (ks_get wiring st)), (_kill_event (ks_get wiring st)); reflexivity.
Qed.

Lemma record_action_io_record_action (action : string) (now : Q) (utc_now : string)
    (st : ZoneExecutor) :
  fst (record_action_io action now utc_now st) = record_action action now utc_now st.
Proof.
  unfold record_action_io, record_action, AnomalyDetector.record_action_io,
    AnomalyDetector.record_action.
  destruct (_ <? _)%nat; [|reflexivity].
  match goal with
  | |- context [trigger_io wiring ?r ?d ?b ?t ?w] =>
      rewrite <- (trigger_io_trigger r d b t w);
      destruct (trigger_io wiring r d b t w) as [[e w2] written]
  end.
  reflexivity.
Qed.

Lemma execute_action_io_execute_action (env : Env) (clk : Clock) (action : string)
    (params : json) (creds : list (string * string)) (st : ZoneExecutor) :
  fst (_execute_action_io env clk action params creds st)
  = _execute_action env clk action params creds st.
Proof.
  unfold _execute_action_io, _execute_action.
  destruct (is_killed (kill_switch st)); [reflexivity|].
  rewrite <- (record_action_io_record_action action (time_time clk) (utc_iso clk) st).
  destruct (record_action_io action (time_time clk) (utc_iso clk) st)
    as [[ok st1] written].
  cbn [fst]. destruct ok; cbn [negb]; [|reflexivity].
  destruct (keys params); [destruct (is_provider_action action)|]; reflexivity.
Qed.

Lemma execute_io_execute (env : Env) (clk : Clock) (m : Message) (st : ZoneExecutor) :
  fst (handle_capability_execute_io env clk m st) = handle_capability_execute env clk m st.
Proof.
  unfold handle_capability_execute_io, handle_capability_execute.
  destruct (truthy (m_approval_id m) && negb (is_pending (m_approval_id m) st));
    [reflexivity|].
  destruct (Credentials.inject_for_action (sops env) (default "" (m_action m))
              (credentials st)) as [[creds|e] ci]; [|reflexivity].
  rewrite <- (execute_action_io_execute_action env clk (default "" (m_action m))
                (default (JObj []) (m_params m)) creds (set_credentials ci st)).
  destruct (_execute_action_io env clk (default "" (m_action m))
              (default (JObj []) (m_params m)) creds (set_credentials ci st))
    as [[[r|e] st2] written]; cbn [fst]; [|reflexivity].
  destruct (truthy (m_approval_id m)); [|reflexivity].
  destruct (pending_approvals st2 !! default "" (m_approval_id m)); reflexivity.
Qed.

(** What [trigger] writes: nothing on a switch that is killed already,
    else the marker of the new event. *)
Lemma trigger_io_writes (r : KillReason) (d b t : string) (st : ZoneExecutor) :
  snd (trigger_io wiring r d b t st) = []
  \/ snd (trigger_io wiring r d b t st)
     = [mkFileWrite KILL_FILE_PATH (marker (mkKillEvent t r d b))].
Proof.
  unfold trigger_io, _execute_shutdown_io, _write_kill_marker_io. cbn.
  destruct (_killed (kill_switch st)), (_kill_event (kill_switch st));
    cbn; auto.
Qed.

Lemma prefix_found (v rest : string) : prefixb v (String.append v rest) = true.
Proof.
  induction v as [|c v IH]; [reflexivity|].
  change (String.append (String c v) rest) with (String c (String.append v rest)).
  cbn [prefixb]. rewrite Ascii.eqb_refl. exact IH.
Qed.

Lemma infix_found (before v rest : string) :
  contains v (String.append before (String.append v rest)) = true.
Proof.
  induction before as [|c before IH].
  - change (String.append "" (String.append v rest)) with (String.append v rest).
    destruct (String.append v rest) eqn:E; cbn [contains]; rewrite <- E, prefix_found;
      reflexivity.
  - change (String.append (String c before) (String.append v rest))
      with (String c (String.append before (String.append v rest))).
    cbn [contains]. rewrite IH. apply orb_true_r.
Qed.

Lemma append_assoc3 (a b c : string) :
  String.append a (String.append b c) = String.append (String.append a b) c.
Proof.
  induction a as [|x a IH]; [reflexivity|].
  change (String x (String.append a (String.append b c))
          = String x (String.append (String.append a b) c)).
  rewrite IH. reflexivity.
Qed.

(** The marker file is no file of an audit log, in whatever directory
    the log is kept: its path does not have [audit-] in it. *)
Lemma kill_file_is_no_audit_file (log_dir name : string) :
  Audit.audit_file_name name ->
  (log_dir ++ "/" ++ name)%string <> KILL_FILE_PATH.
Proof.
  intros Hname Heq.
  assert (Hin : contains "audit-" (log_dir ++ "/" ++ name)%string = true).
  { destruct Hname as [-> | [date_str ->]].
    - change (log_dir ++ "/" ++ Audit.CHAIN_FILE)%string
        with (String.append log_dir
                (String.append "/" (String.append "audit-" "chain.json"))).
      rewrite (append_assoc3 log_dir "/" _).
      apply infix_found.
    - change (log_dir ++ "/" ++ Audit._get_log_file date_str)%string
        with (String.append log_dir
                (String.append "/"
                   (String.append "audit-" (String.append date_str ".jsonl")))).
      rewrite (append_assoc3 log_dir "/" _).
      apply infix_found. }
  rewrite Heq in Hin. vm_compute in Hin. discriminate.
Qed.

(** C5, as the code has it.  The code that serves a [capability_execute]
    request holds no audit logger and appends nothing to an audit log.
    On every path it writes at most one file, the marker [KILL_FILE] of
    the kill switch, and that only when the anomaly detector refuses the
    action and thereby kills the switch; the answer is then the
    detector's error.  The marker is no file of an audit log, wherever
    the log is kept.  What the handler answers and the state it leaves
    are those of [handle_capability_execute]. *)
Theorem execute_leaves_audit_log_unchanged (env : Env) (clk : Clock) (m : Message)
    (st : ZoneExecutor) :
  let action := default "" (m_action m) in
  let '(reply, st', written) := handle_capability_execute_io env clk m st in
  (reply, st') = handle_capability_execute env clk m st /\
  (written = [] \/
   (exists e,
       written = [mkFileWrite "/tmp/moltbot-kill" (marker e)] /\
       reason e = RATE_LIMIT_EXCEEDED /\
       _kill_event (kill_switch st') = Some e) /\
   is_killed (kill_switch st) = false /\
   reply = Ok (execute_error action "Action blocked by anomaly detector")) /\
  (forall w log_dir name,
      In w written ->
      Audit.audit_file_name name ->
      fw_path w <> (log_dir ++ "/" ++ name)%string).
Proof.
  intros action.
  pose proof (execute_io_execute env clk m st) as Htie.
  assert (Hmain :
    snd (handle_capability_execute_io env clk m st) = [] \/
    (exists e,
        snd (handle_capability_execute_io env clk m st)
        = [mkFileWrite "/tmp/moltbot-kill" (marker e)] /\
        reason e = RATE_LIMIT_EXCEEDED /\
        _kill_event (kill_switch (snd (fst (handle_capability_execute_io env clk m st))))
        = Some e) /\
    is_killed (kill_switch st) = false /\
    fst (fst (handle_capability_execute_io env clk m st))
    = Ok (execute_error action "Action blocked by anomaly detector")).
  { unfold handle_capability_execute_io. fold action.
    destruct (truthy (m_approval_id m) && negb (is_pending (m_approval_id m) st));
      [left; reflexivity|].
    destruct (Credentials.inject_for_action (sops env) action (credentials st))
      as [[creds|e] ci]; [|left; reflexivity].
    unfold _execute_action_io. cbn [kill_switch set_credentials].
    destruct (is_killed (kill_switch st)) eqn:Hk; [left; reflexivity|].
    unfold record_action_io, AnomalyDetector.record_action_io.
    destruct (_ <? _)%nat.
    - right. unfold trigger_io, _execute_shutdown_io, _write_kill_marker_io. cbn.
      unfold is_killed in Hk. rewrite Hk. cbn.
      split; [|split; reflexivity]. eexists. split; [reflexivity|]. split; reflexivity.
    - left. cbn [negb].
      destruct (keys _); [|reflexivity].
      destruct (is_provider_action action);
        [destruct (integration env action _ creds); [|reflexivity]|];
        (destruct (truthy (m_approval_id m)); [|reflexivity];
         match goal with
         | |- context [pending_approvals ?s !! ?k] => destruct (pending_approvals s !! k)
         end; reflexivity). }
  destruct (handle_capability_execute_io env clk m st) as [[reply st'] written].
  cbn [fst snd] in Htie, Hmain.
  split; [exact Htie|]. split; [exact Hmain|].
  intros w log_dir name Hin Hname Heq.
  destruct Hmain as [-> | ((e & -> & _) & _)]; [destruct Hin|].
  destruct Hin as [<-|[]]. cbn [fw_path] in Heq.
  exact (kill_file_is_no_audit_file log_dir name Hname (eq_sym Heq)).
Qed.

(** C5 as stated fails: an execute that succeeds, one refused by the
    kill switch and one whose provider fails each end without a single
    file written, so that no event was appended to any audit log. *)
Lemma execute_appends_no_audit_event :
  handle_capability_execute_io env0 clk0
    (request "capability_execute" "read_email" None) (start (new None))
  = (Ok (execute_success "read_email" (JObj [("ok", JBool true)])),
     snd (handle_capability_execute env0 clk0
            (request "capability_execute" "read_email" None) (start (new None))),
     []) /\
  handle_capability_execute_io env0 clk0
    (request "capability_execute" "read_email" None) killed0
  = (Ok (execute_error "read_email" "System is in killed state - all actions blocked"),
     snd (handle_capability_execute env0 clk0
            (request "capability_execute" "read_email" None) killed0),
     []) /\
  handle_capability_execute_io env_down clk0
    (request "capability_execute" "read_email" None) (start (new None))
  = (Ok (execute_error "read_email" "provider unreachable"),
     snd (handle_capability_execute env_down clk0
            (request "capability_execute" "read_email" None) (start (new None))),
     []).
Proof. repeat split. Qed.

End HostFacts.

(** ** The canary registry *)

Module CanaryFacts.
Import Py Canary.

Lemma prefixb_app (v rest : string) : prefixb v (v ++ rest)%string = true.
Proof.
  induction v as [|c v IH]; [reflexivity|].
  change (String c v ++ rest)%string with (String c (v ++ rest))%string.
  cbn [prefixb]. rewrite Ascii.eqb_refl. exact IH.
Qed.

Lemma append_assoc (a b c : string) :
  (a ++ (b ++ c))%string = ((a ++ b) ++ c)%string.
Proof.
  induction a as [|x a IH]; [reflexivity|].
  change (String x (a ++ b ++ c) = String x ((a ++ b) ++ c))%string.
  rewrite IH. reflexivity.
Qed.

(** A string contains whatever stands between a head and a tail of it. *)
Lemma contains_app (v before after : string) :
  contains v (before ++ v ++ after)%string = true.
Proof.
  induction before as [|c before IH].
  - change ("" ++ v ++ after)%string with (v ++ after)%string.
    destruct (v ++ after)%string eqn:E; cbn [contains]; rewrite <- E, prefixb_app;
      reflexivity.
  - change (String c before ++ v ++ after)%string
      with (String c (before ++ v ++ after))%string.
    cbn [contains]. rewrite IH. apply orb_true_r.
Qed.

(** The HTML comment appended to a prompt carries the value. *)
Lemma comment_contains (v prompt : string) :
  contains v
    (String.append prompt
       (String "010" (String "010"
          (String.append "<!-- " (String.append v " -->"))))) = true.
Proof.
  change (String "010" (String "010"
            (String.append "<!-- " (String.append v " -->"))))
    with (String.append (String "010" (String "010" "<!-- "))
            (String.append v " -->")).
  rewrite append_assoc. apply contains_app.
Qed.

Lemma assoc_set_in {A : Type} (k : string) (v : A) (d : list (string * A)) :
  In (k, v) (assoc_set k v d).
Proof.
  induction d as [|[k' v'] d IH]; cbn; [left; reflexivity|].
  destruct (String.eqb k k'); [left; reflexivity | right; exact IH].
Qed.

Lemma assoc_set_get {A : Type} (k : string) (v : A) (d : list (string * A)) :
  assoc k (assoc_set k v d) = Some v.
Proof.
  induction d as [|[k' v'] d IH]; cbn.
  - rewrite String.eqb_refl. reflexivity.
  - destruct (String.eqb k k') eqn:E; cbn; rewrite ?String.eqb_refl, ?E; auto.
Qed.

(** A trigger already collected stays in the result of the loop. *)
Lemma check_loop_keeps (content : string) (src ua : option string) (ctx : json)
    (now : nat -> string) (todo seen : list (string * CanaryToken))
    (triggers : list CanaryTrigger) (sys : CanarySystem) (t : CanaryTrigger) :
  In t triggers ->
  In t (fst (check_loop content src ua ctx now seen todo triggers sys)).
Proof.
  revert seen triggers sys.
  induction todo as [|[k token] rest IH]; intros seen triggers sys Hin; cbn.
  - exact Hin.
  - destruct (contains (value token) content).
    + apply IH. apply in_or_app. left. exact Hin.
    + apply IH. exact Hin.
Qed.

(** Every registered token whose value occurs in the content is reported. *)
Lemma check_loop_fires (content : string) (src ua : option string) (ctx : json)
    (now : nat -> string) (todo seen : list (string * CanaryToken))
    (triggers : list CanaryTrigger) (sys : CanarySystem)
    (k : string) (token : CanaryToken) :
  In (k, token) todo ->
  contains (value token) content = true ->
  exists t,
    In t (fst (check_loop content src ua ctx now seen todo triggers sys)) /\
    trigger_token_id t = token_id token.
Proof.
  revert seen triggers sys.
  induction todo as [|[k' token'] rest IH]; intros seen triggers sys Hin Hc.
  - destruct Hin.
  - destruct Hin as [[= -> ->]|Hin]; cbn [check_loop].
    + rewrite Hc.
      exists (mkCanaryTrigger (token_id token) (now (length triggers)) src ua ctx).
      split; [|reflexivity].
      apply check_loop_keeps. apply in_or_app. right. left. reflexivity.
    + destruct (contains (value token') content); apply IH; assumption.
Qed.

(** C10.  [inject_prompt_canaries p] registers a new token of kind
    [PROMPT] under the id it returns and gives back [p] followed by an
    HTML comment that carries the token's value; [check] of the returned
    string then reports a trigger for that id, whatever else the registry
    holds. *)
Theorem injected_prompt_trips_its_canary (prompt rnd_id now : string)
    (sys : CanarySystem) :
  let '(injected, ids, sys') := inject_prompt_canaries prompt rnd_id now sys in
  ids = [rnd_id] /\
  (exists token,
      get_token rnd_id sys' = Some token /\
      token_id token = rnd_id /\
      token_type token = PROMPT /\
      injected
      = (prompt ++ String "010" (String "010" ("<!-- " ++ value token ++ " -->")))%string) /\
  (forall src ua ctx clock,
      exists t,
        In t (fst (check injected src ua ctx clock sys')) /\
        trigger_token_id t = rnd_id).
Proof.
  unfold inject_prompt_canaries, create_token. cbn [token_id value].
  set (token :=
         mkCanaryToken rnd_id PROMPT (make_value PROMPT None rnd_id "")
           ("Prompt canary for: " ++ take 50 prompt ++ "...") now false 0 None).
  split; [reflexivity|]. split.
  - exists token. unfold get_token. cbn [_tokens].
    rewrite assoc_set_get. repeat split.
  - intros src ua ctx clock. unfold check. cbn [_tokens].
    apply (check_loop_fires _ src ua (default (JObj []) ctx) clock
             (assoc_set rnd_id token (_tokens sys)) [] [] _ rnd_id token).
    + apply assoc_set_in.
    + apply comment_contains.
Qed.

End CanaryFacts.

(** ** The audit chain *)

Module AuditFacts.
Import Py Audit AuditScenario.

(** *** The order of file names *)

Lemma compare_refl (a : string) : String.compare a a = Eq.
Proof.
  pose proof (String.compare_antisym a a) as H.
  destruct (String.compare a a); cbn in H; congruence.
Qed.

Lemma compare_lt_trans (a b c : string) :
  String.compare a b = Lt -> String.compare b c = Lt -> String.compare a c = Lt.
Proof.
  intros H1 H2.
  exact (@StrictOrder_Transitive _ _ OrdersEx.String_as_OT.lt_strorder a b c H1 H2).
Qed.

Lemma file_le_refl (a : string) : file_le a a = true.
Proof. unfold file_le. rewrite compare_refl. reflexivity. Qed.

Lemma file_le_trans (a b c : string) :
  file_le a b = true -> file_le b c = true -> file_le a c = true.
Proof.
  unfold file_le. intros H1 H2.
  destruct (String.compare a b) eqn:Hab; [| |discriminate].
  - apply String.compare_eq_iff in Hab. subst. exact H2.
  - destruct (String.compare b c) eqn:Hbc; [| |discriminate].
    + apply String.compare_eq_iff in Hbc. subst. rewrite Hab. reflexivity.
    + rewrite (compare_lt_trans a b c Hab Hbc). reflexivity.
Qed.

Lemma lt_not_le (a b : string) :
  String.compare a b = Lt -> file_le b a = true -> False.
Proof.
  unfold file_le. intros Hlt Hle. rewrite String.compare_antisym, Hlt in Hle.
  discriminate.
Qed.

Lemma below_weaken (a b : string) (fs : LogFiles) :
  file_le a b = true -> below a fs -> below b fs.
Proof.
  intros Hab Hbelow. unfold below in *.
  eapply Forall_impl; [exact Hbelow|].
  intros n Hn. cbn in Hn. exact (file_le_trans n a b Hn Hab).
Qed.

(** *** Appending to the newest file *)

Lemma lines_of_cons (n : string) (ls : list Line) (fs : LogFiles) :
  lines_of ((n, ls) :: fs) = ls ++ lines_of fs.
Proof. reflexivity. Qed.

Lemma lines_of_app (fs1 fs2 : LogFiles) :
  lines_of (fs1 ++ fs2) = lines_of fs1 ++ lines_of fs2.
Proof. unfold lines_of. rewrite map_app, concat_app. reflexivity. Qed.

Lemma names_append_line (P : string -> Prop) (name : string) (l : Line) (fs : LogFiles) :
  P name -> Forall P (names fs) -> Forall P (names (append_line name l fs)).
Proof.
  intros Hname. induction fs as [|[n ls] rest IH]; intros Hall; cbn.
  - constructor; [exact Hname | constructor].
  - inversion Hall as [|? ? Hn Hrest]; subst.
    destruct (String.compare name n).
    + constructor; assumption.
    + constructor; [exact Hname | constructor; assumption].
    + constructor; [exact Hn | apply IH; exact Hrest].
Qed.

(** A line written to a file named no earlier than every file present
    comes last in the listing, which stays in name order. *)
Lemma append_line_at_end (name : string) (l : Line) (fs : LogFiles) :
  ordered fs -> below name fs ->
  lines_of (append_line name l fs) = lines_of fs ++ [l] /\
  ordered (append_line name l fs) /\
  below name (append_line name l fs).
Proof.
  unfold ordered, below.
  induction fs as [|[n ls] rest IH]; intros Hord Hbelow.
  - cbn. repeat split.
    + repeat constructor.
    + constructor; [apply file_le_refl | constructor].
  - cbn [names List.map fst] in Hord, Hbelow.
    inversion Hord as [|? ? Hrest_ord Hn_lt]; subst.
    inversion Hbelow as [|? ? Hn_le Hrest_below]; subst.
    cbn [append_line]. destruct (String.compare name n) eqn:Hcmp.
    + apply String.compare_eq_iff in Hcmp. subst n.
      destruct rest as [|[n' ls'] rest'].
      * cbn. rewrite !app_nil_r. repeat split; assumption.
      * exfalso. inversion Hn_lt as [|? ? Hlt _]; subst.
        inversion Hrest_below as [|? ? Hle _]; subst.
        exact (lt_not_le _ _ Hlt Hle).
    + exfalso. exact (lt_not_le _ _ Hcmp Hn_le).
    + destruct (IH Hrest_ord Hrest_below) as (Hlines & Hord' & Hbelow').
      rewrite !lines_of_cons, Hlines, app_assoc. repeat split.
      * cbn [names List.map fst]. constructor; [exact Hord'|].
        apply names_append_line; [|exact Hn_lt].
        unfold name_lt. rewrite String.compare_antisym, Hcmp. reflexivity.
      * cbn [names List.map fst]. constructor; assumption.
Qed.

(** *** Logging and verifying *)

Section Chain.
Variable sha256_hex : string -> string.
Variable dumps_sorted : json -> string.

Abbreviation compute_hash := (_compute_hash sha256_hex dumps_sorted).
Abbreviation linked := (chained sha256_hex dumps_sorted).
Abbreviation vline := (verify_line sha256_hex dumps_sorted).
Abbreviation vlines := (verify_lines sha256_hex dumps_sorted).
Abbreviation vfiles := (verify_files sha256_hex dumps_sorted).
Abbreviation sound := (Audit.sound sha256_hex dumps_sorted).

Lemma tip_app (prev : string) (es1 es2 : list AuditEvent) :
  tip prev (es1 ++ es2) = tip (tip prev es1) es2.
Proof. unfold tip. apply fold_left_app. Qed.

Lemma linked_app (prev : string) (es1 es2 : list AuditEvent) :
  linked prev (es1 ++ es2) <-> linked prev es1 /\ linked (tip prev es1) es2.
Proof.
  revert prev. induction es1 as [|e es1 IH]; intros prev; cbn.
  - tauto.
  - rewrite IH. tauto.
Qed.

Lemma linked_nth (prev : string) (es : list AuditEvent) :
  linked prev es ->
  (forall i e, nth_error es i = Some e ->
               event_hash e
               = sha256_hex (dumps_sorted (event_data e) ++ previous_hash e)%string) /\
  (forall e, nth_error es 0 = Some e -> previous_hash e = prev) /\
  (forall i e1 e2, nth_error es i = Some e1 -> nth_error es (S i) = Some e2 ->
                   previous_hash e2 = event_hash e1).
Proof.
  revert prev. induction es as [|e es IH]; intros prev H.
  - split; [|split].
    + intros [|i]; discriminate.
    + discriminate.
    + intros [|i]; discriminate.
  - cbn in H. destruct H as (Hprev & Hhash & Hrest).
    destruct (IH _ Hrest) as (IH1 & IH2 & IH3). repeat split.
    + intros [|i] e0 Hi; cbn in Hi.
      * injection Hi as <-. rewrite Hhash, Hprev. reflexivity.
      * exact (IH1 i e0 Hi).
    + intros e0 [= <-]. exact Hprev.
    + intros [|i] e1 e2 H1 H2; cbn in H1, H2.
      * injection H1 as <-. exact (IH2 e2 H2).
      * exact (IH3 i e1 e2 H1 H2).
Qed.

Lemma verify_lines_app (fname : string) (n : nat) (xs ys : list Line)
    (acc : string * list string) :
  vlines fname n (xs ++ ys) acc = vlines fname (n + length xs) ys (vlines fname n xs acc).
Proof.
  revert n acc. induction xs as [|x xs IH]; intros n acc; cbn.
  - rewrite Nat.add_0_r. reflexivity.
  - rewrite IH. f_equal. lia.
Qed.

Lemma verify_files_app (fs1 fs2 : LogFiles) (acc : string * list string) :
  vfiles (fs1 ++ fs2) acc = vfiles fs2 (vfiles fs1 acc).
Proof.
  revert acc. induction fs1 as [|[n ls] fs1 IH]; intros acc; cbn; [reflexivity|].
  apply IH.
Qed.

(** Lines that carry a chain from [prev] add no error. *)
Lemma verify_lines_linked (fname : string) (n : nat) (es : list AuditEvent)
    (prev : string) (errors : list string) :
  linked prev es ->
  vlines fname n (List.map EventLine es) (prev, errors) = (tip prev es, errors).
Proof.
  revert n prev. induction es as [|e es IH]; intros n prev H; cbn; [reflexivity|].
  cbn in H. destruct H as (Hprev & Hhash & Hrest).
  rewrite Hprev, String.eqb_refl, <- Hhash, String.eqb_refl.
  exact (IH (S n) (event_hash e) Hrest).
Qed.

Lemma map_EventLine_app (ls1 ls2 : list Line) (es : list AuditEvent) :
  ls1 ++ ls2 = List.map EventLine es ->
  exists es1 es2,
    es = es1 ++ es2 /\ ls1 = List.map EventLine es1 /\ ls2 = List.map EventLine es2.
Proof.
  revert es. induction ls1 as [|l ls1 IH]; intros es H; cbn in H.
  - exists [], es. repeat split. exact H.
  - destruct es as [|e es]; [discriminate|]. cbn in H. injection H as -> H.
    destruct (IH es H) as (es1 & es2 & -> & -> & ->).
    exists (e :: es1), es2. repeat split.
Qed.

Lemma verify_files_linked (fs : LogFiles) (es : list AuditEvent) (prev : string)
    (errors : list string) :
  lines_of fs = List.map EventLine es ->
  linked prev es ->
  vfiles fs (prev, errors) = (tip prev es, errors).
Proof.
  revert es prev. induction fs as [|[n ls] fs IH]; intros es prev Hlines Hlinked.
  - destruct es; [reflexivity | discriminate].
  - rewrite lines_of_cons in Hlines.
    destruct (map_EventLine_app _ _ _ Hlines) as (es1 & es2 & -> & -> & Hfs).
    apply linked_app in Hlinked. destruct Hlinked as [H1 H2].
    cbn [verify_files]. rewrite (verify_lines_linked n 1 es1 prev errors H1).
    rewrite tip_app. apply IH; assumption.
Qed.

Lemma log_sound (c : LogCall) (lg : AuditLogger) (es : list AuditEvent)
    (last : string) :
  sound lg es last ->
  file_le last (_get_log_file (c_date c)) = true ->
  let '(e, lg') := log sha256_hex dumps_sorted c lg in
  sound lg' (es ++ [e]) (_get_log_file (c_date c)) /\
  linked (_previous_hash lg) [e].
Proof.
  intros (Hlines & Hlinked & Hprev & Hord & Hbelow) Hle.
  unfold log. cbn [files _previous_hash].
  destruct (append_line_at_end (_get_log_file (c_date c))
              (EventLine
                 (mkAuditEvent (c_timestamp c) (AuditEventType_value (c_event_type c))
                    (c_action c) (c_actor c) (c_source_zone c)
                    (details_or_empty (c_details c)) (c_request_id c)
                    (_previous_hash lg)
                    (compute_hash
                       (event_data
                          (mkAuditEvent (c_timestamp c)
                             (AuditEventType_value (c_event_type c)) (c_action c)
                             (c_actor c) (c_source_zone c)
                             (details_or_empty (c_details c)) (c_request_id c)
                             (_previous_hash lg) ""))
                       (_previous_hash lg))))
              (files lg) Hord (below_weaken _ _ _ Hle Hbelow))
    as (Hl & Ho & Hb).
  split; [|cbn; repeat split].
  unfold sound. cbn [files _previous_hash].
  rewrite Hl, Hlines, map_app. split; [reflexivity|]. split.
  - apply linked_app. split; [exact Hlinked|]. cbn. rewrite <- Hprev. repeat split.
  - split; [rewrite tip_app; reflexivity|]. split; assumption.
Qed.

Lemma log_all_sound (calls : list LogCall) (lg : AuditLogger)
    (es : list AuditEvent) (last : string) :
  sound lg es last ->
  dates_ascend (last :: List.map (fun c => _get_log_file (c_date c)) calls) = true ->
  let '(new_events, lg') := log_all sha256_hex dumps_sorted calls lg in
  length new_events = length calls /\
  linked (_previous_hash lg) new_events /\
  exists last', sound lg' (es ++ new_events) last'.
Proof.
  revert lg es last. induction calls as [|c calls IH]; intros lg es last Hs Hd.
  - cbn. split; [reflexivity|]. split; [exact I|].
    exists last. rewrite app_nil_r. exact Hs.
  - cbn [log_all]. cbn [List.map dates_ascend] in Hd.
    apply andb_true_iff in Hd. destruct Hd as [Hle Hd].
    pose proof (log_sound c lg es last Hs Hle) as Hstep.
    destruct (log sha256_hex dumps_sorted c lg) as [e lg1] eqn:Hlog.
    destruct Hstep as [Hs1 He].
    specialize (IH lg1 (es ++ [e]) _ Hs1 Hd).
    destruct (log_all sha256_hex dumps_sorted calls lg1) as [es2 lg2].
    destruct IH as (Hlen & Hlinked & last' & Hs2).
    split; [cbn; lia|]. split.
    + change (e :: es2) with ([e] ++ es2). apply linked_app. split; [exact He|].
      assert (Hp : _previous_hash lg1 = tip (_previous_hash lg) [e]).
      { unfold log in Hlog. injection Hlog as <- <-. reflexivity. }
      rewrite <- Hp. exact Hlinked.
    + exists last'. rewrite <- app_assoc in Hs2. exact Hs2.
Qed.

(** A log in which one event's details were replaced: the check of that
    line adds the only error. *)
Lemma verify_one_tampered (fs1 : LogFiles) (fname : string) (l1 : list Line)
    (e : AuditEvent) (l2 : list Line) (fs2 : LogFiles) (d : json)
    (events : list AuditEvent) :
  lines_of (fs1 ++ (fname, l1 ++ EventLine e :: l2) :: fs2) = List.map EventLine events ->
  linked "GENESIS" events ->
  compute_hash (event_data (with_details d e)) (previous_hash e) <> event_hash e ->
  vfiles (fs1 ++ (fname, l1 ++ EventLine (with_details d e) :: l2) :: fs2) ("GENESIS", [])
  = (tip "GENESIS" events, [hash_mismatch_error fname (S (length l1))]).
Proof.
  intros Hlines Hlinked Hneq.
  rewrite lines_of_app, lines_of_cons in Hlines.
  destruct (map_EventLine_app _ _ _ Hlines) as (a & r1 & -> & Ha & Hr1).
  destruct (map_EventLine_app _ _ _ Hr1) as (m & c2 & -> & Hm & Hc2).
  destruct (map_EventLine_app _ _ _ Hm) as (b & m2 & -> & Hb & Hm2).
  destruct m2 as [|e' c]; [discriminate|]. cbn in Hm2. injection Hm2 as <- Hc.
  subst l1 l2.
  apply linked_app in Hlinked. destruct Hlinked as [La Lr].
  apply linked_app in Lr. destruct Lr as [Lm Lc2].
  apply linked_app in Lm. destruct Lm as [Lb Lec].
  cbn in Lec. destruct Lec as (Hprev & Hhash & Lc).
  rewrite verify_files_app. cbn [verify_files].
  rewrite (verify_files_linked fs1 a "GENESIS" [] Ha La).
  rewrite verify_lines_app.
  rewrite (verify_lines_linked fname 1 b (tip "GENESIS" a) [] Lb).
  cbn [verify_lines verify_line with_details previous_hash event_hash].
  rewrite Hprev, String.eqb_refl.
  rewrite <- Hprev.
  destruct (String.eqb_spec
              (compute_hash (event_data (with_details d e)) (previous_hash e))
              (event_hash e)) as [Heq|_]; [contradiction|].
  rewrite (verify_lines_linked fname _ c (event_hash e) _ Lc).
  rewrite (verify_files_linked fs2 c2 _ _ Hc2).
  - rewrite !tip_app, length_map. reflexivity.
  - rewrite !tip_app in Lc2. exact Lc2.
Qed.

(** The events of a run carry the arguments and clock readings of their
    calls. *)
Lemma log_all_fields (calls : list LogCall) (lg : AuditLogger) :
  Forall2 (fun c e =>
             timestamp e = c_timestamp c /\
             event_type e = AuditEventType_value (c_event_type c) /\
             action e = c_action c /\
             actor e = c_actor c /\
             source_zone e = c_source_zone c /\
             details e = details_or_empty (c_details c) /\
             request_id e = c_request_id c)
    calls (fst (log_all sha256_hex dumps_sorted calls lg)).
Proof.
  revert lg. induction calls as [|c calls IH]; intros lg; [constructor|].
  cbn [log_all]. destruct (log sha256_hex dumps_sorted c lg) as [e lg1] eqn:Hlog.
  specialize (IH lg1). destruct (log_all sha256_hex dumps_sorted calls lg1) as [es lg2].
  cbn [fst] in *. constructor; [|exact IH].
  unfold log in Hlog. injection Hlog as <- _. repeat split.
Qed.

(** The dictionary of the seven fields of [e] that are not hashes, with
    [d] for its details. *)
Abbreviation seven_fields e d :=
  (JObj [ ("timestamp", JStr (timestamp e));
          ("event_type", JStr (event_type e));
          ("action", match action e with Some a => JStr a | None => JNull end);
          ("actor", JStr (actor e));
          ("source_zone", JStr (source_zone e));
          ("details", d);
          ("request_id", match request_id e with Some r => JStr r | None => JNull end) ]).

(** C2.  A new logger over an empty directory, [K >= 0] calls of [log]
    whose dated file names never go back: the returned events carry the
    arguments of their calls; every event's [event_hash] is the SHA-256
    digest of the sorted-key JSON of the dictionary of its seven other
    fields ([timestamp], [event_type], [action], [actor], [source_zone],
    [details], [request_id]) followed by its [previous_hash]; the first
    [previous_hash] is [GENESIS] and each later one is the hash of the
    event before; the files hold exactly these events, and [verify_chain]
    over them returns [(True, [])].  When the details of one stored event
    are replaced on disk and the digest of the seven fields with the new
    details is not the stored hash (SHA-256 does not collide on the two
    contents), [verify_chain] returns [False] with the single error
    [<file>:<line>: Hash mismatch ...] for the file and the 1-based line
    of that event. *)
Theorem chain_verifies_and_detects_tampering (calls : list LogCall) :
  dates_ascend (List.map (fun c => _get_log_file (c_date c)) calls) = true ->
  let run := log_all sha256_hex dumps_sorted calls (new [] None) in
  let events := fst run in
  let lg := snd run in
  length events = length calls /\
  Forall2 (fun c e =>
             timestamp e = c_timestamp c /\
             event_type e = AuditEventType_value (c_event_type c) /\
             action e = c_action c /\
             actor e = c_actor c /\
             source_zone e = c_source_zone c /\
             details e = details_or_empty (c_details c) /\
             request_id e = c_request_id c)
    calls events /\
  (forall i e, nth_error events i = Some e ->
               event_hash e
               = sha256_hex (dumps_sorted (seven_fields e (details e))
                               ++ previous_hash e)%string) /\
  (forall e, nth_error events 0 = Some e -> previous_hash e = "GENESIS") /\
  (forall i e1 e2, nth_error events i = Some e1 -> nth_error events (S i) = Some e2 ->
                   previous_hash e2 = event_hash e1) /\
  lines_of (files lg) = List.map EventLine events /\
  verify_chain sha256_hex dumps_sorted None lg = Ok (true, []) /\
  (forall fs1 fname l1 e l2 fs2 d,
      files lg = fs1 ++ (fname, l1 ++ EventLine e :: l2) :: fs2 ->
      sha256_hex (dumps_sorted (seven_fields e d) ++ previous_hash e)%string
      <> event_hash e ->
      verify_chain sha256_hex dumps_sorted None
        (mkAuditLogger (fs1 ++ (fname, l1 ++ EventLine (with_details d e) :: l2) :: fs2)
           (chain_file lg) (_previous_hash lg))
      = Ok (false,
            [(fname ++ ":" ++ str_of_nat (S (length l1))
                ++ ": Hash mismatch - event may have been tampered")%string])).
Proof.
  intros Hdates run events lg.
  set (last := match calls with
               | [] => ""
               | c :: _ => _get_log_file (c_date c)
               end).
  assert (Hs : sound (new [] None) [] last).
  { unfold sound, ordered, below. cbn. repeat split; constructor. }
  assert (Hd : dates_ascend (last :: List.map (fun c => _get_log_file (c_date c)) calls)
               = true).
  { subst last. destruct calls as [|c calls']; [reflexivity|].
    cbn [List.map] in *. cbn [dates_ascend]. rewrite file_le_refl. exact Hdates. }
  pose proof (log_all_sound calls (new [] None) [] last Hs Hd) as H.
  pose proof (log_all_fields calls (new [] None)) as Hfields.
  fold run in H, Hfields. destruct run as [es lg'] eqn:Hrun. subst events lg.
  cbn [fst snd] in *.
  destruct H as (Hlen & Hlinked & last' & Hsound). cbn [app] in Hsound.
  destruct Hsound as (Hlines & Hl & Hprev & _ & _).
  destruct (linked_nth "GENESIS" es Hl) as (N1 & N2 & N3).
  split; [exact Hlen|]. split; [exact Hfields|]. split; [exact N1|].
  split; [exact N2|]. split; [exact N3|]. split; [exact Hlines|].
  split.
  - unfold verify_chain. rewrite (verify_files_linked (files lg') es "GENESIS" [] Hlines Hl).
    reflexivity.
  - intros fs1 fname l1 e l2 fs2 d Hfiles Hneq.
    unfold verify_chain. cbn [files].
    rewrite Hfiles in Hlines.
    rewrite (verify_one_tampered fs1 fname l1 e l2 fs2 d es Hlines Hl Hneq).
    reflexivity.
Qed.

End Chain.

Lemma chain_verifies_and_detects_tampering_witness :
  dates_ascend (List.map (fun c => _get_log_file (c_date c)) calls0) = true /\
  verify_chain plain_digest render None log0 = Ok (true, []) /\
  verify_chain plain_digest render None
    (mkAuditLogger
       ([] ++ ("audit-2026-01-01.jsonl",
               [first_line] ++ EventLine (with_details forged second_event) :: [])
           :: next_day)
       (chain_file log0) (_previous_hash log0))
  = Ok (false,
        [("audit-2026-01-01.jsonl" ++ ":" ++ str_of_nat 2
            ++ ": Hash mismatch - event may have been tampered")%string]).
Proof.
  assert (Hd : dates_ascend (List.map (fun c => _get_log_file (c_date c)) calls0) = true)
    by (vm_compute; reflexivity).
  pose proof (chain_verifies_and_detects_tampering plain_digest render calls0 Hd) as H.
  cbv zeta in H. destruct H as (_ & _ & _ & _ & _ & _ & Hok & Htamper).
  split; [exact Hd|]. split; [exact Hok|].
  apply (Htamper [] "audit-2026-01-01.jsonl" [first_line] second_event [] next_day forged).
  - vm_compute. reflexivity.
  - vm_compute. discriminate.
Defined.

End AuditFacts.

(** ** More on capability requests and the policy engine *)

Module RequestFacts.
Import Py Executor Scenario.

Lemma set_policy_same (st : ZoneExecutor) : set_policy (policy st) st = st.
Proof. destruct st; reflexivity. Qed.

(** A request for an action that is not a key of the descriptor table
    (the empty name of a message without [action] included) is answered
    ["denied"] with error ["action_not_allowed"]; no counter, pending
    approval or other attribute of the executor changes. *)
Theorem unknown_action_request_denied (clk : Clock) (m : Message) (st : ZoneExecutor) :
  let action := default "" (m_action m) in
  assoc action Policy.ALLOWED_ACTIONS = None ->
  handle_capability_request clk m st
  = (Ok [ ("type", JStr "capability_response");
          ("request_id", JStr (default "" (m_request_id m)));
          ("status", JStr "denied");
          ("error", JStr "action_not_allowed");
          ("message",
           JStr ("Action '" ++ action ++ "' is not in the allowed actions list")) ],
     st).
Proof.
  intros action Hnone. unfold handle_capability_request, Policy.check_action.
  fold action. rewrite Hnone, set_policy_same. reflexivity.
Qed.

Lemma unknown_action_request_denied_witness :
  fst (handle_capability_request clk0 (request "capability_request" "delete_all_data" None)
         (start (new None)))
  = Ok [ ("type", JStr "capability_response");
         ("request_id", JStr "r1");
         ("status", JStr "denied");
         ("error", JStr "action_not_allowed");
         ("message",
          JStr "Action 'delete_all_data' is not in the allowed actions list") ].
Proof.
  rewrite (unknown_action_request_denied clk0
             (request "capability_request" "delete_all_data" None) (start (new None))
             eq_refl).
  reflexivity.
Defined.

(** For an action whose approval level is [NONE] and whose counter is
    below its cap, the request is answered ["approved"]; the response has
    no [approval_id], nothing is added to the pending approvals, and the
    action's counter goes up by one. *)
Theorem read_action_request_approved (clk : Clock) (m : Message) (st : ZoneExecutor)
    (action : string) (p : Policy.ActionPolicy) (n : nat) :
  m_action m = Some action ->
  assoc action Policy.ALLOWED_ACTIONS = Some p ->
  Policy.requires_approval p = Policy.NONE ->
  Policy.parse_limit (Policy.rate_limit p) = Some n ->
  (Policy.counter (policy st) action < n)%nat ->
  exists resp st',
    handle_capability_request clk m st = (Ok resp, st') /\
    field "status" resp = Some (JStr "approved") /\
    field "approval_id" resp = None /\
    pending_approvals st' = pending_approvals st /\
    Policy.counter (policy st') action = S (Policy.counter (policy st) action).
Proof.
  intros Hm Hp Hlvl Hn Hlt.
  unfold handle_capability_request, Policy.check_action, Policy._check_rate_limit.
  rewrite Hm. change (default "" (Some action)) with action. rewrite Hp, Hn.
  destruct (Nat.leb_spec n (Policy.counter (policy st) action)) as [Hle|_]; [lia|].
  rewrite Hlvl. cbn [Policy.ApprovalLevel_eqb negb].
  eexists _, _. split; [reflexivity|]. repeat split.
  cbn [policy set_policy]. rewrite PolicyFacts.counter_insert_eq. lia.
Qed.

Lemma read_action_request_approved_witness :
  exists resp st',
    handle_capability_request clk0 (request "capability_request" "read_email" None)
      (start (new None)) = (Ok resp, st') /\
    field "status" resp = Some (JStr "approved") /\
    field "approval_id" resp = None /\
    pending_approvals st' = pending_approvals (start (new None)) /\
    Policy.counter (policy st') "read_email"
    = S (Policy.counter (policy (start (new None))) "read_email").
Proof.
  refine (read_action_request_approved clk0
            (request "capability_request" "read_email" None) (start (new None))
            "read_email"
            (Policy.mkActionPolicy Policy.NONE "100/hour"
               "Read emails (no approval needed)") 100
            eq_refl eq_refl eq_refl eq_refl _).
  rewrite PolicyFacts.counter_new. lia.
Defined.

Lemma cap_positive (action : string) (n : nat) :
  Policy.cap action = Some n -> (0 < n)%nat.
Proof.
  unfold Policy.cap, Policy.ALLOWED_ACTIONS. cbn [assoc].
  repeat (destruct (String.eqb action _);
          [ vm_compute; intros [= <-]; lia | ]).
  discriminate.
Qed.

(** [reset_rate_limits] gives every action of the table its whole budget
    back: whatever the counters were, the next [check_action] for the
    action is allowed and leaves its counter at one. *)
Theorem reset_restores_budget (action : string) (n : nat) (params : json)
    (pe : Policy.PolicyEngine) :
  Policy.cap action = Some n ->
  exists r pe',
    Policy.check_action action params (Policy.reset_rate_limits pe) = Some (r, pe') /\
    Policy.allowed r = true /\
    Policy.counter pe' action = 1%nat.
Proof.
  intros Hcap. pose proof (cap_positive action n Hcap) as Hpos.
  destruct (PolicyFacts.check_action_below action n params
              (Policy.reset_rate_limits pe) Hcap) as (r & pe' & H & Hal & Hc & _).
  - change (Policy.reset_rate_limits pe) with Policy.new.
    rewrite PolicyFacts.counter_new. exact Hpos.
  - exists r, pe'. split; [exact H|]. split; [exact Hal|].
    rewrite Hc. change (Policy.reset_rate_limits pe) with Policy.new.
    rewrite PolicyFacts.counter_new. reflexivity.
Qed.

Lemma reset_restores_budget_witness :
  exists r pe',
    Policy.check_action "make_call" (JObj [])
      (Policy.reset_rate_limits (Policy.mkPolicyEngine {[ "make_call" := 5%nat ]}))
    = Some (r, pe') /\
    Policy.allowed r = true /\
    Policy.counter pe' "make_call" = 1%nat.
Proof.
  refine (reset_restores_budget "make_call" 5 (JObj [])
            (Policy.mkPolicyEngine {[ "make_call" := 5%nat ]}) _).
  vm_compute. reflexivity.
Defined.

End RequestFacts.

(** ** More on the kill switch *)

Module KillFacts.
Import Py KillSwitch Executor.

Lemma trigger_kills (r : KillReason) (d b t : string) (st : ZoneExecutor) :
  is_killed (kill_switch (snd (trigger wiring r d b t st))) = true.
Proof.
  unfold trigger, _execute_shutdown, is_killed. cbn.
  destruct (_killed (kill_switch st)) eqn:Hk;
    destruct (_kill_event (kill_switch st)) as [e|] eqn:He; cbn; auto.
Qed.

(** A second [trigger] of the executor's kill switch, for whatever reason
    and by whomever, returns the event of the first and changes nothing:
    no callback runs again and the marker file is not rewritten. *)
Theorem trigger_twice_returns_first_event
    (r1 r2 : KillReason) (d1 b1 t1 d2 b2 t2 : string) (st : ZoneExecutor) :
  let first := trigger wiring r1 d1 b1 t1 st in
  is_Some (fst first) /\
  is_killed (kill_switch (snd first)) = true /\
  trigger wiring r2 d2 b2 t2 (snd first) = first.
Proof.
  unfold trigger, _execute_shutdown. cbn.
  destruct (_killed (kill_switch st)) eqn:Hk;
    destruct (_kill_event (kill_switch st)) as [e|] eqn:He; cbn;
    rewrite ?Hk, ?He; cbn; repeat split; eauto.
Qed.

(** The first [trigger] on an executor that is not killed: the event is
    built from the arguments, the handler table is installed, the
    executor is no longer running, the watchers are told to end and the
    marker file holds the four lines for the event; policy counters,
    credentials cache, anomaly windows and pending approvals stay.  The
    server socket is closed when [trigger] runs on a thread that is not
    a watcher of the kill file.  On a watcher's own thread, as when the
    kill file is found, the shutdown callback fails at joining that
    thread, before the socket is closed: the socket stays as it was. *)
Theorem first_trigger_stops_the_executor
    (who : Caller) (r : KillReason) (d b t : string) (st : ZoneExecutor) :
  is_killed (kill_switch st) = false ->
  let e := mkKillEvent t r d b in
  let '(returned, st') := trigger (wiring_on who) r d b t st in
  returned = Some e /\
  kill_switch st' = mkKillSwitch false true (Some e) (Some (marker e)) /\
  running st' = false /\
  listening st' = match who with
                  | Watcher => listening st
                  | Elsewhere => false
                  end /\
  handlers st' = Some handler_table /\
  policy st' = policy st /\
  credentials st' = credentials st /\
  anomaly_detector st' = anomaly_detector st /\
  pending_approvals st' = pending_approvals st.
Proof.
  intros Hk. unfold is_killed in Hk. cbv zeta.
  unfold trigger, _execute_shutdown. cbn. rewrite Hk.
  destruct who; cbn; repeat split.
Qed.

Lemma first_trigger_stops_the_executor_witness :
  running (start (new None)) = true /\
  running (snd (trigger wiring MANUAL "test" "remote" "2026-01-01T00:00:00+00:00"
                  (start (new None)))) = false /\
  listening (snd (trigger wiring MANUAL "test" "remote" "2026-01-01T00:00:00+00:00"
                    (start (new None)))) = false /\
  KILL_FILE (kill_switch
               (snd (trigger wiring MANUAL "test" "remote" "2026-01-01T00:00:00+00:00"
                       (start (new None)))))
  = Some ("KILLED: manual" ++ String "010"
            ("TIME: 2026-01-01T00:00:00+00:00" ++ String "010"
               ("BY: remote" ++ String "010" ("DETAILS: test" ++ String "010" ""))))%string /\
  running (snd (trigger (wiring_on Watcher) FILE_TRIGGER "Kill file detected: HALT_ALL"
                  "file_watcher" "2026-01-01T00:00:00+00:00" (start (new None)))) = false /\
  listening (snd (trigger (wiring_on Watcher) FILE_TRIGGER "Kill file detected: HALT_ALL"
                    "file_watcher" "2026-01-01T00:00:00+00:00" (start (new None)))) = true.
Proof.
  pose proof (first_trigger_stops_the_executor Elsewhere MANUAL "test" "remote"
                "2026-01-01T00:00:00+00:00" (start (new None)) eq_refl) as H.
  pose proof (first_trigger_stops_the_executor Watcher FILE_TRIGGER
                "Kill file detected: HALT_ALL" "file_watcher"
                "2026-01-01T00:00:00+00:00" (start (new None)) eq_refl) as H'.
  cbv zeta in H, H'. fold wiring in H.
  destruct (trigger wiring MANUAL "test" "remote" "2026-01-01T00:00:00+00:00"
              (start (new None))) as [returned st1].
  destruct (trigger (wiring_on Watcher) FILE_TRIGGER "Kill file detected: HALT_ALL"
              "file_watcher" "2026-01-01T00:00:00+00:00" (start (new None)))
    as [returned' st2].
  destruct H as (_ & Hks & Hrun & Hl & _). destruct H' as (_ & _ & Hrun' & Hl' & _).
  cbn [snd]. split; [reflexivity|]. split; [exact Hrun|]. split; [exact Hl|].
  split; [rewrite Hks; reflexivity|]. split; [exact Hrun' | exact Hl'].
Defined.

(** [reset] after a kill clears the killed flag and the event and removes
    the marker file, but restarts nothing: the executor stays stopped
    (its socket closed, unless the kill ran on a watcher's own thread and
    left it as it was), the watchers stay ended and the handler table
    stays installed.  A later [trigger] then records a new event.  On a
    switch that is not killed [reset] returns [False] and changes
    nothing. *)
Theorem reset_clears_kill_but_restarts_nothing
    (by_thread : Caller) (r : KillReason) (d b t who : string) (st : ZoneExecutor) :
  is_killed (kill_switch st) = false ->
  reset_kill_switch who st = (false, st) /\
  let killed := snd (trigger (wiring_on by_thread) r d b t st) in
  let '(done, st') := reset_kill_switch who killed in
  done = true /\
  kill_switch st' = mkKillSwitch false false None None /\
  running st' = false /\
  listening st' = match by_thread with
                  | Watcher => listening st
                  | Elsewhere => false
                  end /\
  handlers st' = Some handler_table /\
  (forall thread r2 d2 b2 t2,
      fst (trigger (wiring_on thread) r2 d2 b2 t2 st') = Some (mkKillEvent t2 r2 d2 b2)).
Proof.
  unfold is_killed. intros Hk. split.
  - unfold reset_kill_switch, reset_in, reset. cbn. rewrite Hk. reflexivity.
  - unfold reset_kill_switch, reset_in, reset, trigger, _execute_shutdown. cbn.
    rewrite Hk. destruct by_thread; cbn; repeat split; intros []; reflexivity.
Qed.

Lemma reset_clears_kill_but_restarts_nothing_witness :
  reset_kill_switch "admin" (start (new None)) = (false, start (new None)) /\
  fst (reset_kill_switch "admin"
         (snd (trigger wiring MANUAL "test" "remote" "t" (start (new None))))) = true /\
  running (snd (reset_kill_switch "admin"
                  (snd (trigger wiring MANUAL "test" "remote" "t" (start (new None))))))
  = false /\
  listening (snd (reset_kill_switch "admin"
                    (snd (trigger (wiring_on Watcher) FILE_TRIGGER "found"
                            "file_watcher" "t" (start (new None))))))
  = true.
Proof.
  destruct (reset_clears_kill_but_restarts_nothing Elsewhere MANUAL "test" "remote" "t"
              "admin" (start (new None)) eq_refl) as [H1 H2].
  destruct (reset_clears_kill_but_restarts_nothing Watcher FILE_TRIGGER "found"
              "file_watcher" "t" "admin" (start (new None)) eq_refl) as [_ H3].
  cbv zeta in H2, H3. fold wiring in H2.
  destruct (reset_kill_switch "admin"
              (snd (trigger wiring MANUAL "test" "remote" "t" (start (new None)))))
    as [done st'].
  destruct (reset_kill_switch "admin"
              (snd (trigger (wiring_on Watcher) FILE_TRIGGER "found" "file_watcher" "t"
                      (start (new None)))))
    as [done2 st2].
  destruct H2 as (Hd & _ & Hrun & _). destruct H3 as (_ & _ & _ & Hl & _).
  cbn [fst snd]. split; [exact H1|]. split; [exact Hd|]. split; [exact Hrun | exact Hl].
Defined.

Lemma find_existsb {A : Type} (f : A -> bool) (l : list A) :
  existsb f l = match List.find f l with Some _ => true | None => false end.
Proof.
  induction l as [|x l IH]; cbn; [reflexivity|].
  destruct (f x); [reflexivity | exact IH].
Qed.

(** [check_message_for_kill] on the executor's switch returns [True]
    exactly when one of the three kill words occurs in the message after
    [str.upper()] and turning spaces into underscores.  Then the switch is
    killed, by an event of reason [TELEGRAM_COMMAND] that names the first
    kill word found and is attributed to the sender when it was not
    killed before; otherwise nothing changes. *)
Theorem kill_word_in_message_kills (str_upper : string -> string)
    (message sender now : string) (st : ZoneExecutor) :
  let folded := replace_char " " "_" (str_upper message) in
  let '(hit, st') := check_message_for_kill wiring str_upper message sender now st in
  hit = existsb (fun word => contains word folded) KILL_WORDS /\
  (hit = false -> st' = st) /\
  (hit = true ->
   is_killed (kill_switch st') = true /\
   (is_killed (kill_switch st) = false ->
    exists word,
      List.find (fun word => contains word folded) KILL_WORDS = Some word /\
      _kill_event (kill_switch st')
      = Some (mkKillEvent now TELEGRAM_COMMAND
                ("Kill word detected in message: " ++ word) sender))).
Proof.
  intros folded. unfold check_message_for_kill. fold folded.
  rewrite (find_existsb (fun word => contains word folded) KILL_WORDS).
  destruct (List.find (fun word => contains word folded) KILL_WORDS) as [word|].
  - split; [reflexivity|]. split; [discriminate|]. intros _.
    split; [apply trigger_kills|].
    unfold is_killed. intros Hk. exists word. split; [reflexivity|].
    unfold trigger, _execute_shutdown. cbn. rewrite Hk. reflexivity.
  - split; [reflexivity|]. split; [reflexivity | discriminate].
Qed.

End KillFacts.

(** ** Bursts of one action *)

Module BurstFacts.
Import Py KillSwitch AnomalyDetector Executor Scenario.

Lemma filter_keeps_all (window_start : Q) (w : list Q) :
  (forall t, In t w -> (window_start < t)%Q) ->
  List.filter (in_window window_start) w = w.
Proof.
  induction w as [|x w IH]; intros H; cbn; [reflexivity|].
  rewrite (proj2 (AnomalyFacts.in_window_iff window_start x) (H x (or_introl eq_refl))).
  rewrite IH; [reflexivity|]. intros t Ht. apply H. right. exact Ht.
Qed.

Lemma record_keeps_killed (action : string) (now : Q) (utc_now : string)
    (st : ZoneExecutor) :
  is_killed (kill_switch st) = true ->
  is_killed (kill_switch (snd (Executor.record_action action now utc_now st))) = true.
Proof.
  intros Hk. unfold Executor.record_action, AnomalyDetector.record_action.
  destruct (_ <? _)%nat; cbn [snd].
  - apply KillFacts.trigger_kills.
  - exact Hk.
Qed.

(** One recorded action on a window whose readings are all younger than
    sixty seconds. *)
Lemma record_on_fresh_window (action : string) (now : Q) (utc_now : string)
    (st : ZoneExecutor) (w0 : list Q) :
  window (anomaly_detector st) action = w0 ->
  (forall t, In t w0 -> (now - 60 < t)%Q) ->
  let '(ok, st') := Executor.record_action action now utc_now st in
  ok = (length w0 + 1 <=? threshold action)%nat /\
  window (anomaly_detector st') action = w0 ++ [now] /\
  ((threshold action < length w0 + 1)%nat -> is_killed (kill_switch st') = true).
Proof.
  intros Hw Hfresh.
  pose proof (AnomalyFacts.window_after action now utc_now st) as Hwin.
  rewrite Hw in Hwin. unfold slide in Hwin.
  rewrite (filter_keeps_all _ _ Hfresh) in Hwin.
  destruct (Executor.record_action action now utc_now st) as [ok st'] eqn:Hrec.
  cbn [snd] in Hwin. split; [|split; [exact Hwin|]].
  - unfold Executor.record_action, AnomalyDetector.record_action in Hrec.
    rewrite Hw in Hrec. unfold slide in Hrec.
    rewrite (filter_keeps_all _ _ Hfresh), length_app in Hrec. cbn [length] in Hrec.
    destruct (Nat.ltb_spec (threshold action) (length w0 + 1)) as [Hlt|Hge];
      injection Hrec as <- _; symmetry.
    + apply Nat.leb_gt. exact Hlt.
    + apply Nat.leb_le. exact Hge.
  - intros Hlt.
    unfold Executor.record_action, AnomalyDetector.record_action in Hrec.
    rewrite Hw in Hrec. unfold slide in Hrec.
    rewrite (filter_keeps_all _ _ Hfresh), length_app in Hrec. cbn [length] in Hrec.
    destruct (Nat.ltb_spec (threshold action) (length w0 + 1)) as [_|Hge]; [|lia].
    injection Hrec as _ <-. apply KillFacts.trigger_kills.
Qed.

(** A burst: readings that all lie within sixty seconds of one another,
    recorded one after the other for one action on top of a window [w0]
    of such readings.  Nothing is purged, so the window grows by one per
    call; the [i]-th call (from 0) returns [True] exactly while
    [len(w0) + i + 1] is at most the action's threshold, and when the
    burst passes the threshold the executor ends up killed. *)
Theorem burst_beyond_threshold_kills (action : string) (ticks : list (Q * string))
    (st : ZoneExecutor) (w0 : list Q) :
  window (anomaly_detector st) action = w0 ->
  (forall t t', In t (w0 ++ List.map fst ticks) -> In t' (w0 ++ List.map fst ticks) ->
                (t' - 60 < t)%Q) ->
  let '(oks, st') := record_all action ticks st in
  window (anomaly_detector st') action = w0 ++ List.map fst ticks /\
  (forall i, (i < length ticks)%nat ->
             nth_error oks i = Some (length w0 + i + 1 <=? threshold action)%nat) /\
  (ticks <> [] -> (threshold action < length w0 + length ticks)%nat ->
   is_killed (kill_switch st') = true).
Proof.
  revert st w0. induction ticks as [|[now utc_now] rest IH]; intros st w0 Hw Hnear.
  - cbn. rewrite app_nil_r. split; [exact Hw|]. split; [intros; lia | congruence].
  - cbn [record_all].
    assert (Hfresh : forall t, In t w0 -> (now - 60 < t)%Q).
    { intros t Ht. apply Hnear; apply in_or_app; [left; exact Ht | right; left; reflexivity]. }
    pose proof (record_on_fresh_window action now utc_now st w0 Hw Hfresh) as Hstep.
    destruct (Executor.record_action action now utc_now st) as [ok st1] eqn:Hrec.
    destruct Hstep as (Hok & Hw1 & Hkill1).
    assert (Hnear1 : forall t t',
               In t ((w0 ++ [now]) ++ List.map fst rest) ->
               In t' ((w0 ++ [now]) ++ List.map fst rest) -> (t' - 60 < t)%Q).
    { intros t t' Ht Ht'. rewrite <- app_assoc in Ht, Ht'. apply Hnear; assumption. }
    specialize (IH st1 (w0 ++ [now]) Hw1 Hnear1).
    destruct (record_all action rest st1) as [oks st2] eqn:Hrest.
    destruct IH as (Hw2 & Hoks & Hkill2).
    split; [|split].
    + rewrite Hw2, <- app_assoc. reflexivity.
    + intros [|i] Hi; cbn [nth_error].
      * rewrite Hok, Nat.add_0_r. reflexivity.
      * cbn [length] in Hi. rewrite (Hoks i ltac:(lia)), length_app. cbn [length].
        do 2 f_equal. lia.
    + intros _ Hlt. cbn [length] in Hlt. destruct rest as [|tick rest'].
      * cbn in Hrest. injection Hrest as _ <-.
        apply Hkill1. cbn [length] in Hlt. lia.
      * apply Hkill2; [discriminate|]. rewrite length_app. cbn [length] in *. lia.
Qed.

Lemma burst_beyond_threshold_kills_witness :
  nth_error (fst (record_all "make_call" burst_ticks (start (new None)))) 9 = Some true /\
  nth_error (fst (record_all "make_call" burst_ticks (start (new None)))) 10 = Some false /\
  is_killed (kill_switch (snd (record_all "make_call" burst_ticks (start (new None)))))
  = true.
Proof.
  pose proof (burst_beyond_threshold_kills "make_call" burst_ticks (start (new None)) []
                eq_refl) as H.
  assert (Hnear : forall t t',
             In t ([] ++ List.map fst burst_ticks) ->
             In t' ([] ++ List.map fst burst_ticks) -> (t' - 60 < t)%Q).
  { intros t t' Ht Ht'. cbn in Ht, Ht'.
    repeat (destruct Ht as [<-|Ht];
            [ repeat (destruct Ht' as [<-|Ht']; [reflexivity|]); destruct Ht' | ]).
    destruct Ht. }
  specialize (H Hnear).
  destruct (record_all "make_call" burst_ticks (start (new None))) as [oks st'].
  destruct H as (_ & Hoks & Hkill). cbn [fst snd].
  split; [exact (Hoks 9%nat ltac:(cbn; lia))|].
  split; [exact (Hoks 10%nat ltac:(cbn; lia))|].
  apply Hkill; [discriminate | cbn; lia].
Defined.

Lemma filter_drops_all (window_start : Q) (w : list Q) :
  (forall t, In t w -> (t <= window_start)%Q) ->
  List.filter (in_window window_start) w = [].
Proof.
  induction w as [|x w IH]; intros H; cbn; [reflexivity|].
  unfold in_window at 1.
  rewrite (proj2 (Qle_bool_iff x window_start) (H x (or_introl eq_refl))). cbn.
  apply IH. intros t Ht. apply H. right. exact Ht.
Qed.

Lemma threshold_at_least_one (action : string) : (1 <= threshold action)%nat.
Proof.
  unfold threshold, thresholds. cbn [assoc].
  repeat match goal with
         | |- context [String.eqb action ?s] => destruct (String.eqb action s)
         end; cbn; lia.
Qed.

(** A slow stream: when every reading comes at least sixty seconds after
    the ones before it, each call purges the whole window, returns [True]
    and leaves the kill switch alone, however many calls there are. *)
Theorem spaced_actions_never_trip (action : string) (ticks : list (Q * string))
    (st : ZoneExecutor) :
  spaced (window (anomaly_detector st) action) (List.map fst ticks) ->
  let '(oks, st') := record_all action ticks st in
  oks = List.map (fun _ => true) ticks /\
  kill_switch st' = kill_switch st /\
  (forall now utc_now, last ticks = Some (now, utc_now) ->
                       window (anomaly_detector st') action = [now]).
Proof.
  revert st. induction ticks as [|[now utc_now] rest IH]; intros st Hsp.
  - cbn. repeat split. discriminate.
  - cbn [List.map fst spaced] in Hsp. destruct Hsp as [Hold Hrest].
    cbn [record_all].
    pose proof (AnomalyFacts.window_after action now utc_now st) as Hwin.
    unfold slide in Hwin. rewrite (filter_drops_all _ _ Hold) in Hwin. cbn [app] in Hwin.
    destruct (Executor.record_action action now utc_now st) as [ok st1] eqn:Hrec.
    cbn [snd] in Hwin.
    unfold Executor.record_action, AnomalyDetector.record_action in Hrec.
    unfold slide in Hrec. rewrite (filter_drops_all _ _ Hold) in Hrec.
    cbn [app length] in Hrec.
    destruct (Nat.ltb_spec (threshold action) 1) as [Hlt|_];
      [pose proof (threshold_at_least_one action); lia|].
    injection Hrec as <- Hst1.
    assert (Hks : kill_switch st1 = kill_switch st) by (rewrite <- Hst1; reflexivity).
    rewrite <- Hwin in Hrest. specialize (IH st1 Hrest).
    destruct (record_all action rest st1) as [oks st2] eqn:Hall.
    destruct IH as (Hoks & Hks2 & Hlast).
    split; [cbn; rewrite Hoks; reflexivity|]. split; [congruence|].
    intros now' utc' Hl. destruct rest as [|tick rest'].
    + cbn in Hl. injection Hl as <- <-. cbn in Hall. injection Hall as _ <-. exact Hwin.
    + apply (Hlast now' utc'). rewrite <- Hl. reflexivity.
Qed.

Lemma spaced_actions_never_trip_witness :
  fst (record_all "make_call" [(0%Q, "a"); (60%Q, "b"); (120%Q, "c")] (start (new None)))
  = [true; true; true] /\
  window (anomaly_detector
            (snd (record_all "make_call" [(0%Q, "a"); (60%Q, "b"); (120%Q, "c")]
                    (start (new None))))) "make_call" = [120%Q].
Proof.
  pose proof (spaced_actions_never_trip "make_call"
                [(0%Q, "a"); (60%Q, "b"); (120%Q, "c")] (start (new None))) as H.
  assert (Hsp : spaced (window (anomaly_detector (start (new None))) "make_call")
                  (List.map fst [(0%Q, "a"); (60%Q, "b"); (120%Q, "c")])).
  { cbn. repeat split; intros t Ht; cbn in Ht;
      repeat (destruct Ht as [<-|Ht]; [discriminate|]); destruct Ht. }
  specialize (H Hsp).
  destruct (record_all "make_call" [(0%Q, "a"); (60%Q, "b"); (120%Q, "c")]
              (start (new None))) as [oks st'].
  destruct H as (Hoks & _ & Hlast). cbn [fst snd].
  split; [exact Hoks | exact (Hlast 120%Q "c" eq_refl)].
Defined.

End BurstFacts.

(** ** Approvals and execution *)

Module ApprovalFacts.
Import Py Executor Scenario.

Lemma set_credentials_same (st : ZoneExecutor) : set_credentials (credentials st) st = st.
Proof. destruct st; reflexivity. Qed.

(** What [record_action] leaves alone. *)
Lemma record_preserves (action : string) (now : Q) (utc_now : string)
    (st : ZoneExecutor) :
  let st' := snd (record_action action now utc_now st) in
  policy st' = policy st /\
  credentials st' = credentials st /\
  pending_approvals st' = pending_approvals st.
Proof.
  unfold record_action, AnomalyDetector.record_action.
  destruct (_ <? _)%nat; cbn [snd]; [|repeat split].
  unfold KillSwitch.trigger, KillSwitch._execute_shutdown. cbn.
  destruct (KillSwitch._killed (kill_switch st)),
           (KillSwitch._kill_event (kill_switch st)); repeat split.
Qed.

(** A refusal by the detector comes with a kill. *)
Lemma record_false_kills (action : string) (now : Q) (utc_now : string)
    (st st1 : ZoneExecutor) :
  record_action action now utc_now st = (false, st1) ->
  KillSwitch.is_killed (kill_switch st1) = true.
Proof.
  unfold record_action, AnomalyDetector.record_action.
  destruct (_ <? _)%nat; [|discriminate].
  intros [= <-]. apply KillFacts.trigger_kills.
Qed.

Lemma non_provider_needs_no_secret (action : string) :
  is_provider_action action = false ->
  assoc action Credentials.action_to_secrets = None.
Proof.
  unfold is_provider_action, provider_actions, Credentials.action_to_secrets.
  cbn [existsb assoc].
  repeat match goal with
         | |- context [String.eqb action ?s] => destruct (String.eqb action s)
         end; cbn; congruence.
Qed.

(** The execute handler once the approval id is accepted, the credentials
    are loaded and the switch is not killed. *)
Lemma execute_after_checks (env : Env) (clk : Clock) (m : Message) (st : ZoneExecutor)
    (creds : list (string * string)) (ci : Credentials.CredentialInjector)
    (ok : bool) (st1 : ZoneExecutor) :
  let action := default "" (m_action m) in
  let params := default (JObj []) (m_params m) in
  truthy (m_approval_id m) && negb (is_pending (m_approval_id m) st) = false ->
  Credentials.inject_for_action (sops env) action (credentials st) = (Ok creds, ci) ->
  KillSwitch.is_killed (kill_switch st) = false ->
  record_action action (time_time clk) (utc_iso clk) (set_credentials ci st) = (ok, st1) ->
  handle_capability_execute env clk m st
  = if ok then
      match outcome env clk action params creds with
      | Ok r =>
          if truthy (m_approval_id m) then
            (Ok (execute_success action r),
             set_pending_approvals
               (delete (default "" (m_approval_id m)) (pending_approvals st1)) st1)
          else (Ok (execute_success action r), st1)
      | Raise e => (Ok (execute_error action (exn_str e)), st1)
      end
    else (Ok (execute_error action "Action blocked by anomaly detector"), st1).
Proof.
  intros action params Hgood Hc Hk Hrec.
  pose proof (record_preserves action (time_time clk) (utc_iso clk)
                (set_credentials ci st)) as (_ & _ & Hpend).
  rewrite Hrec in Hpend. cbn [snd pending_approvals set_credentials] in Hpend.
  unfold handle_capability_execute. fold action. fold params.
  rewrite Hgood, Hc. unfold _execute_action. cbn [kill_switch set_credentials].
  unfold KillSwitch.is_killed in *. rewrite Hk, Hrec.
  destruct ok; cbn [negb]; [|reflexivity].
  rewrite ExecutorFacts.last_steps.
  destruct (outcome env clk action params creds) as [r|e]; [|reflexivity].
  destruct (truthy (m_approval_id m)) eqn:Ht; [|reflexivity].
  cbn [andb] in Hgood. apply negb_false_iff in Hgood.
  unfold is_pending in Hgood. unfold truthy in Ht.
  destruct (m_approval_id m) as [id|]; [|discriminate].
  apply bool_decide_eq_true in Hgood. destruct Hgood as [pa Hpa].
  rewrite <- Hpend in Hpa. change (default "" (Some id)) with id.
  rewrite Hpa. reflexivity.
Qed.

Lemma pending_id_is_good (m : Message) (st : ZoneExecutor) (id : string)
    (pa : PendingApproval) :
  m_approval_id m = Some id ->
  pending_approvals st !! id = Some pa ->
  truthy (m_approval_id m) && negb (is_pending (m_approval_id m) st) = false.
Proof.
  intros Hm Hpa. rewrite Hm. unfold is_pending. rewrite Hpa.
  rewrite bool_decide_eq_true_2 by eauto. apply andb_false_r.
Qed.

(** An approval id is good for one successful execute.  With a pending id
    on the message (whatever action the id was issued for), credentials
    loaded, the switch not killed and the detector letting the action
    through: when the action succeeds the id is deleted from the pending
    approvals, and any later execute carrying it is answered
    "Invalid or expired approval ID"; when the action raises, the error is
    returned and the id stays pending. *)
Theorem approval_is_single_use (env : Env) (clk : Clock) (m : Message)
    (st : ZoneExecutor) (id : string) (pa : PendingApproval)
    (creds : list (string * string)) (ci : Credentials.CredentialInjector)
    (st1 : ZoneExecutor) :
  let action := default "" (m_action m) in
  let params := default (JObj []) (m_params m) in
  m_approval_id m = Some id ->
  id <> "" ->
  pending_approvals st !! id = Some pa ->
  Credentials.inject_for_action (sops env) action (credentials st) = (Ok creds, ci) ->
  KillSwitch.is_killed (kill_switch st) = false ->
  record_action action (time_time clk) (utc_iso clk) (set_credentials ci st) = (true, st1) ->
  match outcome env clk action params creds with
  | Ok r =>
      exists st',
        handle_capability_execute env clk m st = (Ok (execute_success action r), st') /\
        pending_approvals st' = delete id (pending_approvals st) /\
        (forall env' clk' m',
            m_approval_id m' = Some id ->
            handle_capability_execute env' clk' m' st' = (Ok invalid_approval, st'))
  | Raise e =>
      handle_capability_execute env clk m st
      = (Ok (execute_error action (exn_str e)), st1) /\
      pending_approvals st1 !! id = Some pa
  end.
Proof.
  intros action params Hm Hne Hpa Hc Hk Hrec.
  pose proof (execute_after_checks env clk m st creds ci true st1
                (pending_id_is_good m st id pa Hm Hpa) Hc Hk Hrec) as Hexec.
  cbv zeta in Hexec. fold action in Hexec. fold params in Hexec.
  pose proof (record_preserves action (time_time clk) (utc_iso clk)
                (set_credentials ci st)) as (_ & _ & Hpend).
  rewrite Hrec in Hpend. cbn [snd pending_approvals set_credentials] in Hpend.
  assert (Ht : truthy (m_approval_id m) = true).
  { rewrite Hm. cbn. destruct (String.eqb_spec id ""); [contradiction | reflexivity]. }
  destruct (outcome env clk action params creds) as [r|e].
  - rewrite Ht, Hm in Hexec. change (default "" (Some id)) with id in Hexec.
    eexists. split; [exact Hexec|]. cbn [pending_approvals set_pending_approvals].
    split; [rewrite Hpend; reflexivity|].
    intros env' clk' m' Hm'. unfold handle_capability_execute.
    rewrite Hm'. unfold is_pending. cbn [pending_approvals set_pending_approvals truthy].
    rewrite lookup_delete_eq.
    rewrite bool_decide_eq_false_2 by (intros [x Hx]; discriminate).
    destruct (String.eqb_spec id ""); [contradiction | reflexivity].
  - split; [exact Hexec|]. rewrite Hpend. exact Hpa.
Qed.

Lemma approval_is_single_use_witness :
  exists st',
    handle_capability_execute env0 clk0
      (request "capability_execute" "send_email"
         (Some "approval_20260101000000_send_email"))
      (snd (handle_capability_request clk0
              (request "capability_request" "send_email" None) (start (new None))))
    = (Ok (execute_success "send_email" (JObj [("ok", JBool true)])), st') /\
    (forall env' clk' m',
        m_approval_id m' = Some "approval_20260101000000_send_email" ->
        handle_capability_execute env' clk' m' st' = (Ok invalid_approval, st')).
Proof.
  destruct (record_action "send_email" (time_time clk0) (utc_iso clk0)
              (set_credentials
                 (Credentials.mkCredentialInjector {[ "api-keys.yaml" := secrets0 ]})
                 (snd (handle_capability_request clk0
                         (request "capability_request" "send_email" None)
                         (start (new None)))))) as [ok st1] eqn:Hrec.
  assert (ok = true) as -> by (apply (f_equal fst) in Hrec; vm_compute in Hrec; congruence).
  pose proof
    (approval_is_single_use env0 clk0
       (request "capability_execute" "send_email"
          (Some "approval_20260101000000_send_email"))
       (snd (handle_capability_request clk0
               (request "capability_request" "send_email" None) (start (new None))))
       "approval_20260101000000_send_email"
       (mkPendingApproval "send_email" (JObj []) "r1" (utc_iso clk0))
       [("gmail_token", "g-token")]
       (Credentials.mkCredentialInjector {[ "api-keys.yaml" := secrets0 ]})
       st1 eq_refl ltac:(discriminate) ltac:(vm_compute; reflexivity)
       ltac:(vm_compute; reflexivity) eq_refl Hrec) as H.
  cbn [outcome is_provider_action provider_actions existsb] in H.
  change (outcome env0 clk0
            (default ""
               (m_action
                  (request "capability_execute" "send_email"
                     (Some "approval_20260101000000_send_email"))))
            (default (JObj [])
               (m_params
                  (request "capability_execute" "send_email"
                     (Some "approval_20260101000000_send_email"))))
            [("gmail_token", "g-token")])
    with (@Ok json (JObj [("ok", JBool true)])) in H.
  destruct H as (st' & H1 & _ & H3).
  exists st'. split; [exact H1 | exact H3].
Defined.

(** When the detector refuses the action, the execute is answered
    "Action blocked by anomaly detector", the executor is killed from
    then on, and the pending approvals are as they were. *)
Theorem detector_refusal_kills (env : Env) (clk : Clock) (m : Message)
    (st : ZoneExecutor) (creds : list (string * string))
    (ci : Credentials.CredentialInjector) (st1 : ZoneExecutor) :
  let action := default "" (m_action m) in
  truthy (m_approval_id m) && negb (is_pending (m_approval_id m) st) = false ->
  Credentials.inject_for_action (sops env) action (credentials st) = (Ok creds, ci) ->
  KillSwitch.is_killed (kill_switch st) = false ->
  record_action action (time_time clk) (utc_iso clk) (set_credentials ci st) = (false, st1) ->
  handle_capability_execute env clk m st
  = (Ok (execute_error action "Action blocked by anomaly detector"), st1) /\
  KillSwitch.is_killed (kill_switch st1) = true /\
  pending_approvals st1 = pending_approvals st.
Proof.
  intros action Hgood Hc Hk Hrec. split; [|split].
  - exact (execute_after_checks env clk m st creds ci false st1 Hgood Hc Hk Hrec).
  - exact (record_false_kills _ _ _ _ _ Hrec).
  - pose proof (record_preserves action (time_time clk) (utc_iso clk)
                  (set_credentials ci st)) as (_ & _ & Hpend).
    rewrite Hrec in Hpend. exact Hpend.
Qed.

Lemma detector_refusal_kills_witness :
  fst (handle_capability_execute env0 clk11
         (request "capability_execute" "make_call" None) busy0)
  = Ok (execute_error "make_call" "Action blocked by anomaly detector") /\
  KillSwitch.is_killed (kill_switch busy0) = false /\
  KillSwitch.is_killed
    (kill_switch (snd (handle_capability_execute env0 clk11
                         (request "capability_execute" "make_call" None) busy0)))
  = true.
Proof.
  destruct (record_action "make_call" (time_time clk11) (utc_iso clk11)
              (set_credentials
                 (Credentials.mkCredentialInjector {[ "api-keys.yaml" := secrets0 ]})
                 busy0)) as [ok st1] eqn:Hrec.
  assert (ok = false) as -> by (apply (f_equal fst) in Hrec; vm_compute in Hrec; congruence).
  assert (Hc : Credentials.inject_for_action (sops env0)
                 (default "" (m_action (request "capability_execute" "make_call" None)))
                 (credentials busy0)
               = (Ok [("twilio_account_sid", "sid"); ("twilio_auth_token", "auth")],
                  Credentials.mkCredentialInjector {[ "api-keys.yaml" := secrets0 ]}))
    by (vm_compute; reflexivity).
  assert (Hk : KillSwitch.is_killed (kill_switch busy0) = false)
    by (vm_compute; reflexivity).
  destruct (detector_refusal_kills env0 clk11
              (request "capability_execute" "make_call" None) busy0 _ _
              st1 eq_refl Hc Hk Hrec) as (H1 & H2 & _).
  rewrite H1. cbn [fst snd]. split; [reflexivity|]. split; [exact Hk | exact H2].
Defined.

(** *** Answers to approval requests *)

(** An answer for an id that is not pending (the empty id of a message
    without one included) is an error and changes nothing.  A rejection of
    a pending id, which is what any answer without [approved: true] is,
    deletes the id and runs nothing: only the pending approvals change,
    and a second answer for the id finds it unknown. *)
Theorem rejection_deletes_the_approval (env : Env) (clk : Clock) (m : Message)
    (st : ZoneExecutor) (id : string) (pa : PendingApproval) :
  (forall m0 st0,
      pending_approvals st0 !! default "" (m_approval_id m0) = None ->
      handle_approval_response env clk m0 st0
      = (Ok [ ("type", JStr "approval_result");
              ("status", JStr "error");
              ("message", JStr "Unknown approval ID") ],
         st0)) /\
  (m_approval_id m = Some id ->
   default false (m_approved m) = false ->
   pending_approvals st !! id = Some pa ->
   let st' := set_pending_approvals (delete id (pending_approvals st)) st in
   handle_approval_response env clk m st
   = (Ok [ ("type", JStr "approval_result");
           ("status", JStr "rejected");
           ("message", JStr "Approval was denied") ],
      st') /\
   forall env' clk' m',
     m_approval_id m' = Some id ->
     handle_approval_response env' clk' m' st'
     = (Ok [ ("type", JStr "approval_result");
             ("status", JStr "error");
             ("message", JStr "Unknown approval ID") ],
        st')).
Proof.
  split.
  - intros m0 st0 Hnone. unfold handle_approval_response. rewrite Hnone. reflexivity.
  - intros Hm Hrej Hpa st'. split.
    + unfold handle_approval_response. rewrite Hm.
      change (default "" (Some id)) with id. rewrite Hpa, Hrej. reflexivity.
    + intros env' clk' m' Hm'. unfold handle_approval_response. rewrite Hm'.
      change (default "" (Some id)) with id. subst st'.
      cbn [pending_approvals set_pending_approvals]. rewrite lookup_delete_eq.
      reflexivity.
Qed.

Lemma rejection_deletes_the_approval_witness :
  handle_approval_response env0 clk0
    (decision "approval_20260101000000_send_email" false) waiting0
  = (Ok [ ("type", JStr "approval_result");
          ("status", JStr "rejected");
          ("message", JStr "Approval was denied") ],
     set_pending_approvals
       (delete "approval_20260101000000_send_email" (pending_approvals waiting0))
       waiting0).
Proof.
  refine (proj1 (proj2 (rejection_deletes_the_approval env0 clk0
                          (decision "approval_20260101000000_send_email" false)
                          waiting0 "approval_20260101000000_send_email"
                          (mkPendingApproval "send_email" (JObj []) "r1" (utc_iso clk0)))
                   eq_refl eq_refl _)).
  vm_compute. reflexivity.
Defined.

(** An approval given while the executor is killed is answered with
    status ["executed"] although nothing ran: the inner result is the
    killed-state error, and the id stays pending. *)
Theorem approval_while_killed_says_executed (env : Env) (clk : Clock) (m : Message)
    (st : ZoneExecutor) (id : string) (pa : PendingApproval)
    (creds : list (string * string)) (ci : Credentials.CredentialInjector) :
  KillSwitch.is_killed (kill_switch st) = true ->
  m_approval_id m = Some id ->
  m_approved m = Some true ->
  pending_approvals st !! id = Some pa ->
  Credentials.inject_for_action (sops env) (pa_action pa) (credentials st)
  = (Ok creds, ci) ->
  handle_approval_response env clk m st
  = (Ok [ ("type", JStr "approval_result");
          ("status", JStr "executed");
          ("result",
           JObj (execute_error (pa_action pa)
                   "System is in killed state - all actions blocked")) ],
     set_credentials ci st) /\
  pending_approvals (set_credentials ci st) !! id = Some pa.
Proof.
  intros Hk Hm Happ Hpa Hc. split; [|exact Hpa].
  unfold handle_approval_response. rewrite Hm, Happ.
  change (default "" (Some id)) with id. rewrite Hpa. cbn [default].
  unfold handle_capability_execute. cbn [m_action m_params m_approval_id].
  change (default "" (Some (pa_action pa))) with (pa_action pa).
  unfold is_pending. rewrite Hpa.
  rewrite bool_decide_eq_true_2 by eauto. rewrite andb_false_r.
  rewrite Hc. unfold _execute_action. cbn [kill_switch set_credentials].
  rewrite Hk. reflexivity.
Qed.

Lemma approval_while_killed_says_executed_witness :
  fst (handle_approval_response env0 clk0
         (decision "approval_20260101000000_send_email" true)
         (snd (handle_kill clk0 (kill_message "manual") waiting0)))
  = Ok [ ("type", JStr "approval_result");
         ("status", JStr "executed");
         ("result",
          JObj (execute_error "send_email"
                  "System is in killed state - all actions blocked")) ].
Proof.
  rewrite (proj1 (approval_while_killed_says_executed env0 clk0
                    (decision "approval_20260101000000_send_email" true)
                    (snd (handle_kill clk0 (kill_message "manual") waiting0))
                    "approval_20260101000000_send_email"
                    (mkPendingApproval "send_email" (JObj []) "r1" (utc_iso clk0))
                    [("gmail_token", "g-token")]
                    (Credentials.mkCredentialInjector {[ "api-keys.yaml" := secrets0 ]})
                    eq_refl eq_refl eq_refl ltac:(vm_compute; reflexivity)
                    ltac:(vm_compute; reflexivity))).
  reflexivity.
Defined.

(** *** Execution and the policy engine *)

Lemma execute_preserves_policy (env : Env) (clk : Clock) (m : Message)
    (st : ZoneExecutor) :
  policy (snd (handle_capability_execute env clk m st)) = policy st.
Proof.
  unfold handle_capability_execute.
  destruct (truthy (m_approval_id m) && negb (is_pending (m_approval_id m) st));
    [reflexivity|].
  destruct (Credentials.inject_for_action (sops env) (default "" (m_action m))
              (credentials st)) as [[creds|e] ci]; [|reflexivity].
  unfold _execute_action. cbn [kill_switch set_credentials].
  destruct (KillSwitch.is_killed (kill_switch st)); [reflexivity|].
  pose proof (record_preserves (default "" (m_action m)) (time_time clk) (utc_iso clk)
                (set_credentials ci st)) as (Hpol & _ & _).
  destruct (record_action (default "" (m_action m)) (time_time clk) (utc_iso clk)
              (set_credentials ci st)) as [ok st1].
  cbn [snd policy set_credentials] in Hpol.
  destruct ok; cbn [negb]; [|exact Hpol].
  rewrite ExecutorFacts.last_steps.
  destruct (outcome env clk _ _ _); [|exact Hpol].
  destruct (truthy (m_approval_id m)); [|exact Hpol].
  destruct (pending_approvals st1 !! default "" (m_approval_id m)); exact Hpol.
Qed.

(** The execute handler never reads or writes the policy engine: the
    rate counters are the same after it on every path.  An action that is
    none of the eight provider actions, and which a request would
    therefore deny, is executed when it comes without an approval id:
    no secret is loaded for it, and unless the switch is killed or the
    detector refuses, the detector records it and the answer is a success
    carrying [{"executed": true}] when the parameters are a dictionary
    (or absent), and otherwise the error of [params.keys()]. *)
Theorem execute_never_consults_policy (env : Env) (clk : Clock) (m : Message)
    (st : ZoneExecutor) :
  let action := default "" (m_action m) in
  policy (snd (handle_capability_execute env clk m st)) = policy st /\
  (is_provider_action action = false ->
   truthy (m_approval_id m) = false ->
   KillSwitch.is_killed (kill_switch st) = false ->
   forall st1,
     record_action action (time_time clk) (utc_iso clk) st = (true, st1) ->
     assoc action Policy.ALLOWED_ACTIONS = None /\
     handle_capability_execute env clk m st
     = (Ok (match default (JObj []) (m_params m) with
            | JObj _ =>
                execute_success action
                  (JObj [ ("executed", JBool true);
                          ("action", JStr action);
                          ("timestamp", JStr (utc_iso clk)) ])
            | other =>
                execute_error action
                  ("'" ++ type_name other ++ "' object has no attribute 'keys'")
            end),
        st1)).
Proof.
  intros action. split; [apply execute_preserves_policy|].
  intros Hnp Hfalsy Hk st1 Hrec. split.
  - revert Hnp. unfold is_provider_action, provider_actions, Policy.ALLOWED_ACTIONS.
    cbn [existsb assoc].
    repeat match goal with
           | |- context [String.eqb action ?s] => destruct (String.eqb action s)
           end; cbn; congruence.
  - assert (Hc : Credentials.inject_for_action (sops env) action (credentials st)
                 = (Ok [], credentials st)).
    { unfold Credentials.inject_for_action.
      rewrite (non_provider_needs_no_secret action Hnp). reflexivity. }
    assert (Hgood : truthy (m_approval_id m) && negb (is_pending (m_approval_id m) st)
                    = false) by (rewrite Hfalsy; reflexivity).
    rewrite <- (set_credentials_same st) in Hrec.
    pose proof (execute_after_checks env clk m st [] (credentials st) true st1
                  Hgood Hc Hk Hrec) as H.
    cbv zeta in H. fold action in H. unfold outcome in H.
    rewrite Hnp, Hfalsy in H. rewrite H.
    destruct (default (JObj []) (m_params m)); reflexivity.
Qed.

Lemma execute_never_consults_policy_witness :
  fst (handle_capability_request clk0 (request "capability_request" "delete_all_data" None)
         (start (new None)))
  = Ok [ ("type", JStr "capability_response");
         ("request_id", JStr "r1");
         ("status", JStr "denied");
         ("error", JStr "action_not_allowed");
         ("message",
          JStr "Action 'delete_all_data' is not in the allowed actions list") ] /\
  fst (handle_capability_execute env0 clk0
         (request "capability_execute" "delete_all_data" None) (start (new None)))
  = Ok (execute_success "delete_all_data"
          (JObj [ ("executed", JBool true);
                  ("action", JStr "delete_all_data");
                  ("timestamp", JStr (utc_iso clk0)) ])) /\
  fst (handle_capability_execute env0 clk0
         (with_params JNull (request "capability_execute" "delete_all_data" None))
         (start (new None)))
  = Ok (execute_error "delete_all_data" "'NoneType' object has no attribute 'keys'").
Proof.
  split; [reflexivity|].
  destruct (record_action "delete_all_data" (time_time clk0) (utc_iso clk0)
              (start (new None))) as [ok st1] eqn:Hrec.
  assert (ok = true) as -> by (apply (f_equal fst) in Hrec; vm_compute in Hrec; congruence).
  split.
  - rewrite (proj2 (proj2 (execute_never_consults_policy env0 clk0
                             (request "capability_execute" "delete_all_data" None)
                             (start (new None)))
                      eq_refl eq_refl eq_refl st1 Hrec)).
    reflexivity.
  - rewrite (proj2 (proj2 (execute_never_consults_policy env0 clk0
                             (with_params JNull
                                (request "capability_execute" "delete_all_data" None))
                             (start (new None)))
                      eq_refl eq_refl eq_refl st1 Hrec)).
    reflexivity.
Defined.

(** *** From request to execution *)

Lemma record_under_threshold (action : string) (now : Q) (utc_now : string)
    (st : ZoneExecutor) :
  (length (AnomalyDetector.slide now
             (AnomalyDetector.window (anomaly_detector st) action))
   <= AnomalyDetector.threshold action)%nat ->
  exists st1,
    record_action action now utc_now st = (true, st1) /\
    kill_switch st1 = kill_switch st /\
    handlers st1 = handlers st.
Proof.
  intros Hle. unfold record_action, AnomalyDetector.record_action.
  destruct (Nat.ltb_spec (AnomalyDetector.threshold action)
              (length (AnomalyDetector.slide now
                         (AnomalyDetector.window (anomaly_detector st) action))))
    as [Hlt|_]; [lia|].
  eexists. repeat split.
Qed.

(** The whole life of an approval.  A request for an [APPROVE] action
    below its cap is stored under its id; when the answer
    [approved: true] for that id arrives while the credentials load, the
    switch is not killed, the detector lets the action through and the
    provider call succeeds, the provider is called with the action and
    the parameters of the request, the answer is ["executed"] with the
    successful result inside, and the id is no longer pending. *)
Theorem approved_request_is_executed (env : Env) (clk1 clk2 : Clock)
    (m answer : Message) (st : ZoneExecutor) (action : string)
    (p : Policy.ActionPolicy) (n : nat) (creds : list (string * string))
    (ci : Credentials.CredentialInjector) (r : json) :
  let params := default (JObj []) (m_params m) in
  let id := approval_id_for clk1 action in
  m_action m = Some action ->
  assoc action Policy.ALLOWED_ACTIONS = Some p ->
  Policy.requires_approval p = Policy.APPROVE ->
  Policy.parse_limit (Policy.rate_limit p) = Some n ->
  (Policy.counter (policy st) action < n)%nat ->
  m_approval_id answer = Some id ->
  m_approved answer = Some true ->
  Credentials.inject_for_action (sops env) action (credentials st) = (Ok creds, ci) ->
  KillSwitch.is_killed (kill_switch st) = false ->
  (length (AnomalyDetector.slide (time_time clk2)
             (AnomalyDetector.window (anomaly_detector st) action))
   <= AnomalyDetector.threshold action)%nat ->
  outcome env clk2 action params creds = Ok r ->
  let st1 := snd (handle_capability_request clk1 m st) in
  pending_approvals st1 !! id
  = Some (mkPendingApproval action params (default "" (m_request_id m)) (utc_iso clk1)) /\
  fst (handle_approval_response env clk2 answer st1)
  = Ok [ ("type", JStr "approval_result");
         ("status", JStr "executed");
         ("result", JObj (execute_success action r)) ] /\
  pending_approvals (snd (handle_approval_response env clk2 answer st1)) !! id = None.
Proof.
  intros params id Hm Hp Hlvl Hn Hlt Ha Happ Hc Hk Hthr Hout.
  unfold handle_capability_request, Policy.check_action, Policy._check_rate_limit.
  rewrite Hm. change (default "" (Some action)) with action. rewrite Hp, Hn.
  destruct (Nat.leb_spec n (Policy.counter (policy st) action)) as [Hle|_]; [lia|].
  rewrite Hlvl. cbn [Policy.ApprovalLevel_eqb negb snd].
  fold id. fold params.
  set (entry := mkPendingApproval action params (default "" (m_request_id m))
                  (utc_iso clk1)).
  set (st1 := set_pending_approvals (<[id := entry]> (pending_approvals st))
                (set_policy _ st)).
  assert (Hpa : pending_approvals st1 !! id = Some entry).
  { subst st1. cbn [pending_approvals set_pending_approvals]. apply lookup_insert_eq. }
  split; [exact Hpa|].
  assert (Hne : id <> "") by discriminate.
  destruct (record_under_threshold action (time_time clk2) (utc_iso clk2)
              (set_credentials ci st1) Hthr) as (st2 & Hrec & _ & _).
  set (exec := approved_execute id entry).
  assert (Hexec : handle_capability_execute env clk2 exec st1
                  = (Ok (execute_success action r),
                     set_pending_approvals (delete id (pending_approvals st2)) st2)).
  { pose proof (execute_after_checks env clk2 exec st1 creds ci true st2
                  (pending_id_is_good exec st1 id entry eq_refl Hpa) Hc Hk Hrec) as H.
    cbv zeta in H. cbn [exec approved_execute m_action m_params m_approval_id
                          pa_action pa_params entry] in H.
    change (default "" (Some action)) with action in H.
    change (default (JObj []) (Some params)) with params in H.
    rewrite Hout in H. cbn [truthy] in H.
    destruct (String.eqb_spec id ""); [contradiction|]. cbn [negb] in H.
    change (default "" (Some id)) with id in H. exact H. }
  assert (Hresp : handle_approval_response env clk2 answer st1
                  = (Ok [ ("type", JStr "approval_result");
                          ("status", JStr "executed");
                          ("result", JObj (execute_success action r)) ],
                     set_pending_approvals (delete id (pending_approvals st2)) st2)).
  { unfold handle_approval_response. rewrite Ha, Happ.
    change (default "" (Some id)) with id. rewrite Hpa. cbn [default].
    fold (approved_execute id entry). fold exec. rewrite Hexec. reflexivity. }
  rewrite Hresp. split; [reflexivity|].
  cbn [snd pending_approvals set_pending_approvals]. apply lookup_delete_eq.
Qed.

Lemma approved_request_is_executed_witness :
  pending_approvals waiting0 !! "approval_20260101000000_send_email"
  = Some (mkPendingApproval "send_email" (JObj []) "r1" (utc_iso clk0)) /\
  fst (handle_approval_response env0 clk11
         (decision "approval_20260101000000_send_email" true) waiting0)
  = Ok [ ("type", JStr "approval_result");
         ("status", JStr "executed");
         ("result",
          JObj (execute_success "send_email" (JObj [("ok", JBool true)]))) ] /\
  pending_approvals
    (snd (handle_approval_response env0 clk11
            (decision "approval_20260101000000_send_email" true) waiting0))
    !! "approval_20260101000000_send_email" = None.
Proof.
  assert (Hc : Credentials.inject_for_action (sops env0) "send_email"
                 (credentials (start (new None)))
               = (Ok [("gmail_token", "g-token")],
                  Credentials.mkCredentialInjector {[ "api-keys.yaml" := secrets0 ]}))
    by (vm_compute; reflexivity).
  assert (Hlt : (Policy.counter (policy (start (new None))) "send_email" < 10)%nat)
    by (vm_compute; lia).
  assert (Hthr : (length (AnomalyDetector.slide (time_time clk11)
                            (AnomalyDetector.window
                               (anomaly_detector (start (new None))) "send_email"))
                  <= AnomalyDetector.threshold "send_email")%nat)
    by (vm_compute; lia).
  exact (approved_request_is_executed env0 clk0 clk11
           (request "capability_request" "send_email" None)
           (decision "approval_20260101000000_send_email" true)
           (start (new None)) "send_email"
           (Policy.mkActionPolicy Policy.APPROVE "10/hour" "Send email via Gmail API")
           10%nat [("gmail_token", "g-token")]
           (Credentials.mkCredentialInjector {[ "api-keys.yaml" := secrets0 ]})
           (JObj [("ok", JBool true)])
           eq_refl eq_refl eq_refl eq_refl Hlt eq_refl eq_refl Hc eq_refl Hthr eq_refl).
Defined.

End ApprovalFacts.

(** ** More on the audit chain *)

Module ChainFacts.
Import Py Audit AuditScenario.

Lemma dates_ascend_app_l (l1 l2 : list string) :
  dates_ascend (l1 ++ l2) = true -> dates_ascend l1 = true.
Proof.
  induction l1 as [|a l1 IH]; [reflexivity|].
  destruct l1 as [|b l1]; [reflexivity|].
  cbn [app dates_ascend] in *. intros H.
  apply andb_true_iff in H. destruct H as [Hab H].
  rewrite Hab. exact (IH H).
Qed.

Lemma dates_ascend_first (calls : list LogCall) :
  dates_ascend (List.map (fun c => _get_log_file (c_date c)) calls) = true ->
  dates_ascend
    (match calls with
     | [] => ""
     | c :: _ => _get_log_file (c_date c)
     end :: List.map (fun c => _get_log_file (c_date c)) calls) = true.
Proof.
  destruct calls as [|c calls]; [reflexivity|].
  cbn [List.map]. intros H. cbn [dates_ascend].
  rewrite AuditFacts.file_le_refl. exact H.
Qed.

Section Chain.
Variable sha256_hex : string -> string.
Variable dumps_sorted : json -> string.

Abbreviation compute_hash := (_compute_hash sha256_hex dumps_sorted).
Abbreviation linked := (chained sha256_hex dumps_sorted).
Abbreviation vlines := (verify_lines sha256_hex dumps_sorted).
Abbreviation vfiles := (verify_files sha256_hex dumps_sorted).
Abbreviation run := (log_all sha256_hex dumps_sorted).
Abbreviation verify := (verify_chain sha256_hex dumps_sorted).

Lemma empty_sound (last : string) :
  Audit.sound sha256_hex dumps_sorted (new [] None) [] last.
Proof. unfold Audit.sound, ordered, below. cbn. repeat split; constructor. Qed.

(** What a run from an empty directory leaves: the files list the
    returned events, which form a chain from [GENESIS]. *)
Lemma run_sound (calls : list LogCall) :
  dates_ascend (List.map (fun c => _get_log_file (c_date c)) calls) = true ->
  exists last,
    Audit.sound sha256_hex dumps_sorted (snd (run calls (new [] None)))
      (fst (run calls (new [] None))) last.
Proof.
  intros Hd.
  pose proof (AuditFacts.log_all_sound sha256_hex dumps_sorted calls (new [] None) [] _
                (empty_sound _) (dates_ascend_first calls Hd)) as H.
  destruct (run calls (new [] None)) as [es lg].
  destruct H as (_ & _ & last & Hs). exists last. exact Hs.
Qed.

Lemma log_all_app (calls1 calls2 : list LogCall) (lg : AuditLogger) :
  run (calls1 ++ calls2) lg
  = (fst (run calls1 lg) ++ fst (run calls2 (snd (run calls1 lg))),
     snd (run calls2 (snd (run calls1 lg)))).
Proof.
  revert lg. induction calls1 as [|c calls1 IH]; intros lg.
  - cbn. destruct (run calls2 lg); reflexivity.
  - cbn [app log_all]. destruct (log sha256_hex dumps_sorted c lg) as [e lg1].
    rewrite IH. destruct (run calls1 lg1) as [es1 lg2]. reflexivity.
Qed.

(** The hash in mind is the hash on disk. *)
Lemma log_all_saved (calls : list LogCall) (lg : AuditLogger) :
  _previous_hash lg = _load_chain_state (chain_file lg) ->
  _previous_hash (snd (run calls lg))
  = _load_chain_state (chain_file (snd (run calls lg))).
Proof.
  revert lg. induction calls as [|c calls IH]; intros lg H; [exact H|].
  cbn [log_all]. destruct (log sha256_hex dumps_sorted c lg) as [e lg1] eqn:Hlog.
  specialize (IH lg1).
  destruct (run calls lg1) as [es lg2]. cbn [snd] in *. apply IH.
  unfold log in Hlog. injection Hlog as _ <-. reflexivity.
Qed.

(** A logger created again over the directory a run has left, as after a
    restart of the process, is the logger the run ended with: it takes up
    the chain at the hash saved in [audit-chain.json].  The events logged
    before and after the restart are the events of one uninterrupted run,
    and [verify_chain] accepts the whole log. *)
Theorem restart_continues_the_chain (calls1 calls2 : list LogCall) :
  dates_ascend (List.map (fun c => _get_log_file (c_date c)) (calls1 ++ calls2)) = true ->
  let lg1 := snd (run calls1 (new [] None)) in
  let restarted := new (files lg1) (chain_file lg1) in
  restarted = lg1 /\
  fst (run calls1 (new [] None)) ++ fst (run calls2 restarted)
  = fst (run (calls1 ++ calls2) (new [] None)) /\
  verify None (snd (run calls2 restarted)) = Ok (true, []).
Proof.
  intros Hd lg1 restarted.
  assert (Hsame : restarted = lg1).
  { pose proof (log_all_saved calls1 (new [] None) eq_refl) as Hs. fold lg1 in Hs.
    subst restarted. unfold new. rewrite <- Hs. clearbody lg1.
    destruct lg1; reflexivity. }
  rewrite Hsame. split; [reflexivity|].
  destruct (run_sound (calls1 ++ calls2) Hd) as (last & Hlines & Hl & _).
  rewrite log_all_app in Hlines, Hl. cbn [fst snd] in Hlines, Hl. fold lg1 in Hlines, Hl.
  split; [rewrite log_all_app; reflexivity|].
  unfold verify_chain.
  rewrite (AuditFacts.verify_files_linked sha256_hex dumps_sorted _ _ "GENESIS" []
             Hlines Hl).
  reflexivity.
Qed.

(** [verify_chain] reads the log files only, never [audit-chain.json]:
    when the last events of a run are cut off the log, what is left is
    accepted as a valid chain although the saved hash is that of an event
    no longer there. *)
Theorem cut_off_tail_is_not_detected (calls1 calls2 : list LogCall) :
  dates_ascend (List.map (fun c => _get_log_file (c_date c)) (calls1 ++ calls2)) = true ->
  let lg1 := snd (run calls1 (new [] None)) in
  let lg2 := snd (run (calls1 ++ calls2) (new [] None)) in
  lines_of (files lg2)
  = lines_of (files lg1) ++ List.map EventLine (fst (run calls2 lg1)) /\
  _previous_hash lg2 = tip (_previous_hash lg1) (fst (run calls2 lg1)) /\
  verify None (mkAuditLogger (files lg1) (chain_file lg2) (_previous_hash lg2))
  = Ok (true, []).
Proof.
  intros Hd lg1 lg2.
  assert (Hd1 : dates_ascend (List.map (fun c => _get_log_file (c_date c)) calls1) = true).
  { rewrite map_app in Hd. exact (dates_ascend_app_l _ _ Hd). }
  destruct (run_sound calls1 Hd1) as (last1 & Hlines1 & Hl1 & Hp1 & _).
  destruct (run_sound (calls1 ++ calls2) Hd) as (last2 & Hlines2 & _ & Hp2 & _).
  fold lg1 in Hlines1, Hp1. fold lg2 in Hlines2, Hp2.
  rewrite log_all_app in Hlines2, Hp2. cbn [fst] in Hlines2, Hp2. fold lg1 in Hlines2, Hp2.
  split; [|split].
  - rewrite Hlines2, Hlines1, map_app. reflexivity.
  - rewrite Hp2, Hp1, AuditFacts.tip_app. reflexivity.
  - unfold verify_chain. cbn [files].
    rewrite (AuditFacts.verify_files_linked sha256_hex dumps_sorted _ _ "GENESIS" []
               Hlines1 Hl1).
    reflexivity.
Qed.

(** A log with one line that is not JSON put between two of its lines:
    the check of that line adds the only error, and the chain goes on
    behind it. *)
Lemma verify_one_garbage (fs1 : LogFiles) (fname : string) (l1 l2 : list Line)
    (fs2 : LogFiles) (raw msg : string) (events : list AuditEvent) :
  lines_of (fs1 ++ (fname, l1 ++ l2) :: fs2) = List.map EventLine events ->
  linked "GENESIS" events ->
  vfiles (fs1 ++ (fname, l1 ++ BadLine raw msg :: l2) :: fs2) ("GENESIS", [])
  = (tip "GENESIS" events, [invalid_json_error fname (S (length l1)) msg]).
Proof.
  intros Hlines Hlinked.
  rewrite AuditFacts.lines_of_app, AuditFacts.lines_of_cons in Hlines.
  destruct (AuditFacts.map_EventLine_app _ _ _ Hlines) as (a & r1 & -> & Ha & Hr1).
  destruct (AuditFacts.map_EventLine_app _ _ _ Hr1) as (m & c2 & -> & Hm & Hc2).
  destruct (AuditFacts.map_EventLine_app _ _ _ Hm) as (b & c & -> & Hb & Hc).
  subst l1 l2.
  apply AuditFacts.linked_app in Hlinked. destruct Hlinked as [La Lr].
  apply AuditFacts.linked_app in Lr. destruct Lr as [Lm Lc2].
  apply AuditFacts.linked_app in Lm. destruct Lm as [Lb Lc].
  rewrite AuditFacts.verify_files_app. cbn [verify_files].
  rewrite (AuditFacts.verify_files_linked sha256_hex dumps_sorted fs1 a "GENESIS" [] Ha La).
  rewrite AuditFacts.verify_lines_app.
  rewrite (AuditFacts.verify_lines_linked sha256_hex dumps_sorted fname 1 b
             (tip "GENESIS" a) [] Lb).
  cbn [verify_lines verify_line app].
  rewrite (AuditFacts.verify_lines_linked sha256_hex dumps_sorted fname _ c _ _ Lc).
  rewrite (AuditFacts.verify_files_linked sha256_hex dumps_sorted fs2 c2 _ _ Hc2).
  - rewrite !AuditFacts.tip_app, length_map. reflexivity.
  - rewrite !AuditFacts.tip_app in Lc2. exact Lc2.
Qed.

(** A line that is not JSON, put anywhere into the log of a run, costs
    one error and no more: [verify_chain] returns [False] with the single
    message [<file>:<line>: Invalid JSON - <decoder message>] for that
    line, and finds the events behind it still chained. *)
Theorem garbage_line_is_reported_once (calls : list LogCall) :
  dates_ascend (List.map (fun c => _get_log_file (c_date c)) calls) = true ->
  let lg := snd (run calls (new [] None)) in
  forall fs1 fname l1 l2 fs2 raw msg,
    files lg = fs1 ++ (fname, l1 ++ l2) :: fs2 ->
    verify None
      (mkAuditLogger (fs1 ++ (fname, l1 ++ BadLine raw msg :: l2) :: fs2)
         (chain_file lg) (_previous_hash lg))
    = Ok (false,
          [(fname ++ ":" ++ str_of_nat (S (length l1)) ++ ": Invalid JSON - " ++ msg)%string]).
Proof.
  intros Hd lg fs1 fname l1 l2 fs2 raw msg Hfiles.
  destruct (run_sound calls Hd) as (last & Hlines & Hl & _). fold lg in Hlines.
  rewrite Hfiles in Hlines.
  unfold verify_chain. cbn [files].
  rewrite (verify_one_garbage fs1 fname l1 l2 fs2 raw msg _ Hlines Hl).
  reflexivity.
Qed.

(** A log from which one event was taken out, the event behind it being
    in the same file. *)
Lemma verify_one_removed (fs1 : LogFiles) (fname : string) (l1 : list Line)
    (e e' : AuditEvent) (l2 : list Line) (fs2 : LogFiles)
    (events : list AuditEvent) :
  lines_of (fs1 ++ (fname, l1 ++ EventLine e :: EventLine e' :: l2) :: fs2)
  = List.map EventLine events ->
  linked "GENESIS" events ->
  event_hash e <> previous_hash e ->
  vfiles (fs1 ++ (fname, l1 ++ EventLine e' :: l2) :: fs2) ("GENESIS", [])
  = (tip "GENESIS" events,
     [chain_broken_error fname (S (length l1)) (previous_hash e) (event_hash e)]).
Proof.
  intros Hlines Hlinked Hneq.
  rewrite AuditFacts.lines_of_app, AuditFacts.lines_of_cons in Hlines.
  destruct (AuditFacts.map_EventLine_app _ _ _ Hlines) as (a & r1 & -> & Ha & Hr1).
  destruct (AuditFacts.map_EventLine_app _ _ _ Hr1) as (m & c2 & -> & Hm & Hc2).
  destruct (AuditFacts.map_EventLine_app _ _ _ Hm) as (b & m2 & -> & Hb & Hm2).
  destruct m2 as [|x [|x' c]]; try discriminate.
  cbn in Hm2. injection Hm2 as <- <- Hc. subst l1 l2.
  apply AuditFacts.linked_app in Hlinked. destruct Hlinked as [La Lr].
  apply AuditFacts.linked_app in Lr. destruct Lr as [Lm Lc2].
  apply AuditFacts.linked_app in Lm. destruct Lm as [Lb Lec].
  cbn in Lec. destruct Lec as (Hprev & Hhash & Hprev' & Hhash' & Lc).
  rewrite AuditFacts.verify_files_app. cbn [verify_files].
  rewrite (AuditFacts.verify_files_linked sha256_hex dumps_sorted fs1 a "GENESIS" [] Ha La).
  rewrite AuditFacts.verify_lines_app.
  rewrite (AuditFacts.verify_lines_linked sha256_hex dumps_sorted fname 1 b
             (tip "GENESIS" a) [] Lb).
  cbn [verify_lines verify_line app].
  rewrite Hprev', <- Hprev.
  destruct (String.eqb_spec (event_hash e) (previous_hash e)) as [Heq|_];
    [contradiction|].
  rewrite <- Hhash', String.eqb_refl.
  rewrite (AuditFacts.verify_lines_linked sha256_hex dumps_sorted fname _ c _ _ Lc).
  rewrite (AuditFacts.verify_files_linked sha256_hex dumps_sorted fs2 c2 _ _ Hc2).
  - rewrite !AuditFacts.tip_app, length_map. reflexivity.
  - rewrite !AuditFacts.tip_app in Lc2. exact Lc2.
Qed.

(** When an event is deleted from the log of a run, [verify_chain] finds
    the gap at the event that followed it: it returns [False] with the
    single message [<file>:<line>: Chain broken - expected ..., got ...]
    for the line the follower now stands on, naming the first eight
    characters of the hash before the deleted event and of the deleted
    event's own hash.  (A digest never equals the hash it was computed
    with.) *)
Theorem deleted_event_breaks_the_chain (calls : list LogCall) :
  dates_ascend (List.map (fun c => _get_log_file (c_date c)) calls) = true ->
  let lg := snd (run calls (new [] None)) in
  forall fs1 fname l1 e e' l2 fs2,
    files lg = fs1 ++ (fname, l1 ++ EventLine e :: EventLine e' :: l2) :: fs2 ->
    event_hash e <> previous_hash e ->
    verify None
      (mkAuditLogger (fs1 ++ (fname, l1 ++ EventLine e' :: l2) :: fs2)
         (chain_file lg) (_previous_hash lg))
    = Ok (false,
          [(fname ++ ":" ++ str_of_nat (S (length l1)) ++ ": Chain broken - expected "
              ++ take 8 (previous_hash e) ++ "..., got "
              ++ take 8 (event_hash e) ++ "...")%string]).
Proof.
  intros Hd lg fs1 fname l1 e e' l2 fs2 Hfiles Hneq.
  destruct (run_sound calls Hd) as (last & Hlines & Hl & _). fold lg in Hlines.
  rewrite Hfiles in Hlines.
  unfold verify_chain. cbn [files].
  rewrite (verify_one_removed fs1 fname l1 e e' l2 fs2 _ Hlines Hl Hneq).
  reflexivity.
Qed.

(** In a listing in name order a file is found under its name. *)
Lemma assoc_ordered (fs1 : LogFiles) (fname : string) (ls : list Line)
    (fs2 : LogFiles) :
  ordered (fs1 ++ (fname, ls) :: fs2) ->
  assoc fname (fs1 ++ (fname, ls) :: fs2) = Some ls.
Proof.
  unfold ordered. induction fs1 as [|[n l] fs1 IH]; intros Hord.
  - cbn. rewrite String.eqb_refl. reflexivity.
  - cbn [app names List.map fst] in Hord.
    inversion Hord as [|? ? Hrest Hlt]; subst.
    cbn [app assoc].
    destruct (String.eqb_spec fname n) as [->|_].
    + exfalso. rewrite List.Forall_forall in Hlt.
      assert (Hin : In n (names (fs1 ++ (n, ls) :: fs2))).
      { unfold names. rewrite map_app. apply in_or_app. right. left. reflexivity. }
      apply Hlt in Hin. unfold name_lt in Hin.
      rewrite AuditFacts.compare_refl in Hin. discriminate.
    + exact (IH Hrest).
Qed.

(** [verify_chain(log_file)] starts from [GENESIS] whatever file it is
    given.  On the log of a run, a file verified alone is accepted when
    its first event is the first of the whole log; any later file gets
    the single error [<file>:1: Chain broken - expected GENESIS..., got
    ...] although the log as a whole is valid. *)
Theorem single_file_is_checked_from_genesis (calls : list LogCall) :
  dates_ascend (List.map (fun c => _get_log_file (c_date c)) calls) = true ->
  let lg := snd (run calls (new [] None)) in
  verify None lg = Ok (true, []) /\
  forall fs1 fname e ls fs2,
    files lg = fs1 ++ (fname, EventLine e :: ls) :: fs2 ->
    verify (Some fname) lg
    = Ok (if String.eqb (previous_hash e) "GENESIS" then (true, [])
          else (false,
                [(fname ++ ":" ++ str_of_nat 1 ++ ": Chain broken - expected "
                    ++ take 8 "GENESIS" ++ "..., got "
                    ++ take 8 (previous_hash e) ++ "...")%string])).
Proof.
  intros Hd lg.
  destruct (run_sound calls Hd) as (last & Hlines & Hl & _ & Hord & _).
  fold lg in Hlines, Hord. split.
  - unfold verify_chain.
    rewrite (AuditFacts.verify_files_linked sha256_hex dumps_sorted _ _ "GENESIS" []
               Hlines Hl).
    reflexivity.
  - intros fs1 fname e ls fs2 Hfiles.
    unfold verify_chain. rewrite Hfiles in Hlines, Hord |- *.
    rewrite (assoc_ordered fs1 fname _ fs2 Hord).
    rewrite AuditFacts.lines_of_app, AuditFacts.lines_of_cons in Hlines.
    destruct (AuditFacts.map_EventLine_app _ _ _ Hlines) as (a & r1 & Hes & Ha & Hr1).
    destruct (AuditFacts.map_EventLine_app _ _ _ Hr1) as (m & c2 & -> & Hm & Hc2).
    destruct m as [|x c]; [discriminate|]. cbn in Hm. injection Hm as <- Hc. subst ls.
    rewrite Hes in Hl.
    apply AuditFacts.linked_app in Hl. destruct Hl as [La Lr].
    apply AuditFacts.linked_app in Lr. destruct Lr as [Lm Lc2].
    cbn in Lm. destruct Lm as (Hprev & Hhash & Lc).
    cbn [verify_files verify_lines verify_line app].
    pose proof Hhash as Hh. rewrite <- Hprev in Hh. rewrite <- Hh, String.eqb_refl.
    destruct (String.eqb (previous_hash e) "GENESIS");
      rewrite (AuditFacts.verify_lines_linked sha256_hex dumps_sorted fname _ c _ _ Lc);
      reflexivity.
Qed.

(** *** A lost [audit-chain.json] *)

Lemma last_cons (a d : string) (l : list string) :
  List.last (a :: l) d = List.last l a.
Proof.
  revert a d. induction l as [|b l IH]; intros a d; [reflexivity|].
  change (List.last (a :: b :: l) d) with (List.last (b :: l) d).
  rewrite (IH b d), (IH b a). reflexivity.
Qed.

Lemma dates_ascend_last (a b : string) (l : list string) :
  dates_ascend (a :: l ++ [b]) = true -> file_le (List.last l a) b = true.
Proof.
  revert a. induction l as [|x l IH]; intros a H.
  - cbn in H. rewrite andb_true_r in H. exact H.
  - change (dates_ascend (a :: x :: l ++ [b]))
      with (file_le a x && dates_ascend (x :: l ++ [b])) in H.
    apply andb_true_iff in H. destruct H as [_ H].
    rewrite last_cons. exact (IH x H).
Qed.

(** After a run the newest file is that of the last call. *)
Lemma log_all_sound_last (calls : list LogCall) (lg : AuditLogger)
    (es : list AuditEvent) (last : string) :
  Audit.sound sha256_hex dumps_sorted lg es last ->
  dates_ascend (last :: List.map (fun c => _get_log_file (c_date c)) calls) = true ->
  Audit.sound sha256_hex dumps_sorted (snd (run calls lg)) (es ++ fst (run calls lg))
    (List.last (List.map (fun c => _get_log_file (c_date c)) calls) last).
Proof.
  revert lg es last. induction calls as [|c calls IH]; intros lg es last Hs Hd.
  - cbn. rewrite app_nil_r. exact Hs.
  - cbn [log_all]. cbn [List.map dates_ascend] in Hd.
    apply andb_true_iff in Hd. destruct Hd as [Hle Hd].
    pose proof (AuditFacts.log_sound sha256_hex dumps_sorted c lg es last Hs Hle) as Hstep.
    destruct (log sha256_hex dumps_sorted c lg) as [e lg1].
    destruct Hstep as [Hs1 _].
    specialize (IH lg1 (es ++ [e]) _ Hs1 Hd).
    destruct (run calls lg1) as [es2 lg2]. cbn [fst snd] in *.
    cbn [List.map]. rewrite last_cons. rewrite <- app_assoc in IH. exact IH.
Qed.

(** Where [log] writes when its file is not older than any file there:
    at the end of the last file, or into a new last file. *)
Lemma append_line_last (name : string) (l : Line) (fs : LogFiles) :
  ordered fs -> below name fs ->
  exists fs0 ls,
    append_line name l fs = fs0 ++ [(name, ls ++ [l])] /\
    lines_of fs = lines_of fs0 ++ ls /\
    ls = default [] (assoc name fs).
Proof.
  unfold ordered, below.
  induction fs as [|[n ls0] rest IH]; intros Hord Hbelow.
  - exists [], []. repeat split.
  - cbn [names List.map fst] in Hord, Hbelow.
    inversion Hord as [|? ? Hrest_ord Hn_lt]; subst.
    inversion Hbelow as [|? ? Hn_le Hrest_below]; subst.
    cbn [append_line assoc]. destruct (String.compare name n) eqn:Hcmp.
    + apply String.compare_eq_iff in Hcmp. subst n.
      destruct rest as [|[n' ls'] rest'].
      * exists [], ls0. rewrite String.eqb_refl. repeat split.
        cbn. apply app_nil_r.
      * exfalso. inversion Hn_lt as [|? ? Hlt _]; subst.
        inversion Hrest_below as [|? ? Hle _]; subst.
        exact (AuditFacts.lt_not_le _ _ Hlt Hle).
    + exfalso. exact (AuditFacts.lt_not_le _ _ Hcmp Hn_le).
    + destruct (IH Hrest_ord Hrest_below) as (fs0 & ls & Happ & Hlines & Hls).
      exists ((n, ls0) :: fs0), ls. rewrite Happ.
      destruct (String.eqb_spec name n) as [->|_].
      { rewrite AuditFacts.compare_refl in Hcmp. discriminate. }
      repeat split; [|exact Hls].
      rewrite !AuditFacts.lines_of_cons, Hlines, app_assoc. reflexivity.
Qed.

(** When [audit-chain.json] is missing, unreadable or without a hash at
    the start of the process, the logger starts again from [GENESIS]
    although the directory holds a log: the next event is written with
    [previous_hash = GENESIS], and from then on [verify_chain] reports the
    log as broken, with the single error [Chain broken - expected <hash of
    the last event before>..., got GENESIS...] at the line of that
    event. *)
Theorem lost_chain_file_breaks_the_chain (calls : list LogCall) (c : LogCall)
    (cf : ChainFile) :
  dates_ascend (List.map (fun c => _get_log_file (c_date c)) (calls ++ [c])) = true ->
  _load_chain_state cf = "GENESIS" ->
  let lg1 := snd (run calls (new [] None)) in
  _previous_hash lg1 <> "GENESIS" ->
  let fname := _get_log_file (c_date c) in
  let restarted := new (files lg1) cf in
  verify None lg1 = Ok (true, []) /\
  previous_hash (fst (log sha256_hex dumps_sorted c restarted)) = "GENESIS" /\
  verify None (snd (log sha256_hex dumps_sorted c restarted))
  = Ok (false,
        [(fname ++ ":"
            ++ str_of_nat (S (length (default [] (assoc fname (files lg1)))))
            ++ ": Chain broken - expected " ++ take 8 (_previous_hash lg1)
            ++ "..., got " ++ take 8 "GENESIS" ++ "...")%string]).
Proof.
  intros Hd Hcf lg1 Hne fname restarted.
  destruct calls as [|c0 calls]; [exfalso; apply Hne; reflexivity|].
  set (f := fun c : LogCall => _get_log_file (c_date c)) in *.
  assert (Hd1 : dates_ascend (f c0 :: List.map f (c0 :: calls)) = true).
  { apply (dates_ascend_first (c0 :: calls)).
    rewrite map_app in Hd. exact (dates_ascend_app_l _ _ Hd). }
  pose proof (log_all_sound_last (c0 :: calls) (new [] None) [] (f c0)
                (empty_sound _) Hd1) as Hs.
  fold lg1 in Hs. cbn [app] in Hs.
  destruct Hs as (Hlines & Hl & Hprev & Hord & Hbelow).
  assert (Hle : file_le (List.last (List.map f (c0 :: calls)) (f c0)) fname = true).
  { cbn [List.map]. rewrite last_cons.
    apply dates_ascend_last.
    rewrite map_app in Hd. exact Hd. }
  split.
  { unfold verify_chain.
    rewrite (AuditFacts.verify_files_linked sha256_hex dumps_sorted _ _ "GENESIS" []
               Hlines Hl).
    reflexivity. }
  unfold log, restarted, new. cbn [_previous_hash files fst snd previous_hash].
  rewrite Hcf. split; [reflexivity|].
  set (e := mkAuditEvent _ _ _ _ _ _ _ "GENESIS" _).
  destruct (append_line_last fname (EventLine e) (files lg1) Hord
              (AuditFacts.below_weaken _ _ _ Hle Hbelow))
    as (fs0 & ls & Happ & Hlines0 & Hls).
  fold fname. rewrite <- Hls.
  unfold verify_chain. cbn [files]. rewrite Happ.
  rewrite Hlines0 in Hlines.
  destruct (AuditFacts.map_EventLine_app _ _ _ Hlines) as (a & b & Hes & Ha & Hb).
  rewrite Hes in Hl, Hprev.
  apply AuditFacts.linked_app in Hl. destruct Hl as [La Lb].
  rewrite AuditFacts.verify_files_app. cbn [verify_files].
  rewrite (AuditFacts.verify_files_linked sha256_hex dumps_sorted fs0 a "GENESIS" [] Ha La).
  rewrite AuditFacts.verify_lines_app. rewrite Hb.
  rewrite (AuditFacts.verify_lines_linked sha256_hex dumps_sorted fname 1 b
             (tip "GENESIS" a) [] Lb).
  rewrite <- AuditFacts.tip_app, <- Hprev.
  cbn [verify_lines verify_line app]. subst e. cbn [previous_hash event_hash event_data
    timestamp event_type action actor source_zone details request_id].
  destruct (String.eqb_spec "GENESIS" (_previous_hash lg1)) as [Heq|_];
    [exfalso; apply Hne; symmetry; exact Heq|].
  rewrite String.eqb_refl.
  reflexivity.
Qed.

(** *** Statistics *)

Lemma stats_lines_app (l1 l2 : list Line) (acc : gmap string nat * nat) :
  stats_lines (l1 ++ l2) acc = stats_lines l2 (stats_lines l1 acc).
Proof.
  revert acc. induction l1 as [|[e|raw msg] l1 IH]; intros [stats total];
    cbn [app stats_lines]; [reflexivity| |]; apply IH.
Qed.

Lemma stats_files_lines (fs : LogFiles) (acc : gmap string nat * nat) :
  stats_files fs acc = stats_lines (lines_of fs) acc.
Proof.
  revert acc. induction fs as [|[n ls] fs IH]; intros acc; [reflexivity|].
  cbn [stats_files]. rewrite AuditFacts.lines_of_cons, stats_lines_app. apply IH.
Qed.

Lemma stats_lines_events (es : list AuditEvent) (stats : gmap string nat)
    (total : nat) :
  snd (stats_lines (List.map EventLine es) (stats, total)) = (total + length es)%nat /\
  forall t,
    fst (stats_lines (List.map EventLine es) (stats, total)) !! t
    = let n := count_occ String.string_dec (List.map event_type es) t in
      if (n =? 0)%nat then stats !! t else Some (default 0%nat (stats !! t) + n)%nat.
Proof.
  revert stats total. induction es as [|e es IH]; intros stats total.
  - cbn. split; [lia | reflexivity].
  - cbn [List.map stats_lines].
    destruct (IH (<[event_type e := (default 0%nat (stats !! event_type e) + 1)%nat]> stats)
                (total + 1)%nat) as [Htot Hby].
    split; [rewrite Htot; cbn [length]; lia|].
    intros t. rewrite Hby. cbv zeta. cbn [count_occ].
    destruct (String.string_dec (event_type e) t) as [->|Hne].
    + rewrite lookup_insert_eq. cbn [default Nat.eqb].
      destruct (count_occ String.string_dec (List.map event_type es) t) eqn:Hc;
        cbn [Nat.eqb]; [reflexivity | f_equal; unfold id; lia].
    + rewrite lookup_insert_ne by exact Hne. reflexivity.
Qed.

Lemma run_event_types (calls : list LogCall) (lg : AuditLogger) :
  List.map event_type (fst (run calls lg))
  = List.map (fun c => AuditEventType_value (c_event_type c)) calls.
Proof.
  revert lg. induction calls as [|c calls IH]; intros lg; [reflexivity|].
  cbn [log_all]. destruct (log sha256_hex dumps_sorted c lg) as [e lg1] eqn:Hlog.
  specialize (IH lg1). destruct (run calls lg1) as [es lg2].
  cbn [fst List.map] in *. rewrite IH. f_equal.
  unfold log in Hlog. injection Hlog as <- _. reflexivity.
Qed.

(** [get_stats] on the log of a run counts every event once:
    [total_events] is the number of [log] calls, [by_type] holds for each
    event type the number of calls with that type and no entry for a type
    that was never logged, and [chain_valid] is [True]. *)
Theorem get_stats_counts_every_event (calls : list LogCall) :
  dates_ascend (List.map (fun c => _get_log_file (c_date c)) calls) = true ->
  exists by_type,
    get_stats sha256_hex dumps_sorted (snd (run calls (new [] None)))
    = Ok (length calls, by_type, true) /\
    forall t,
      by_type !! t
      = let n := count_occ String.string_dec
                   (List.map (fun c => AuditEventType_value (c_event_type c)) calls) t in
        if (n =? 0)%nat then None else Some n.
Proof.
  intros Hd.
  destruct (run_sound calls Hd) as (last & Hlines & Hl & _).
  pose proof (AuditFacts.log_all_sound sha256_hex dumps_sorted calls (new [] None) [] _
                (empty_sound _) (dates_ascend_first calls Hd)) as Hlen.
  pose proof (run_event_types calls (new [] None)) as Htypes.
  destruct (run calls (new [] None)) as [es lg]. cbn [fst snd] in *.
  destruct Hlen as (Hlen & _).
  unfold get_stats. rewrite stats_files_lines, Hlines.
  destruct (stats_lines_events es ∅ 0) as [Htot Hby].
  destruct (stats_lines (List.map EventLine es) (∅, 0%nat)) as [stats total].
  cbn [fst snd] in Htot, Hby.
  unfold verify_chain.
  rewrite (AuditFacts.verify_files_linked sha256_hex dumps_sorted _ _ "GENESIS" []
             Hlines Hl).
  exists stats. split.
  - rewrite Htot, Hlen. reflexivity.
  - intros t. rewrite Hby, Htypes. cbv zeta. rewrite lookup_empty. cbn [default].
    reflexivity.
Qed.

End Chain.

Lemma calls0_ascend :
  dates_ascend (List.map (fun c => _get_log_file (c_date c)) calls0) = true.
Proof. vm_compute. reflexivity. Qed.

Lemma restart_continues_the_chain_witness :
  new (files (snd (log_all plain_digest render day_one (new [] None))))
    (chain_file (snd (log_all plain_digest render day_one (new [] None))))
  = snd (log_all plain_digest render day_one (new [] None)) /\
  verify_chain plain_digest render None
    (snd (log_all plain_digest render day_two
            (new (files (snd (log_all plain_digest render day_one (new [] None))))
               (chain_file (snd (log_all plain_digest render day_one (new [] None)))))))
  = Ok (true, []).
Proof.
  pose proof (restart_continues_the_chain plain_digest render day_one day_two
                calls0_ascend) as H.
  cbv zeta in H. destruct H as (Hsame & _ & Hok). split; [exact Hsame | exact Hok].
Defined.

Lemma cut_off_tail_is_not_detected_witness :
  lines_of (files log0)
  = lines_of (files (snd (log_all plain_digest render day_one (new [] None))))
    ++ [EventLine third_event] /\
  verify_chain plain_digest render None
    (mkAuditLogger (files (snd (log_all plain_digest render day_one (new [] None))))
       (chain_file log0) (_previous_hash log0))
  = Ok (true, []).
Proof.
  pose proof (cut_off_tail_is_not_detected plain_digest render day_one day_two
                calls0_ascend) as H.
  cbv zeta in H. destruct H as (Hlines & _ & Hok). split; [exact Hlines | exact Hok].
Defined.

Lemma garbage_line_is_reported_once_witness :
  verify_chain plain_digest render None
    (mkAuditLogger
       ([] ++ ("audit-2026-01-01.jsonl",
               [first_line] ++ BadLine "garbage" "Expecting value" :: [EventLine second_event])
           :: next_day)
       (chain_file log0) (_previous_hash log0))
  = Ok (false, ["audit-2026-01-01.jsonl:2: Invalid JSON - Expecting value"]).
Proof.
  apply (garbage_line_is_reported_once plain_digest render calls0 calls0_ascend
           [] "audit-2026-01-01.jsonl" [first_line] [EventLine second_event] next_day
           "garbage" "Expecting value").
  vm_compute. reflexivity.
Defined.

Lemma deleted_event_breaks_the_chain_witness :
  verify_chain plain_digest render None
    (mkAuditLogger
       ([] ++ ("audit-2026-01-01.jsonl", [] ++ [EventLine second_event]) :: next_day)
       (chain_file log0) (_previous_hash log0))
  = Ok (false,
        [("audit-2026-01-01.jsonl:1: Chain broken - expected GENESIS..., got "
            ++ take 8 (event_hash first_event) ++ "...")%string]).
Proof.
  apply (deleted_event_breaks_the_chain plain_digest render calls0 calls0_ascend
           [] "audit-2026-01-01.jsonl" [] first_event second_event [] next_day).
  - vm_compute. reflexivity.
  - vm_compute. discriminate.
Defined.

Lemma single_file_is_checked_from_genesis_witness :
  verify_chain plain_digest render None log0 = Ok (true, []) /\
  verify_chain plain_digest render (Some "audit-2026-01-02.jsonl") log0
  = Ok (false,
        [("audit-2026-01-02.jsonl:1: Chain broken - expected GENESIS..., got "
            ++ take 8 (event_hash second_event) ++ "...")%string]).
Proof.
  pose proof (single_file_is_checked_from_genesis plain_digest render calls0
                calls0_ascend) as H.
  cbv zeta in H. destruct H as [Hall Hone]. split; [exact Hall|].
  apply (Hone [("audit-2026-01-01.jsonl", [first_line; EventLine second_event])]
           "audit-2026-01-02.jsonl" third_event [] []).
  vm_compute. reflexivity.
Defined.

Lemma lost_chain_file_breaks_the_chain_witness :
  verify_chain plain_digest render None log0 = Ok (true, []) /\
  verify_chain plain_digest render None
    (snd (log plain_digest render late_call (new (files log0) None)))
  = Ok (false,
        [("audit-2026-01-02.jsonl:2: Chain broken - expected "
            ++ take 8 (event_hash third_event) ++ "..., got GENESIS...")%string]).
Proof.
  assert (Hd : dates_ascend
                 (List.map (fun c => _get_log_file (c_date c)) (calls0 ++ [late_call]))
               = true) by (vm_compute; reflexivity).
  assert (Hne : _previous_hash log0 <> "GENESIS") by (vm_compute; discriminate).
  pose proof (lost_chain_file_breaks_the_chain plain_digest render calls0 late_call None
                Hd eq_refl Hne) as H.
  cbv zeta in H. destruct H as (Hok & _ & Hbroken). split; [exact Hok | exact Hbroken].
Defined.

Lemma get_stats_counts_every_event_witness :
  exists by_type,
    get_stats plain_digest render log0 = Ok (3%nat, by_type, true) /\
    by_type !! "action_executed" = Some 3%nat /\
    by_type !! "action_failed" = None.
Proof.
  destruct (get_stats_counts_every_event plain_digest render calls0 calls0_ascend)
    as (by_type & Hstats & Hby).
  exists by_type. split; [exact Hstats|].
  split; [exact (Hby "action_executed") | exact (Hby "action_failed")].
Defined.

End ChainFacts.

(** ** More on canary tokens *)

Module TokenFacts.
Import Py Canary CanaryScenario.

(** The three things of a registry entry a check may not lose: its key,
    its value and its count. *)
Abbreviation entry := (fun kt : string * CanaryToken =>
                         (fst kt, value (snd kt), trigger_count (snd kt))).

Lemma check_loop_spec (content : string) (src ua : option string) (ctx : json)
    (now : nat -> string) (todo seen : list (string * CanaryToken))
    (triggers : list CanaryTrigger) (sys : CanarySystem) :
  exists new_triggers,
    fst (check_loop content src ua ctx now seen todo triggers sys)
    = triggers ++ new_triggers /\
    List.map trigger_token_id new_triggers
    = List.map (fun kt => token_id (snd kt))
        (List.filter (fun kt => contains (value (snd kt)) content) todo) /\
    TRIGGER_LOG (snd (check_loop content src ua ctx now seen todo triggers sys))
    = TRIGGER_LOG sys ++ new_triggers /\
    delivered (snd (check_loop content src ua ctx now seen todo triggers sys))
    = (if has_on_trigger sys then delivered sys ++ new_triggers else delivered sys) /\
    List.map entry (_tokens (snd (check_loop content src ua ctx now seen todo triggers sys)))
    = List.map entry seen
      ++ List.map (fun kt =>
                     (fst kt, value (snd kt),
                      if contains (value (snd kt)) content
                      then S (trigger_count (snd kt))
                      else trigger_count (snd kt))) todo.
Proof.
  revert seen triggers sys.
  induction todo as [|[k token] rest IH]; intros seen triggers sys.
  - exists []. cbn. rewrite !app_nil_r.
    destruct (has_on_trigger sys); repeat split.
  - cbn [check_loop List.filter List.map fst snd].
    destruct (contains (value token) content) eqn:Hc.
    + match goal with
      | |- context [check_loop _ _ _ _ _ ?s _ ?t ?y] =>
          destruct (IH s t y) as (new_triggers & Hfst & Hids & Hlog & Hdel & Htok)
      end.
      exists (mkCanaryTrigger (token_id token) (now (length triggers)) src ua ctx
                :: new_triggers).
      rewrite Hfst, Hlog, Hdel, Htok. cbn [TRIGGER_LOG has_on_trigger delivered].
      rewrite <- !app_assoc. cbn [app List.map trigger_token_id].
      rewrite Hids. split; [reflexivity|]. split; [reflexivity|].
      split; [reflexivity|]. split.
      * destruct (has_on_trigger sys); [rewrite <- app_assoc|]; reflexivity.
      * rewrite map_app, <- app_assoc. reflexivity.
    + destruct (IH (seen ++ [(k, token)]) triggers sys)
        as (new_triggers & Hfst & Hids & Hlog & Hdel & Htok).
      exists new_triggers. rewrite Hfst, Hlog, Hdel, Htok.
      repeat split; [exact Hids|].
      rewrite map_app, <- app_assoc. reflexivity.
Qed.

Lemma check_loop_saved (content : string) (src ua : option string) (ctx : json)
    (now : nat -> string) (todo seen : list (string * CanaryToken))
    (triggers : list CanaryTrigger) (sys : CanarySystem) :
  CANARY_FILE sys = values_of (seen ++ todo) ->
  CANARY_FILE (snd (check_loop content src ua ctx now seen todo triggers sys))
  = values_of (_tokens (snd (check_loop content src ua ctx now seen todo triggers sys))).
Proof.
  revert seen triggers sys.
  induction todo as [|[k token] rest IH]; intros seen triggers sys Hsaved.
  - cbn. rewrite app_nil_r in Hsaved. exact Hsaved.
  - cbn [check_loop]. destruct (contains (value token) content).
    + apply IH. reflexivity.
    + apply IH. rewrite <- app_assoc. exact Hsaved.
Qed.

Lemma check_loop_clean (content : string) (src ua : option string) (ctx : json)
    (now : nat -> string) (todo seen : list (string * CanaryToken))
    (triggers : list CanaryTrigger) (sys : CanarySystem) :
  (forall kt, In kt todo -> contains (value (snd kt)) content = false) ->
  check_loop content src ua ctx now seen todo triggers sys
  = (triggers,
     mkCanarySystem (seen ++ todo) (CANARY_FILE sys) (TRIGGER_LOG sys)
       (has_on_trigger sys) (delivered sys)).
Proof.
  revert seen. induction todo as [|[k token] rest IH]; intros seen Hclean.
  - cbn. rewrite app_nil_r. reflexivity.
  - cbn [check_loop]. pose proof (Hclean (k, token) (or_introl eq_refl)) as Hc.
    cbn [snd] in Hc. rewrite Hc.
    rewrite IH; [rewrite <- app_assoc; reflexivity|].
    intros kt Hin. apply Hclean. right. exact Hin.
Qed.

(** Content in which no registered value occurs raises no alarm and
    writes nothing: [check] returns the empty list and registry, token
    file, trigger log and callback are as before. *)
Theorem clean_content_changes_nothing (content : string) (src ua : option string)
    (ctx : option json) (now : nat -> string) (sys : CanarySystem) :
  (forall token, In token (list_tokens sys) -> contains (value token) content = false) ->
  check content src ua ctx now sys = ([], sys).
Proof.
  intros Hclean. unfold check. rewrite check_loop_clean.
  - destruct sys; reflexivity.
  - intros kt Hin. apply Hclean. unfold list_tokens, values_of.
    apply in_map. exact Hin.
Qed.

Lemma clean_content_changes_nothing_witness :
  check "nothing to see here" None None None stamps0 registry0 = ([], registry0).
Proof.
  apply clean_content_changes_nothing.
  intros token Hin. vm_compute in Hin.
  repeat (destruct Hin as [<-|Hin]; [vm_compute; reflexivity|]).
  destruct Hin.
Defined.

(** What one [check] does.  It reports the registered tokens whose value
    occurs in the content, each once and in the order of the registry;
    exactly these triggers are appended to the trigger log and, when a
    callback was given, handed to it; every token keeps its key and value,
    and the count of each reported token goes up by one while the others
    stay; and a token file that mirrored the registry before mirrors it
    afterwards. *)
Theorem check_reports_each_leaked_token (content : string) (src ua : option string)
    (ctx : option json) (now : nat -> string) (sys : CanarySystem) :
  let leaked := fun kt : string * CanaryToken => contains (value (snd kt)) content in
  let triggers := fst (check content src ua ctx now sys) in
  let sys' := snd (check content src ua ctx now sys) in
  List.map trigger_token_id triggers
  = List.map (fun kt => token_id (snd kt)) (List.filter leaked (_tokens sys)) /\
  TRIGGER_LOG sys' = TRIGGER_LOG sys ++ triggers /\
  delivered sys'
  = (if has_on_trigger sys then delivered sys ++ triggers else delivered sys) /\
  List.map entry (_tokens sys')
  = List.map (fun kt =>
                (fst kt, value (snd kt),
                 if leaked kt then S (trigger_count (snd kt))
                 else trigger_count (snd kt))) (_tokens sys) /\
  (CANARY_FILE sys = list_tokens sys -> CANARY_FILE sys' = list_tokens sys').
Proof.
  intros leaked triggers sys'. subst leaked triggers sys'. unfold check.
  destruct (check_loop_spec content src ua (default (JObj []) ctx) now (_tokens sys)
              [] [] sys) as (new_triggers & Hfst & Hids & Hlog & Hdel & Htok).
  cbn [app] in Hfst. rewrite Hfst, Hlog, Hdel, Htok. cbn [List.map app].
  repeat (split; [first [exact Hids | reflexivity]|]).
  intros Hsaved. apply check_loop_saved. exact Hsaved.
Qed.

Lemma check_reports_each_leaked_token_witness :
  List.map trigger_token_id (fst (check leak0 None None None stamps0 registry0))
  = ["id0"; "id2"] /\
  List.map (fun kt => (fst kt, trigger_count (snd kt)))
    (_tokens (snd (check leak0 None None None stamps0 registry0)))
  = [("id0", 1%nat); ("id1", 0%nat); ("id2", 1%nat); ("id3", 0%nat)] /\
  CANARY_FILE (snd (check leak0 None None None stamps0 registry0))
  = list_tokens (snd (check leak0 None None None stamps0 registry0)).
Proof.
  pose proof (check_reports_each_leaked_token leak0 None None None stamps0 registry0)
    as H.
  cbv zeta in H. destruct H as (Hids & _ & _ & Htok & Hsaved).
  split; [rewrite Hids; vm_compute; reflexivity|].
  split; [vm_compute; reflexivity|].
  apply Hsaved. vm_compute. reflexivity.
Defined.

(** *** The default canaries *)

Lemma assoc_set_other {A : Type} (k k' : string) (v v' : A) (d : list (string * A)) :
  In (k, v) d -> k' <> k -> In (k, v) (assoc_set k' v' d).
Proof.
  intros Hin Hne. induction d as [|[k0 v0] d IH]; [destruct Hin|].
  cbn [assoc_set]. destruct (String.eqb_spec k' k0) as [->|_].
  - destruct Hin as [[= <- <-]|Hin]; [contradiction | right; exact Hin].
  - destruct Hin as [Hin|Hin]; [left; exact Hin | right; exact (IH Hin)].
Qed.

Lemma create_each_keeps (ds : list (CanaryType * string * option string))
    (draw : nat -> string * string * string) (k : nat) (sys : CanarySystem)
    (key : string) (token : CanaryToken) :
  In (key, token) (_tokens sys) ->
  (forall j, (k <= j < k + length ds)%nat -> fst (fst (draw j)) <> key) ->
  In (key, token) (_tokens (snd (create_each ds draw k sys))).
Proof.
  revert k sys. induction ds as [|[[ty desc] custom] ds IH]; intros k sys Hin Hfresh.
  - exact Hin.
  - cbn [create_each]. pose proof (Hfresh k) as Hk.
    destruct (draw k) as [[rnd_id rnd] now] eqn:Hdraw. cbn [fst] in Hk.
    unfold create_token.
    match goal with
    | |- context [create_each ds draw (S k) ?s] =>
        specialize (IH (S k) s); destruct (create_each ds draw (S k) s) as [created sys2]
    end.
    cbn [snd] in *. apply IH.
    + cbn [_tokens]. apply assoc_set_other; [exact Hin|].
      apply Hk. cbn [length]. lia.
    + intros j Hj. apply Hfresh. cbn [length]. lia.
Qed.

Lemma create_each_has (ds : list (CanaryType * string * option string))
    (draw : nat -> string * string * string) (k : nat) (sys : CanarySystem)
    (i : nat) (ty : CanaryType) (desc : string) (custom : option string) :
  nth_error ds i = Some (ty, desc, custom) ->
  (forall j, (k + i < j < k + length ds)%nat ->
             fst (fst (draw j)) <> fst (fst (draw (k + i)%nat))) ->
  exists token,
    In (fst (fst (draw (k + i)%nat)), token)
      (_tokens (snd (create_each ds draw k sys))) /\
    token_id token = fst (fst (draw (k + i)%nat)) /\
    value token
    = make_value ty custom (fst (fst (draw (k + i)%nat))) (snd (fst (draw (k + i)%nat))).
Proof.
  revert k sys i.
  induction ds as [|[[ty0 desc0] custom0] ds IH]; intros k sys i Hnth Hfresh.
  - destruct i; discriminate.
  - destruct i as [|i].
    + cbn in Hnth. injection Hnth as -> -> ->.
      rewrite Nat.add_0_r in *. cbn [create_each].
      destruct (draw k) as [[rnd_id rnd] now] eqn:Hdraw. cbn [fst snd] in *.
      unfold create_token.
      set (token := mkCanaryToken rnd_id ty (make_value ty custom rnd_id rnd) desc now
                      false 0 None).
      pose proof (create_each_keeps ds draw (S k)
                    (mkCanarySystem (assoc_set rnd_id token (_tokens sys))
                       (values_of (assoc_set rnd_id token (_tokens sys)))
                       (TRIGGER_LOG sys) (has_on_trigger sys) (delivered sys))
                    rnd_id token) as Hkeep.
      destruct (create_each ds draw (S k) _) as [created sys2]. cbn [snd] in *.
      exists token. split; [|split; reflexivity].
      apply Hkeep.
      * cbn [_tokens]. apply CanaryFacts.assoc_set_in.
      * intros j Hj. apply Hfresh. cbn [length]. lia.
    + cbn in Hnth. cbn [create_each].
      destruct (draw k) as [[rnd_id rnd] now] eqn:Hdraw.
      unfold create_token.
      match goal with
      | |- context [create_each ds draw (S k) ?s] =>
          specialize (IH (S k) s i Hnth);
          destruct (create_each ds draw (S k) s) as [created sys2]
      end.
      cbn [snd] in *. replace (k + S i)%nat with (S k + i)%nat by lia.
      apply IH. intros j Hj.
      replace (S k + i)%nat with (k + S i)%nat by lia.
      apply Hfresh. cbn [length]. lia.
Qed.

(** After [create_default_canaries], content that carries the value of
    one of the four default canaries (the three fixed strings, or the
    prompt marker made from the fourth id) is reported by [check] under
    that canary's id, provided none of the later random ids repeats
    it. *)
Theorem default_canaries_are_detected (draw : nat -> string * string * string)
    (sys : CanarySystem) (i : nat) (ty : CanaryType) (desc : string)
    (custom : option string) (content : string) (src ua : option string)
    (ctx : option json) (now : nat -> string) :
  nth_error defaults i = Some (ty, desc, custom) ->
  (forall j, (i < j < 4)%nat -> fst (fst (draw j)) <> fst (fst (draw i))) ->
  contains (make_value ty custom (fst (fst (draw i))) (snd (fst (draw i)))) content = true ->
  exists t,
    In t (fst (check content src ua ctx now (snd (create_default_canaries draw sys)))) /\
    trigger_token_id t = fst (fst (draw i)).
Proof.
  intros Hnth Hfresh Hleak.
  destruct (create_each_has defaults draw 0 sys i ty desc custom Hnth)
    as (token & Hin & Hid & Hval).
  { intros j Hj. cbn [Nat.add]. apply Hfresh. cbn [length defaults] in Hj.
    cbn in Hj. lia. }
  cbn [Nat.add] in Hin, Hid, Hval. rewrite <- Hid. unfold check.
  apply (CanaryFacts.check_loop_fires content src ua (default (JObj []) ctx) now
           _ [] [] _ _ token Hin).
  rewrite Hval. exact Hleak.
Qed.

Lemma default_canaries_are_detected_witness :
  exists t,
    In t (fst (check leak0 None None None stamps0 registry0)) /\
    trigger_token_id t = "id2".
Proof.
  apply (default_canaries_are_detected draw0 (new true) 2 CREDENTIAL
           "Database password canary" (Some "db_readonly_backup_pass") leak0
           None None None stamps0).
  - reflexivity.
  - intros j Hj. assert (j = 3%nat) as -> by lia. vm_compute. discriminate.
  - vm_compute. reflexivity.
Defined.

(** *** Deleting a token *)

Lemma assoc_del_subset {A : Type} (k : string) (d : list (string * A))
    (kv : string * A) :
  In kv (assoc_del k d) -> In kv d.
Proof.
  induction d as [|[k0 v0] d IH]; [intros []|].
  cbn [assoc_del]. destruct (String.eqb k k0).
  - intros Hin. right. exact Hin.
  - intros [Hin|Hin]; [left; exact Hin | right; exact (IH Hin)].
Qed.

Lemma assoc_del_gone {A : Type} (k : string) (d : list (string * A)) :
  List.NoDup (List.map fst d) -> ~ In k (List.map fst (assoc_del k d)).
Proof.
  induction d as [|[k0 v0] d IH]; intros Hnd; [intros []|].
  cbn [List.map fst] in Hnd. inversion Hnd as [|? ? Hnot Hrest]; subst.
  cbn [assoc_del]. destruct (String.eqb_spec k k0) as [->|Hne].
  - exact Hnot.
  - cbn [List.map fst]. intros [Heq|Hin]; [congruence|]. exact (IH Hrest Hin).
Qed.

Lemma assoc_absent {A : Type} (k : string) (d : list (string * A)) :
  ~ In k (List.map fst d) -> assoc k d = None.
Proof.
  induction d as [|[k0 v0] d IH]; intros Hnot; [reflexivity|].
  cbn [assoc]. destruct (String.eqb_spec k k0) as [->|_].
  - exfalso. apply Hnot. left. reflexivity.
  - apply IH. intros Hin. apply Hnot. right. exact Hin.
Qed.

Lemma assoc_del_other {A : Type} (k k' : string) (d : list (string * A)) :
  k' <> k -> assoc k' (assoc_del k d) = assoc k' d.
Proof.
  intros Hne. induction d as [|[k0 v0] d IH]; [reflexivity|].
  cbn [assoc_del assoc]. destruct (String.eqb_spec k k0) as [->|_].
  - destruct (String.eqb_spec k' k0); [contradiction | reflexivity].
  - cbn [assoc]. rewrite IH. reflexivity.
Qed.

(** In a registry that holds each token under its own id, once,
    [delete_token] answers whether the id was registered; afterwards the
    id is unknown, every other token is still there, and no [check]
    reports the id again, whatever the content. *)
Theorem deleted_token_no_longer_triggers (id : string) (sys : CanarySystem) :
  List.NoDup (List.map fst (_tokens sys)) ->
  Forall (fun kt => token_id (snd kt) = fst kt) (_tokens sys) ->
  let sys' := snd (delete_token id sys) in
  fst (delete_token id sys) = bool_decide (is_Some (get_token id sys)) /\
  get_token id sys' = None /\
  (forall k, k <> id -> get_token k sys' = get_token k sys) /\
  forall content src ua ctx now t,
    In t (fst (check content src ua ctx now sys')) -> trigger_token_id t <> id.
Proof.
  intros Hnd Hkeyed sys'.
  assert (Hgone : ~ In id (List.map fst (_tokens sys'))).
  { subst sys'. unfold delete_token.
    destruct (assoc id (_tokens sys)) eqn:Hget; cbn [snd _tokens].
    - apply assoc_del_gone. exact Hnd.
    - intros Hin. apply in_map_iff in Hin. destruct Hin as ([k v] & Hk & Hin).
      cbn in Hk. subst k. clear -Hin Hget.
      induction (_tokens sys) as [|[k0 v0] d IH]; [destruct Hin|].
      cbn [assoc] in Hget. destruct (String.eqb_spec id k0) as [->|Hne];
        [discriminate|].
      destruct Hin as [[= -> _]|Hin]; [contradiction | exact (IH Hget Hin)]. }
  assert (Hsub : forall kt, In kt (_tokens sys') -> In kt (_tokens sys)).
  { subst sys'. unfold delete_token.
    destruct (assoc id (_tokens sys)); cbn [snd _tokens]; [|trivial].
    intros kt. apply assoc_del_subset. }
  split; [|split; [|split]].
  - unfold delete_token, get_token. destruct (assoc id (_tokens sys)); reflexivity.
  - unfold get_token. apply assoc_absent. exact Hgone.
  - intros k Hne. subst sys'. unfold delete_token, get_token.
    destruct (assoc id (_tokens sys)); cbn [snd _tokens]; [|reflexivity].
    apply assoc_del_other. exact Hne.
  - intros content src ua ctx now t Hin Hid.
    destruct (check_loop_spec content src ua (default (JObj []) ctx) now (_tokens sys')
                [] [] sys') as (new_triggers & Hfst & Hids & _).
    unfold check in Hin. rewrite Hfst in Hin. cbn [app] in Hin.
    apply (in_map trigger_token_id) in Hin. rewrite Hids, Hid in Hin.
    apply in_map_iff in Hin. destruct Hin as (kt & Hkt & Hin).
    apply List.filter_In in Hin. destruct Hin as [Hin _].
    apply Hgone. apply in_map_iff. exists kt. split; [|exact Hin].
    rewrite List.Forall_forall in Hkeyed. rewrite <- (Hkeyed kt (Hsub kt Hin)).
    exact Hkt.
Qed.

Lemma deleted_token_no_longer_triggers_witness :
  fst (delete_token "id0" registry0) = true /\
  get_token "id0" (snd (delete_token "id0" registry0)) = None /\
  List.map trigger_token_id
    (fst (check leak0 None None None stamps0 (snd (delete_token "id0" registry0))))
  = ["id2"].
Proof.
  assert (Hnd : List.NoDup (List.map fst (_tokens registry0))).
  { vm_compute. repeat constructor; cbn; intuition discriminate. }
  assert (Hkeyed : Forall (fun kt => token_id (snd kt) = fst kt) (_tokens registry0)).
  { vm_compute. repeat constructor. }
  pose proof (deleted_token_no_longer_triggers "id0" registry0 Hnd Hkeyed) as H.
  cbv zeta in H. destruct H as (Hret & Hget & _ & _).
  split; [rewrite Hret; vm_compute; reflexivity|].
  split; [exact Hget|]. vm_compute. reflexivity.
Defined.

(** *** Reading the trigger log *)

(** [get_triggers(n)] right after a [check] that reported [n] triggers
    gives back exactly these; but when the check reported none,
    [get_triggers(0)] gives the whole trigger log, since [lines[-0:]] is
    every line. *)
Theorem get_triggers_after_check (content : string) (src ua : option string)
    (ctx : option json) (now : nat -> string) (sys : CanarySystem) :
  let triggers := fst (check content src ua ctx now sys) in
  let sys' := snd (check content src ua ctx now sys) in
  get_triggers (Z.of_nat (length triggers)) sys'
  = match triggers with
    | [] => TRIGGER_LOG sys
    | _ :: _ => triggers
    end.
Proof.
  intros triggers sys'. subst triggers sys'. unfold check, get_triggers.
  destruct (check_loop_spec content src ua (default (JObj []) ctx) now (_tokens sys)
              [] [] sys) as (new_triggers & Hfst & _ & Hlog & _).
  cbn [app] in Hfst. rewrite Hfst, Hlog.
  destruct new_triggers as [|t rest]; [cbn; apply app_nil_r|].
  unfold last_slice.
  destruct (Z.of_nat (length (t :: rest))) as [|p|p] eqn:Hz;
    [cbn [length] in Hz; lia | | lia].
  assert (Hp : Pos.to_nat p = length (t :: rest)) by lia.
  rewrite Hp, length_app.
  replace (length (TRIGGER_LOG sys) + length (t :: rest) - length (t :: rest))%nat
    with (length (TRIGGER_LOG sys) + 0)%nat by lia.
  rewrite skipn_app, Nat.add_0_r, skipn_all.
  replace (length (TRIGGER_LOG sys) - length (TRIGGER_LOG sys))%nat with 0%nat by lia.
  reflexivity.
Qed.

End TokenFacts.

(** ** The accept loop *)

Module LoopFacts.
Import Py Executor Scenario.

(** What no handler undoes: a counter of the policy engine never goes
    down, and a decrypted secret file stays in the cache. *)
Abbreviation keeps st st' :=
  ((forall a, le (Policy.counter (policy st) a) (Policy.counter (policy st') a)) /\
   (forall f s, Credentials._cache (credentials st) !! f = Some s ->
                Credentials._cache (credentials st') !! f = Some s)).

Lemma keeps_refl (st : ZoneExecutor) : keeps st st.
Proof. split; [intros a; lia | auto]. Qed.

Lemma keeps_trans (st1 st2 st3 : ZoneExecutor) :
  keeps st1 st2 -> keeps st2 st3 -> keeps st1 st3.
Proof.
  intros [Hp1 Hc1] [Hp2 Hc2]. split.
  - intros a. specialize (Hp1 a). specialize (Hp2 a). lia.
  - intros f s H. apply Hc2, Hc1, H.
Qed.

Lemma keeps_same (st st' : ZoneExecutor) :
  policy st' = policy st -> credentials st' = credentials st -> keeps st st'.
Proof. intros -> ->. split; [intros a; lia | auto]. Qed.

Lemma trigger_frame (r : KillSwitch.KillReason) (d b t : string) (st : ZoneExecutor) :
  policy (snd (KillSwitch.trigger wiring r d b t st)) = policy st /\
  credentials (snd (KillSwitch.trigger wiring r d b t st)) = credentials st.
Proof.
  unfold KillSwitch.trigger, KillSwitch._execute_shutdown. cbn.
  destruct (KillSwitch._killed (kill_switch st)),
           (KillSwitch._kill_event (kill_switch st)); repeat split.
Qed.

Lemma load_keeps_cache (sops : string -> result (list (string * string)))
    (file : string) (ci : Credentials.CredentialInjector) (f : string)
    (s : list (string * string)) :
  Credentials._cache ci !! f = Some s ->
  Credentials._cache (snd (Credentials._load_secrets sops file ci)) !! f = Some s.
Proof.
  intros H. unfold Credentials._load_secrets.
  destruct (Credentials._cache ci !! file) eqn:Hfile; [exact H|].
  destruct (sops file); [|exact H].
  cbn. rewrite lookup_insert_ne; [exact H|]. intros ->. congruence.
Qed.

Lemma inject_keeps_cache (sops : string -> result (list (string * string)))
    (action : string) (ci : Credentials.CredentialInjector) (f : string)
    (s : list (string * string)) :
  Credentials._cache ci !! f = Some s ->
  Credentials._cache (snd (Credentials.inject_for_action sops action ci)) !! f = Some s.
Proof.
  intros H. unfold Credentials.inject_for_action.
  destruct (default [] (assoc action Credentials.action_to_secrets)); [exact H|].
  pose proof (load_keeps_cache sops "api-keys.yaml" ci f s H) as Hload.
  destruct (Credentials._load_secrets sops "api-keys.yaml" ci) as [[secrets|e] ci'];
    exact Hload.
Qed.

Lemma execute_credentials (env : Env) (clk : Clock) (m : Message) (st : ZoneExecutor) :
  credentials (snd (handle_capability_execute env clk m st)) = credentials st \/
  credentials (snd (handle_capability_execute env clk m st))
  = snd (Credentials.inject_for_action (sops env) (default "" (m_action m))
           (credentials st)).
Proof.
  unfold handle_capability_execute.
  destruct (truthy (m_approval_id m) && negb (is_pending (m_approval_id m) st));
    [left; reflexivity|]. right.
  destruct (Credentials.inject_for_action (sops env) (default "" (m_action m))
              (credentials st)) as [[creds|e] ci]; [|reflexivity].
  unfold _execute_action. cbn [kill_switch set_credentials snd].
  destruct (KillSwitch.is_killed (kill_switch st)); [reflexivity|].
  pose proof (ApprovalFacts.record_preserves (default "" (m_action m)) (time_time clk)
                (utc_iso clk) (set_credentials ci st)) as (_ & Hcr & _).
  destruct (record_action (default "" (m_action m)) (time_time clk) (utc_iso clk)
              (set_credentials ci st)) as [ok st1].
  cbn [snd credentials set_credentials] in Hcr.
  destruct ok; cbn [negb]; [|exact Hcr].
  rewrite ExecutorFacts.last_steps.
  destruct (outcome env clk _ _ _); [|exact Hcr].
  destruct (truthy (m_approval_id m)); [|exact Hcr].
  destruct (pending_approvals st1 !! default "" (m_approval_id m)); exact Hcr.
Qed.

Lemma execute_keeps (env : Env) (clk : Clock) (m : Message) (st : ZoneExecutor) :
  keeps st (snd (handle_capability_execute env clk m st)).
Proof.
  split.
  - intros a. rewrite ApprovalFacts.execute_preserves_policy. lia.
  - intros f s H. destruct (execute_credentials env clk m st) as [-> | ->];
      [exact H | apply inject_keeps_cache; exact H].
Qed.

Lemma request_keeps (clk : Clock) (m : Message) (st : ZoneExecutor) :
  keeps st (snd (handle_capability_request clk m st)).
Proof.
  unfold handle_capability_request.
  destruct (PolicyFacts.check_action_total (default "" (m_action m))
              (default (JObj []) (m_params m)) (policy st))
    as (r & pe' & -> & Hother & Hown).
  assert (Hmono : forall a, (Policy.counter (policy st) a <= Policy.counter pe' a)%nat).
  { intros a. destruct (String.eqb_spec a (default "" (m_action m))) as [->|Hne];
      [exact Hown | rewrite (Hother a Hne); lia]. }
  destruct r as [error message|[] level descr]; cbn [snd]; split;
    cbn [policy credentials set_policy set_pending_approvals]; auto.
Qed.

Lemma approval_keeps (env : Env) (clk : Clock) (m : Message) (st : ZoneExecutor) :
  keeps st (snd (handle_approval_response env clk m st)).
Proof.
  unfold handle_approval_response.
  destruct (pending_approvals st !! default "" (m_approval_id m)) as [pending|];
    [|apply keeps_refl].
  destruct (default false (m_approved m)); [|apply keeps_same; reflexivity].
  match goal with
  | |- context [handle_capability_execute env clk ?msg st] =>
      pose proof (execute_keeps env clk msg st) as H;
      destruct (handle_capability_execute env clk msg st) as [[r|e] st']
  end; exact H.
Qed.

Lemma kill_keeps (clk : Clock) (m : Message) (st : ZoneExecutor) :
  keeps st (snd (handle_kill clk m st)).
Proof.
  unfold handle_kill.
  match goal with
  | |- context [KillSwitch.trigger wiring ?r ?d ?b ?t st] =>
      destruct (trigger_frame r d b t st) as [Hp Hc];
      destruct (KillSwitch.trigger wiring r d b t st) as [[event|] st']
  end; apply keeps_same; assumption.
Qed.

Lemma connection_keeps (env : Env) (clk : Clock) (data : Wire) (st : ZoneExecutor) :
  keeps st (snd (_handle_connection env clk data st)).
Proof.
  destruct data as [| |m]; try apply keeps_refl.
  unfold _handle_connection.
  destruct (handlers st) as [table|]; [|apply keeps_refl].
  assert (H : forall handler,
             keeps st (snd (handler m st)) ->
             keeps st (snd (match handler m st with
                            | (Ok response, st') => (Some response, st')
                            | (Raise e, st') => (Some (error_reply (exn_str e)), st')
                            end))).
  { intros handler Hk. destruct (handler m st) as [[r|e] st']; exact Hk. }
  apply H.
  destruct (assoc (default "" (m_type m)) table) as [[]|]; cbn [call].
  - apply keeps_refl.
  - apply request_keeps.
  - apply execute_keeps.
  - apply keeps_refl.
  - apply approval_keeps.
  - apply keeps_refl.
  - apply kill_keeps.
  - apply keeps_refl.
  - apply keeps_refl.
Qed.

Lemma loop_keeps (conns : list (Env * Clock * Wire)) (st : ZoneExecutor) :
  keeps st (snd (accept_loop conns st)).
Proof.
  revert st. induction conns as [|[[env clk] data] conns IH]; intros st;
    [apply keeps_refl|].
  cbn [accept_loop]. destruct (running st); [|apply keeps_refl].
  pose proof (connection_keeps env clk data st) as H1.
  destruct (_handle_connection env clk data st) as [reply st1].
  specialize (IH st1). destruct (accept_loop conns st1) as [replies st2].
  cbn [snd] in *. exact (keeps_trans st st1 st2 H1 IH).
Qed.

(** Nothing the executor can be sent gives a spent budget back: over
    any run of connections no counter of the policy engine goes down, so
    an action whose cap was reached before is still refused with
    [rate_limited] after it. *)
Theorem no_traffic_restores_a_budget (conns : list (Env * Clock * Wire))
    (st : ZoneExecutor) (action : string) (n : nat) (clk : Clock) (m : Message) :
  Policy.cap action = Some n ->
  (n <= Policy.counter (policy st) action)%nat ->
  m_action m = Some action ->
  let st' := snd (accept_loop conns st) in
  (forall a, (Policy.counter (policy st) a <= Policy.counter (policy st') a)%nat) /\
  exists message,
    fst (handle_capability_request clk m st')
    = Ok [ ("type", JStr "capability_response");
           ("request_id", JStr (default "" (m_request_id m)));
           ("status", JStr "denied");
           ("error", JStr "rate_limited");
           ("message", JStr message) ].
Proof.
  intros Hcap Hle Hm st'.
  destruct (loop_keeps conns st) as [Hmono _]. fold st' in Hmono.
  split; [exact Hmono|].
  assert (Hle' : (n <= Policy.counter (policy st') action)%nat).
  { specialize (Hmono action). lia. }
  destruct (PolicyFacts.check_action_capped action n (default (JObj []) (m_params m))
              (policy st') Hcap Hle') as [message Hcheck].
  exists message. unfold handle_capability_request. rewrite Hm.
  change (default "" (Some action)) with action. rewrite Hcheck. reflexivity.
Qed.

Lemma no_traffic_restores_a_budget_witness :
  (Policy.counter (policy spent0) "make_call" = 5)%nat /\
  exists message,
    fst (handle_capability_request clk11
           (request "capability_request" "make_call" None)
           (snd (accept_loop traffic0 spent0)))
    = Ok [ ("type", JStr "capability_response");
           ("request_id", JStr "r1");
           ("status", JStr "denied");
           ("error", JStr "rate_limited");
           ("message", JStr message) ].
Proof.
  assert (Hc : (Policy.counter (policy spent0) "make_call" = 5)%nat)
    by (vm_compute; reflexivity).
  split; [exact Hc|].
  assert (Hcap : Policy.cap "make_call" = Some 5%nat) by (vm_compute; reflexivity).
  assert (Hle : (5 <= Policy.counter (policy spent0) "make_call")%nat)
    by (rewrite Hc; lia).
  exact (proj2 (no_traffic_restores_a_budget traffic0 spent0 "make_call" 5 clk11
                  (request "capability_request" "make_call" None) Hcap Hle eq_refl)).
Defined.

(** The executor decrypts [api-keys.yaml] once in its life: when the file
    is in the cache, it is still there after any run of connections, and
    the credentials of an action are then taken from that first
    decryption whatever [sops] would answer now, be it rotated secrets or
    a failure.  Only [clear_cache], which no handler calls, makes the next
    action that needs a secret run [sops] again. *)
Theorem decrypted_secrets_are_never_reloaded (conns : list (Env * Clock * Wire))
    (st : ZoneExecutor) (secrets : list (string * string)) :
  Credentials._cache (credentials st) !! "api-keys.yaml" = Some secrets ->
  let st' := snd (accept_loop conns st) in
  Credentials._cache (credentials st') !! "api-keys.yaml" = Some secrets /\
  (forall sops action,
      Credentials.inject_for_action sops action (credentials st')
      = (Ok (List.map (fun key => (key, default "" (assoc key secrets)))
               (default [] (assoc action Credentials.action_to_secrets))),
         credentials st')) /\
  (forall sops action,
      default [] (assoc action Credentials.action_to_secrets) <> [] ->
      fst (Credentials.inject_for_action sops action
             (Credentials.clear_cache (credentials st')))
      = match sops "api-keys.yaml" with
        | Ok fresh =>
            Ok (List.map (fun key => (key, default "" (assoc key fresh)))
                  (default [] (assoc action Credentials.action_to_secrets)))
        | Raise e => Raise e
        end).
Proof.
  intros Hcache st'.
  destruct (loop_keeps conns st) as [_ Hkeep]. fold st' in Hkeep.
  pose proof (Hkeep _ _ Hcache) as Hcache'.
  split; [exact Hcache'|]. split.
  - intros sops action. unfold Credentials.inject_for_action, Credentials._load_secrets.
    rewrite Hcache'.
    destruct (default [] (assoc action Credentials.action_to_secrets)); reflexivity.
  - intros sops action Hneeds.
    unfold Credentials.inject_for_action, Credentials._load_secrets,
      Credentials.clear_cache.
    cbn [Credentials._cache]. rewrite lookup_empty.
    destruct (default [] (assoc action Credentials.action_to_secrets));
      [contradiction|].
    destruct (sops "api-keys.yaml"); reflexivity.
Qed.

Lemma decrypted_secrets_are_never_reloaded_witness :
  Credentials._cache (credentials warm0) !! "api-keys.yaml" = Some secrets0 /\
  Credentials.inject_for_action (sops env_locked) "send_sms"
    (credentials (snd (accept_loop traffic0 warm0)))
  = (Ok [("twilio_account_sid", "sid"); ("twilio_auth_token", "auth")],
     credentials (snd (accept_loop traffic0 warm0))) /\
  fst (Credentials.inject_for_action (sops env_locked) "send_sms"
         (Credentials.clear_cache (credentials (snd (accept_loop traffic0 warm0)))))
  = Raise (Exn "RuntimeError" "Failed to decrypt api-keys.yaml").
Proof.
  assert (Hc : Credentials._cache (credentials warm0) !! "api-keys.yaml" = Some secrets0)
    by (vm_compute; reflexivity).
  split; [exact Hc|].
  pose proof (decrypted_secrets_are_never_reloaded traffic0 warm0 secrets0 Hc) as H.
  cbv zeta in H. destruct H as (_ & Hcached & Hcleared).
  split; [exact (Hcached (sops env_locked) "send_sms")|].
  apply (Hcleared (sops env_locked) "send_sms"). discriminate.
Defined.

(** A [kill] message is the last one answered.  On a running executor
    that is not killed and has its handler table, the loop answers it
    with [kill_response], the executor is stopped and killed, and the
    connections that follow are not served. *)
Theorem kill_is_the_last_answer (env : Env) (clk : Clock) (m : Message)
    (rest : list (Env * Clock * Wire)) (st : ZoneExecutor) :
  running st = true ->
  handlers st = Some handler_table ->
  KillSwitch.is_killed (kill_switch st) = false ->
  m_type m = Some "kill" ->
  let reason := kill_reason_of (default "manual" (m_reason m)) in
  let replies := fst (accept_loop ((env, clk, Doc m) :: rest) st) in
  let st' := snd (accept_loop ((env, clk, Doc m) :: rest) st) in
  replies
  = [Some [ ("type", JStr "kill_response");
            ("status", JStr "killed");
            ("timestamp", JStr (utc_iso clk));
            ("reason", JStr (KillSwitch.KillReason_value reason)) ]] /\
  running st' = false /\
  KillSwitch.is_killed (kill_switch st') = true.
Proof.
  intros Hrun Htable Hk Htype reason replies st'.
  subst replies st'. cbn [accept_loop]. rewrite Hrun.
  unfold _handle_connection. rewrite Htable, Htype.
  change (assoc (default "" (Some "kill")) handler_table) with (Some h_kill).
  cbn [call]. unfold handle_kill, KillSwitch.trigger, KillSwitch._execute_shutdown.
  unfold KillSwitch.is_killed in Hk. cbn. rewrite Hk. cbn.
  destruct rest as [|[[env' clk'] data'] rest]; cbn; repeat split.
Qed.

Lemma kill_is_the_last_answer_witness :
  fst (accept_loop ((env0, clk0, Doc (kill_message "manual")) :: traffic0) ready0)
  = [Some [ ("type", JStr "kill_response");
            ("status", JStr "killed");
            ("timestamp", JStr (utc_iso clk0));
            ("reason", JStr "manual") ]] /\
  length (fst (accept_loop traffic0 ready0)) = 5%nat.
Proof.
  split; [|vm_compute; reflexivity].
  exact (proj1 (kill_is_the_last_answer env0 clk0 (kill_message "manual") traffic0 ready0
                  eq_refl eq_refl eq_refl eq_refl)).
Defined.

End LoopFacts.
